(** * pandas-ai: conversation orchestrator, SQL routing and schema validation

    A shallow embedding of
      - [pandasai/agent/base.py]                     (class [Agent]),
      - [pandasai/data_loader/semantic_layer_schema.py]
        ([SQLConnectionConfig], [Source], [SemanticLayerSchema]),
      - the table-name rewriting exercised by
        [tests/unit_tests/core/code_generation/test_code_cleaning.py],
      - [pandasai/helpers/request.py]                (class [Session]),
      - [pandasai/helpers/dataframe_serializer.py]   (class [DataframeSerializer]),
    followed by the properties of the retry loops, the error surface of a
    turn, the executor choice of the SQL router, the schema validators, the
    invariants of a session, the HTTP session and the serializer.

    Python exceptions are values of type [exn]; a computation that may raise
    returns [exn + A] when it is pure and lives in the monad [M] when it
    reads or writes the agent.  Collaborators whose code is not part of the
    modelled files (language model, code executor, response parser, prompt
    builders) are parameters: a record of oracles that see the whole history
    of effects. *)

From Stdlib Require Import String Ascii List ZArith Bool Arith Lia DecimalString.
From stdpp Require Import base gmap strings list.
Import ListNotations.
Local Open Scope string_scope.
Local Open Scope list_scope.

(* ================================================================== *)
(** * Exceptions *)
(* ================================================================== *)

Module Exceptions.

(** The classes of [pandasai.exceptions] and the builtins that the modelled
    code can raise.  [pandasai.exceptions] declares each of its classes
    directly under [Exception]; [KeyboardInterrupt] stands for the builtin
    family that [except Exception] lets through. *)
Inductive exn_class : Type :=
| CodeExecutionError
| InvalidLLMOutputType
| BadImportError
| MaliciousQueryError
| PandasAIApiKeyError
| PandasAIApiCallError
| MissingVectorStoreError
| ValueError
| AttributeError
| UnboundLocalError
| RuntimeError
| KeyboardInterrupt.

#[global] Instance exn_class_eq_dec : EqDecision exn_class.
Proof. solve_decision. Defined.

Record exn : Type := mk_exn { exn_type : exn_class; exn_args : string }.

#[global] Instance exn_eq_dec : EqDecision exn.
Proof. solve_decision. Defined.

(** [isinstance(e, cls)] in a flat hierarchy. *)
Definition isinstance (e : exn) (cls : exn_class) : bool :=
  bool_decide (exn_type e = cls).

(** [except Exception] *)
Definition is_Exception (e : exn) : bool :=
  negb (isinstance e KeyboardInterrupt).

(** [except CodeExecutionError] *)
Definition is_CodeExecutionError (e : exn) : bool :=
  isinstance e CodeExecutionError.

(** [str(e)] *)
Definition str_exn (e : exn) : string := exn_args e.

(** A pure computation that returns or raises. *)
Definition result (A : Type) : Type := (exn + A)%type.

Definition raise_ {A} (cls : exn_class) (msg : string) : result A :=
  inl (mk_exn cls msg).

Definition and_then {A B} (r : result A) (k : A -> result B) : result B :=
  match r with
  | inl e => inl e
  | inr a => k a
  end.

End Exceptions.
Export Exceptions.

(* ================================================================== *)
(** * [semantic_layer_schema.py] *)
(* ================================================================== *)

Module Schema.

Record SQLConnectionConfig : Type := {
  host : string;
  port : Z;
  database : string;
  user : string;
  password : string
}.

(** [SQLConnectionConfig.__eq__] *)
Definition SQLConnectionConfig_eq (self other : SQLConnectionConfig) : bool :=
  String.eqb (host self) (host other)
  && Z.eqb (port self) (port other)
  && String.eqb (database self) (database other)
  && String.eqb (user self) (user other)
  && String.eqb (password self) (password other).

Record Column : Type := {
  column_name : string;
  column_type : option string;
  column_description : option string;
  column_expression : option string;
  column_alias : option string
}.

Record Relation : Type := {
  relation_name : option string;
  relation_description : option string;
  from_ : string;
  to : string
}.

Record Source : Type := {
  source_type : string;
  source_path : option string;
  source_connection : option SQLConnectionConfig;
  source_table : option string
}.

Record SemanticLayerSchema : Type := {
  name : string;
  source : option Source;
  view : option bool;
  description : option string;
  columns : option (list Column);
  relations : option (list Relation);
  order_by : option (list string);
  limit : option Z;
  group_by : option (list string)
}.

(** Python truthiness of the optional values the validators test. *)
Definition truthy_str (s : option string) : bool :=
  match s with
  | Some s => negb (String.eqb s EmptyString)
  | None => false
  end.

Definition truthy_list {A} (l : option (list A)) : bool :=
  match l with
  | Some (_ :: _) => true
  | _ => false
  end.

Definition truthy_bool (b : option bool) : bool :=
  match b with
  | Some true => true
  | _ => false
  end.

(** A pydantic model instance defines neither [__bool__] nor [__len__]: it
    is truthy whenever it is not [None]. *)
Definition truthy_model {A} (o : option A) : bool :=
  match o with
  | Some _ => true
  | None => false
  end.

(** [x in L] for a list of strings. *)
Definition py_in (x : string) (L : list string) : bool :=
  existsb (String.eqb x) L.

(** [self.connection == source2.connection] on [Optional[SQLConnectionConfig]]:
    [None == None] is true; a configuration compared with [None] runs
    [SQLConnectionConfig.__eq__] (directly or reflected), which reads
    [other.host] on [None]. *)
Definition connection_eq (c1 c2 : option SQLConnectionConfig) : result bool :=
  match c1, c2 with
  | None, None => inr true
  | Some a, Some b => inr (SQLConnectionConfig_eq a b)
  | _, _ => raise_ AttributeError "'NoneType' object has no attribute 'host'"
  end.

Section Constants.

(** [pandasai.constants] *)
Variable LOCAL_SOURCE_TYPES : list string.
Variable REMOTE_SOURCE_TYPES : list string.

(** [pandasai.helpers.path.validate_underscore_name_format] *)
Variable validate_underscore_name_format : string -> bool.

(** [Source.is_compatible_source] *)
Definition is_compatible_source (self source2 : Source) : result bool :=
  if py_in (source_type self) LOCAL_SOURCE_TYPES
     && py_in (source_type source2) LOCAL_SOURCE_TYPES
  then inr true
  else if py_in (source_type self) REMOTE_SOURCE_TYPES
          && py_in (source_type source2) REMOTE_SOURCE_TYPES
  then connection_eq (source_connection self) (source_connection source2)
  else inr false.

(** [Source.validate_type_and_fields] *)
Definition validate_type_and_fields (values : Source) : result Source :=
  let _type := source_type values in
  if py_in _type LOCAL_SOURCE_TYPES then
    if negb (truthy_str (source_path values))
    then raise_ ValueError
           ("For local source type '" +:+ _type +:+ "', 'path' must be defined.")
    else inr values
  else if py_in _type REMOTE_SOURCE_TYPES then
    if negb (truthy_model (source_connection values))
    then raise_ ValueError
           ("For remote source type '" +:+ _type +:+ "', 'connection' must be defined.")
    else if negb (truthy_str (source_table values))
    then raise_ ValueError
           ("For remote source type '" +:+ _type +:+ "', 'table' must be defined.")
    else inr values
  else raise_ ValueError ("Unsupported source type: " +:+ _type).

(** ** The column-name pattern [^[a-zA-Z0-9_]+\.[a-zA-Z0-9_]+$] *)

Definition is_word_char (c : ascii) : bool :=
  let n := nat_of_ascii c in
  (((97 <=? n) && (n <=? 122))
   || ((65 <=? n) && (n <=? 90))
   || ((48 <=? n) && (n <=? 57))
   || (n =? 95))%nat.

(** Longest prefix of characters satisfying [p], and the rest. *)
Fixpoint span (p : ascii -> bool) (s : string) : string * string :=
  match s with
  | EmptyString => (EmptyString, EmptyString)
  | String c s' =>
      if p c then let (a, b) := span p s' in (String c a, b)
      else (EmptyString, s)
  end.

Definition newline : string := String (ascii_of_nat 10) EmptyString.

(** [re.match(column_re_check, s)] as a truth value.  Neither ["."] nor the
    newline is a word character, so the greedy split is the only one; [$]
    matches at the end and just before a final newline. *)
Definition is_view_column_name (s : string) : bool :=
  let (w1, r1) := span is_word_char s in
  match r1 with
  | String "."%char r2 =>
      let (w2, r3) := span is_word_char r2 in
      negb (String.eqb w1 EmptyString) && negb (String.eqb w2 EmptyString)
      && (String.eqb r3 EmptyString || String.eqb r3 newline)
  | _ => false
  end.

(** [column_name.split(".")[0]] *)
Definition table_of (column_name : string) : string :=
  fst (span (fun c => negb (Ascii.eqb c "."%char)) column_name).

Definition or_empty {A} (l : option (list A)) : list A :=
  match l with
  | Some l => l
  | None => []
  end.

(** [SemanticLayerSchema._validate_name] *)
Definition _validate_name (self : SemanticLayerSchema) : result unit :=
  if String.eqb (name self) EmptyString || negb (validate_underscore_name_format (name self))
  then raise_ ValueError
         "Dataset name must be lowercase and use underscores instead of spaces. E.g. 'dataset_name'."
  else inr tt.

(** The body of the [for col in self.columns] loop of
    [_validate_group_by_columns]. *)
Fixpoint group_by_loop (group_by_set : gset string) (cols : list Column) : result unit :=
  match cols with
  | [] => inr tt
  | col :: cols' =>
      if truthy_str (column_expression col) && bool_decide (column_name col ∈ group_by_set)
      then raise_ ValueError
             ("Column '" +:+ column_name col
              +:+ "' cannot be in group_by because it has an aggregation expression. "
              +:+ "Only non-aggregated columns should be in group_by.")
      else if negb (truthy_str (column_expression col))
              && negb (bool_decide (column_name col ∈ group_by_set))
      then raise_ ValueError
             ("Column '" +:+ column_name col
              +:+ "' must either be in group_by or have an aggregation expression "
              +:+ "when group_by is specified.")
      else group_by_loop group_by_set cols'
  end.

(** [SemanticLayerSchema._validate_group_by_columns] *)
Definition _validate_group_by_columns (self : SemanticLayerSchema) : result unit :=
  if negb (truthy_list (group_by self)) || negb (truthy_list (columns self))
  then inr tt
  else group_by_loop (list_to_set (or_empty (group_by self))) (or_empty (columns self)).

(** [SemanticLayerSchema._validate_columns_relations] *)
Definition _validate_columns_relations (self : SemanticLayerSchema) : result unit :=
  let _columns := columns self in
  let _column_names := map column_name (or_empty _columns) in
  let _tables_names_in_columns : gset string := list_to_set (map table_of _column_names) in
  if negb (length _column_names =? size (list_to_set _column_names : gset string))%nat
  then raise_ ValueError "Column names must be unique. Duplicate names found."
  else if truthy_model (source self) && truthy_bool (view self)
  then raise_ ValueError "Only one of 'source' or 'view' can be defined."
  else if negb (truthy_model (source self)) && negb (truthy_bool (view self))
  then raise_ ValueError "Either 'source' or 'view' must be defined."
  else if truthy_bool (view self) then
    let _relations := relations self in
    let _column_names_in_relations : gset string :=
      list_to_set (flat_map (fun relation => [from_ relation; to relation])
                            (or_empty _relations)) in
    let _tables_names_in_relations : gset string :=
      list_to_set (map table_of (elements _column_names_in_relations)) in
    if negb (truthy_list (columns self))
    then raise_ ValueError "A view must have at least one column defined."
    else if negb (forallb is_view_column_name _column_names)
    then raise_ ValueError
           "All columns in a view must be in the format '[dataset_name].[column_name]' accepting only letters, numbers, and underscores."
    else if negb (forallb is_view_column_name (elements _column_names_in_relations))
    then raise_ ValueError
           "All params 'from' and 'to' in the relations must be in the format '[dataset_name].[column_name]' accepting only letters, numbers, and underscores."
    else
      let uncovered_tables := _tables_names_in_columns ∖ _tables_names_in_relations in
      if negb (bool_decide (uncovered_tables = ∅)) && (1 <? size _tables_names_in_columns)%nat
      then raise_ ValueError "No relations provided for the following tables."
      else inr tt
  else if existsb is_view_column_name _column_names
  then raise_ ValueError
         "All columns in a table must be in the format '[column_name]' accepting only letters, numbers, and underscores."
  else inr tt.

(** [SemanticLayerSchema.validate_schema], the model validator run on every
    instance. *)
Definition validate_schema (self : SemanticLayerSchema) : result SemanticLayerSchema :=
  and_then (_validate_name self) (fun _ =>
  and_then (_validate_group_by_columns self) (fun _ =>
  and_then (_validate_columns_relations self) (fun _ =>
  inr self))).

End Constants.

(** [is_schema_source_same]; both schemas are expected to carry a source. *)
Definition is_schema_source_same (schema1 schema2 : SemanticLayerSchema) : result bool :=
  match source schema1, source schema2 with
  | Some source1, Some source2 =>
      inr (String.eqb (source_type source1) (source_type source2)
           && bool_decide (source_path source1 = source_path source2))
  | _, _ => raise_ AttributeError "'NoneType' object has no attribute 'type'"
  end.

End Schema.

(* ================================================================== *)
(** * [agent/base.py]: data *)
(* ================================================================== *)

Module AgentData.
Import Schema.

(** A Python value that is a [str] or [None]: generated code, and the
    [last_code_generated] slot before any code exists. *)
Definition Code : Type := option string.

Definition str_code (code : Code) : string :=
  match code with
  | Some c => c
  | None => "None"
  end.

(** One entry of [self._state.memory]. *)
Record Message : Type := { is_user : bool; message : string }.

(** What a prompt builder of [pandasai.core.prompts] receives.  The builders
    are not part of the modelled files: a prompt is the record of which
    builder was called on which arguments, the agent state being represented
    by the two fields a prompt is rendered from. *)
Record PromptContext : Type := {
  ctx_memory : list Message;
  ctx_output_type : option string
}.

Inductive Prompt : Type :=
| ChatPromptForSql (context : PromptContext)
| CorrectErrorPromptForSql (context : PromptContext) (code : Code) (error_trace : string)
| CorrectOutputTypeErrorPrompt (context : PromptContext) (code : Code) (error_trace : string).

(** A dataset handed to the agent ([DataFrame] or [VirtualDataFrame]).
    [loader_source = None] stands for a frame without [_loader];
    [query_builder = Some expr] for a frame that has a [query_builder], whose
    [_get_table_expression()] is [expr]. *)
Record DataFrame : Type := {
  schema_name : string;
  schema_source : option Source;
  loader_source : option Source;
  query_builder : option string
}.

Record LLM : Type := { llm_type : string }.

Record Config : Type := {
  llm : option LLM;
  max_retries : nat;
  direct_sql : bool
}.

(** [AgentState], reduced to the attributes [Agent] reads and writes. *)
Record AgentState : Type := {
  dfs : list DataFrame;
  config : Config;
  memory : list Message;
  last_code_generated : Code;
  last_prompt_used : option Prompt;
  output_type : option string;
  last_prompt_id : option nat
}.

(** A tabular result ([pd.DataFrame]). *)
Definition Table : Type := list (list string).

(** The value a turn hands back: what [ResponseParser.parse] built, or the
    [ErrorResponse] of [_handle_exception], or [None]. *)
Inductive Response : Type :=
| ParsedResponse (value : string)
| ErrorResponse (last_code_executed : Code) (error : string)
| NoneResponse.

(** Calls that leave the agent, in the order they happen (most recent
    first in a trace). *)
Inductive Event : Type :=
| Log (msg : string)
| Warn (msg : string)
| CheckCompatibleSources (sources : list Source)
| GenerateCode (prompt : Prompt)
| ExecuteCode (sandboxed : bool) (code : Code)
| ParseResult (result : string) (code : Code)
| DuckDbRegister (table : string)
| DuckDbSql (query : string)
| DelegateSql (df : string) (query : string).

(** What one call of [CodeGenerator.generate_code] does: it returns code or
    raises, and it may overwrite [last_code_generated] on the way. *)
Record GenOutcome : Type := {
  gen_result : result string;
  gen_last_code : option string
}.

(** The collaborators.  Each oracle sees the trace of all earlier calls. *)
Record Collaborators : Type := {
  code_generator_generate_code : list Event -> Prompt -> GenOutcome;
  execute_and_return_result : list Event -> Code -> result string;
  sandbox_execute : list Event -> Code -> result string;
  response_parser_parse : string -> Code -> result string;
  format_traceback : exn -> string;
  replace_table_and_column_names : string -> gmap string string -> result string;
  df_execute_sql_query : DataFrame -> string -> result Table;
  duckdb_sql : gmap string DataFrame -> string -> result Table
}.

(** The agent together with the interpreter state its methods depend on. *)
Record World : Type := {
  _state : AgentState;
  _sandbox : bool;
  exc_info : option exn;
  duckdb : gmap string DataFrame;
  next_prompt_id : nat;
  trace : list Event
}.

Definition set_state (s : AgentState) (w : World) : World :=
  {| _state := s; _sandbox := _sandbox w; exc_info := exc_info w;
     duckdb := duckdb w; next_prompt_id := next_prompt_id w; trace := trace w |}.

Definition set_exc_info (e : option exn) (w : World) : World :=
  {| _state := _state w; _sandbox := _sandbox w; exc_info := e;
     duckdb := duckdb w; next_prompt_id := next_prompt_id w; trace := trace w |}.

Definition set_duckdb (d : gmap string DataFrame) (w : World) : World :=
  {| _state := _state w; _sandbox := _sandbox w; exc_info := exc_info w;
     duckdb := d; next_prompt_id := next_prompt_id w; trace := trace w |}.

Definition set_next_prompt_id (n : nat) (w : World) : World :=
  {| _state := _state w; _sandbox := _sandbox w; exc_info := exc_info w;
     duckdb := duckdb w; next_prompt_id := n; trace := trace w |}.

Definition emit (ev : Event) (w : World) : World :=
  {| _state := _state w; _sandbox := _sandbox w; exc_info := exc_info w;
     duckdb := duckdb w; next_prompt_id := next_prompt_id w; trace := ev :: trace w |}.

Definition with_memory (m : list Message) (s : AgentState) : AgentState :=
  {| dfs := dfs s; config := config s; memory := m;
     last_code_generated := last_code_generated s;
     last_prompt_used := last_prompt_used s; output_type := output_type s;
     last_prompt_id := last_prompt_id s |}.

Definition with_last_code_generated (c : Code) (s : AgentState) : AgentState :=
  {| dfs := dfs s; config := config s; memory := memory s;
     last_code_generated := c;
     last_prompt_used := last_prompt_used s; output_type := output_type s;
     last_prompt_id := last_prompt_id s |}.

Definition with_last_prompt_used (p : option Prompt) (s : AgentState) : AgentState :=
  {| dfs := dfs s; config := config s; memory := memory s;
     last_code_generated := last_code_generated s;
     last_prompt_used := p; output_type := output_type s;
     last_prompt_id := last_prompt_id s |}.

Definition with_output_type (t : option string) (s : AgentState) : AgentState :=
  {| dfs := dfs s; config := config s; memory := memory s;
     last_code_generated := last_code_generated s;
     last_prompt_used := last_prompt_used s; output_type := t;
     last_prompt_id := last_prompt_id s |}.

Definition with_last_prompt_id (i : option nat) (s : AgentState) : AgentState :=
  {| dfs := dfs s; config := config s; memory := memory s;
     last_code_generated := last_code_generated s;
     last_prompt_used := last_prompt_used s; output_type := output_type s;
     last_prompt_id := i |}.

(** ** The monad of agent methods *)

Inductive Res (A : Type) : Type :=
| Ok (a : A)
| Raise (e : exn)
| OutOfFuel.
Arguments Ok {A} a.
Arguments Raise {A} e.
Arguments OutOfFuel {A}.

Definition M (A : Type) : Type := World -> Res A * World.

Definition ret {A} (a : A) : M A := fun w => (Ok a, w).

Definition bind {A B} (m : M A) (k : A -> M B) : M B :=
  fun w =>
    match m w with
    | (Ok a, w') => k a w'
    | (Raise e, w') => (Raise e, w')
    | (OutOfFuel, w') => (OutOfFuel, w')
    end.

Definition raise {A} (e : exn) : M A := fun w => (Raise e, w).

Definition out_of_fuel {A} : M A := fun w => (OutOfFuel, w).

Definition lift {A} (r : result A) : M A :=
  fun w =>
    match r with
    | inr a => (Ok a, w)
    | inl e => (Raise e, w)
    end.

Definition get_state : M AgentState := fun w => (Ok (_state w), w).

Definition modify_state (f : AgentState -> AgentState) : M unit :=
  fun w => (Ok tt, set_state (f (_state w)) w).

Definition tell (ev : Event) : M unit := fun w => (Ok tt, emit ev w).

(** [try: body / except <catches> as e: handler e].  While the handler runs,
    [e] is the exception being handled; when the handler is left, by
    completion or by an exception, the one handled before is restored. *)
Definition try_except {A} (body : M A) (catches : exn -> bool) (handler : exn -> M A) : M A :=
  fun w =>
    match body w with
    | (Raise e, w') =>
        if catches e then
          let (r, w'') := handler e (set_exc_info (Some e) w') in
          (r, set_exc_info (exc_info w') w'')
        else (Raise e, w')
    | (r, w') => (r, w')
    end.

(** A bare [raise]. *)
Definition reraise {A} : M A :=
  fun w =>
    match exc_info w with
    | Some e => (Raise e, w)
    | None => (Raise (mk_exn RuntimeError "No active exception to reraise"), w)
    end.

End AgentData.

Notation "x <- m ;; k" := (AgentData.bind m (fun x => k))
  (at level 100, m at next level, right associativity).
Notation "m ;; k" := (AgentData.bind m (fun _ => k))
  (at level 100, right associativity).

(* ================================================================== *)
(** * [agent/base.py]: the methods of [Agent] *)
(* ================================================================== *)

Module Agent.
Import Schema.
Export AgentData.

Definition str_nat (n : nat) : string := NilEmpty.string_of_uint (Nat.to_uint n).

(** How one pass through the body of a [while] loop ends. *)
Inductive LoopStep (R S : Type) : Type :=
| Return (r : R)
| Continue (s : S).
Arguments Return {R S} r.
Arguments Continue {R S} s.

(** ** Observations on a trace *)

Definition is_generate (ev : Event) : bool :=
  match ev with GenerateCode _ => true | _ => false end.

Definition is_execute (ev : Event) : bool :=
  match ev with ExecuteCode _ _ => true | _ => false end.

Definition is_check (ev : Event) : bool :=
  match ev with CheckCompatibleSources _ => true | _ => false end.

(** An event that runs an SQL query on a physical engine. *)
Definition is_sql_run (ev : Event) : bool :=
  match ev with DuckDbSql _ | DelegateSql _ _ => true | _ => false end.

Definition count_events (p : Event -> bool) (t : list Event) : nat :=
  length (List.filter p t).

Definition count_generate : list Event -> nat := count_events is_generate.
Definition count_execute : list Event -> nat := count_events is_execute.

(** The prompts handed to the code generator, most recent first. *)
Fixpoint prompts_of (t : list Event) : list Prompt :=
  match t with
  | [] => []
  | GenerateCode p :: t' => p :: prompts_of t'
  | _ :: t' => prompts_of t'
  end.

(** ** Observations on a prompt *)

Definition is_fix_output_type (p : Prompt) : bool :=
  match p with CorrectOutputTypeErrorPrompt _ _ _ => true | _ => false end.

Definition is_fix_error (p : Prompt) : bool :=
  match p with CorrectErrorPromptForSql _ _ _ => true | _ => false end.

(** The failing code and the diagnostic text attached to a correction
    request. *)
Definition attached (p : Prompt) : option (Code * string) :=
  match p with
  | ChatPromptForSql _ => None
  | CorrectErrorPromptForSql _ code error_trace => Some (code, error_trace)
  | CorrectOutputTypeErrorPrompt _ code error_trace => Some (code, error_trace)
  end.

(** ** Observations on a session's datasets *)

(** The last dataset of the list that has a query builder. *)
Fixpoint last_delegate (l : list DataFrame) : option DataFrame :=
  match l with
  | [] => None
  | df :: l' =>
      match last_delegate l' with
      | Some d => Some d
      | None => match query_builder df with Some _ => Some df | None => None end
      end
  end.

(** The table mapping and the tables of the in-process engine once the
    datasets [l] have been visited. *)
Definition add_table_expression (m : gmap string string) (df : DataFrame) : gmap string string :=
  match query_builder df with
  | Some table_expression => <[schema_name df := table_expression]> m
  | None => m
  end.

Definition register_local (d : gmap string DataFrame) (df : DataFrame) : gmap string DataFrame :=
  match query_builder df with
  | Some _ => d
  | None => <[schema_name df := df]> d
  end.

Definition table_mapping_of (l : list DataFrame) : gmap string string :=
  fold_left add_table_expression l ∅.

Definition registered_by (l : list DataFrame) (d : gmap string DataFrame) : gmap string DataFrame :=
  fold_left register_local l d.

Definition res_of {A} (r : result A) : Res A :=
  match r with
  | inr a => Ok a
  | inl e => Raise e
  end.

(** ** Effects of a method on the trace

    [effect_at p n Q m w]: run from [w], the method [m] only appends events
    to the trace, at most [n] of them satisfy [p], it does not run out of
    fuel, and a returned value satisfies [Q]. *)
Definition effect_at {A} (p : Event -> bool) (n : nat) (Q : A -> Prop) (m : M A) (w : World)
  : Prop :=
  exists evs,
    trace (snd (m w)) = evs ++ trace w
    /\ (count_events p evs <= n)%nat
    /\ match fst (m w) with
       | Ok a => Q a
       | Raise _ => True
       | OutOfFuel => False
       end.

Definition effect {A} (p : Event -> bool) (n : nat) (Q : A -> Prop) (m : M A) : Prop :=
  forall w, effect_at p n Q m w.

Definition cost (p : Event -> bool) (ev : Event) : nat :=
  if p ev then 1%nat else 0%nat.

(** The selection that counts nothing. *)
Definition no_event : Event -> bool := fun _ => false.

(** The data model of the specification lists, as conversation state, the
    message history, the most recently generated program text, the most
    recently used generation request, the correlation identifier of the turn
    and the declared output type; this is that state cleared. *)
Definition spec_conversation_state_cleared (s : AgentState) : Prop :=
  memory s = []
  /\ last_code_generated s = None
  /\ last_prompt_used s = None
  /\ last_prompt_id s = None
  /\ output_type s = None.

Section Methods.

Variable LOCAL_SOURCE_TYPES : list string.
Variable REMOTE_SOURCE_TYPES : list string.
Variable env : Collaborators.

(** [self._state.logger.log(msg)] *)
Definition log (msg : string) : M unit := tell (Log msg).

(** What [traceback.format_exc()] returns when no exception is being
    handled. *)
Definition no_traceback : string := "NoneType: None" +:+ newline.

(** [traceback.format_exc()] *)
Definition format_exc : M string :=
  fun w =>
    match exc_info w with
    | Some e => (Ok (format_traceback env e), w)
    | None => (Ok no_traceback, w)
    end.

(** [self._code_generator.generate_code(prompt)] *)
Definition code_generator (prompt : Prompt) : M Code :=
  fun w =>
    let out := code_generator_generate_code env (trace w) prompt in
    let w1 := emit (GenerateCode prompt) w in
    let w2 :=
      match gen_last_code out with
      | Some c => set_state (with_last_code_generated (Some c) (_state w1)) w1
      | None => w1
      end in
    match gen_result out with
    | inr code => (Ok (Some code), w2)
    | inl e => (Raise e, w2)
    end.

Definition context_of (s : AgentState) : PromptContext :=
  {| ctx_memory := memory s; ctx_output_type := output_type s |}.

(** The three builders of [pandasai.core.prompts]. *)
Definition get_chat_prompt_for_sql (s : AgentState) : Prompt :=
  ChatPromptForSql (context_of s).

Definition get_correct_error_prompt_for_sql
    (s : AgentState) (code : Code) (error_trace : string) : Prompt :=
  CorrectErrorPromptForSql (context_of s) code error_trace.

Definition get_correct_output_type_error_prompt
    (s : AgentState) (code : Code) (error_trace : string) : Prompt :=
  CorrectOutputTypeErrorPrompt (context_of s) code error_trace.

(** [self._state.memory.add(message, is_user=...)] *)
Definition memory_add (msg : string) (user : bool) : M unit :=
  modify_state (fun s => with_memory (memory s ++ [{| is_user := user; message := msg |}]) s).

(** [Agent.clear_memory] *)
Definition clear_memory : M unit :=
  modify_state (with_memory []).

(** [Agent.add_message] *)
Definition add_message (msg : string) (user : bool) : M unit :=
  memory_add msg user.

(** [Agent.start_new_conversation] *)
Definition start_new_conversation : M unit :=
  clear_memory.

(** [self._state.assign_prompt_id()]: a fresh identifier for the turn. *)
Definition assign_prompt_id : M unit :=
  fun w =>
    let i := next_prompt_id w in
    let w1 := set_state (with_last_prompt_id (Some i) (_state w)) w in
    (Ok tt, emit (Log ("Prompt ID: " +:+ str_nat i)) (set_next_prompt_id (S i) w1)).

(** [Agent.generate_code] *)
Definition generate_code (query : string) : M Code :=
  memory_add query true;;
  log "Generating new code...";;
  s <- get_state;;
  let prompt := get_chat_prompt_for_sql s in
  code <- code_generator prompt;;
  modify_state (with_last_prompt_used (Some prompt));;
  ret code.

(** [Agent.execute_code].  The executor is handed [_execute_sql_query] in its
    environment; what the program does with it is part of the oracle. *)
Definition execute_code (code : Code) : M string :=
  log ("Executing code: " +:+ str_code code);;
  fun w =>
    if _sandbox w
    then lift (sandbox_execute env (trace w) code) (emit (ExecuteCode true code) w)
    else lift (execute_and_return_result env (trace w) code) (emit (ExecuteCode false code) w).

(** [self._response_parser.parse(result, code)] *)
Definition parse (result : string) (code : Code) : M Response :=
  tell (ParseResult result code);;
  value <- lift (response_parser_parse env result code);;
  ret (ParsedResponse value).

(** [Agent._regenerate_code_after_error] *)
Definition _regenerate_code_after_error (code : Code) (error : exn) : M Code :=
  error_trace <- format_exc;;
  log ("Execution failed with error: " +:+ error_trace);;
  s <- get_state;;
  let prompt :=
    if isinstance error InvalidLLMOutputType
    then get_correct_output_type_error_prompt s code error_trace
    else get_correct_error_prompt_for_sql s code error_trace in
  code_generator prompt.

(** One pass through the body of the [while] loop of
    [generate_code_with_retries]: the corrected code to return, or the
    updated [attempts] and [exception] to go on with. *)
Definition generate_retry_step
    (max_retries attempts : nat) (exception : exn) : M (LoopStep Code (nat * exn)) :=
  try_except
    (s <- get_state;;
     code <- _regenerate_code_after_error (last_code_generated s) exception;;
     ret (Return code))
    is_Exception
    (fun e =>
       let exception := e in
       let attempts := S attempts in
       if (max_retries <? attempts)%nat then
         log ("Maximum retry attempts exceeded. Last error: " +:+ str_exn e);;
         reraise
       else
         log ("Retrying Code Generation (" +:+ str_nat attempts +:+ "/"
              +:+ str_nat max_retries +:+ ")...");;
         ret (Continue (attempts, exception))).

(** The [while attempts <= max_retries] loop of [generate_code_with_retries],
    entered with the current values of [attempts] and [exception]. *)
Fixpoint generate_retry_loop
    (fuel : nat) (max_retries attempts : nat) (exception : exn) : M Code :=
  match fuel with
  | O => out_of_fuel
  | S fuel' =>
      if (attempts <=? max_retries)%nat then
        step <- generate_retry_step max_retries attempts exception;;
        match step with
        | Return code => ret code
        | Continue (attempts, exception) =>
            generate_retry_loop fuel' max_retries attempts exception
        end
      else ret None
  end.

(** [Agent.generate_code_with_retries] *)
Definition generate_code_with_retries (query : string) : M Code :=
  s <- get_state;;
  let max_retries := max_retries (config s) in
  let attempts := 0%nat in
  try_except
    (generate_code query)
    is_Exception
    (fun e =>
       let exception := e in
       generate_retry_loop (S max_retries) max_retries attempts exception).

(** The [try] suite of the loop of [execute_with_retries]: run the code and
    parse its result. *)
Definition execute_and_parse (code : Code) : M Response :=
  result <- execute_code code;;
  parse result code.

(** One pass through the body of the [while] loop of
    [execute_with_retries]: the response to return, or the updated
    [attempts] and the regenerated [code] to go on with. *)
Definition execute_retry_step
    (max_retries attempts : nat) (code : Code) : M (LoopStep Response (nat * Code)) :=
  try_except
    (response <- execute_and_parse code;;
     ret (Return response))
    is_Exception
    (fun e =>
       let attempts := S attempts in
       if (max_retries <? attempts)%nat then
         log ("Max retries reached. Error: " +:+ str_exn e);;
         reraise
       else
         log ("Retrying execution (" +:+ str_nat attempts +:+ "/"
              +:+ str_nat max_retries +:+ ")...");;
         code <- _regenerate_code_after_error code e;;
         ret (Continue (attempts, code))).

(** The [while attempts <= max_retries] loop of [execute_with_retries]. *)
Fixpoint execute_retry_loop
    (fuel : nat) (max_retries attempts : nat) (code : Code) : M Response :=
  match fuel with
  | O => out_of_fuel
  | S fuel' =>
      if (attempts <=? max_retries)%nat then
        step <- execute_retry_step max_retries attempts code;;
        match step with
        | Return response => ret response
        | Continue (attempts, code) =>
            execute_retry_loop fuel' max_retries attempts code
        end
      else ret NoneResponse
  end.

(** [Agent.execute_with_retries] *)
Definition execute_with_retries (code : Code) : M Response :=
  s <- get_state;;
  let max_retries := max_retries (config s) in
  let attempts := 0%nat in
  execute_retry_loop (S max_retries) max_retries attempts code.

(** [Agent._handle_exception] *)
Definition _handle_exception (code : Code) : M Response :=
  error_message <- format_exc;;
  log ("Processing failed with error: " +:+ error_message);;
  ret (ErrorResponse code error_message).

(** The [try] suite of [_process_query].  Besides its outcome it reports the
    binding of the local variable [code] at the point where it ended: [None]
    while [code] is still unbound. *)
Definition process_query_try (query : string) : World -> option Code * (Res Response * World) :=
  fun w =>
    match (assign_prompt_id;; generate_code_with_retries query) w with
    | (Ok code, w1) =>
        (Some code,
         (result <- execute_with_retries code;;
          log "Response generated successfully.";;
          ret result) w1)
    | (Raise e, w1) => (None, (Raise e, w1))
    | (OutOfFuel, w1) => (None, (OutOfFuel, w1))
    end.

(** The statements of [_process_query] that precede its [try]. *)
Definition process_query_prelude (query : string) (output_type : option string) : M unit :=
  log ("Question: " +:+ query);;
  s <- get_state;;
  match llm (config s) with
  | Some l => log ("Running PandasAI with " +:+ llm_type l +:+ " LLM...")
  | None => raise (mk_exn AttributeError "'NoneType' object has no attribute 'type'")
  end;;
  modify_state (with_output_type output_type).

(** The [try ... except CodeExecutionError] statement of [_process_query]. *)
Definition process_query_guarded (query : string) : M Response :=
  fun w =>
    let (code, out) := process_query_try query w in
    try_except
      (fun _ => out)
      is_CodeExecutionError
      (fun _ =>
         match code with
         | Some code => _handle_exception code
         | None =>
             raise (mk_exn UnboundLocalError
                      "cannot access local variable 'code' where it is not associated with a value")
         end)
      w.

(** [Agent._process_query]; [UserQuery(query)] is the query text. *)
Definition _process_query (query : string) (output_type : option string) : M Response :=
  process_query_prelude query output_type;;
  process_query_guarded query.

(** [Agent.chat] *)
Definition chat (query : string) (output_type : option string) : M Response :=
  s <- get_state;;
  match llm (config s) with
  | None =>
      raise (mk_exn ValueError
               ("PandasAI API key does not include LLM credits. "
                +:+ "Please configure an OpenAI or LiteLLM key. "
                +:+ "Learn more at: https://docs.pandas-ai.com/v3/large-language-models#how-to-set-up-any-llm%3F"))
  | Some _ =>
      start_new_conversation;;
      _process_query query output_type
  end.

(** [Agent.follow_up] *)
Definition follow_up (query : string) (output_type : option string) : M Response :=
  _process_query query output_type.

(** The properties [last_generated_code], [last_code_executed] and
    [last_prompt_used]. *)
Definition last_generated_code (w : World) : Code :=
  last_code_generated (_state w).

Definition last_code_executed (w : World) : Code :=
  last_code_generated (_state w).

Definition last_prompt_used_ (w : World) : option Prompt :=
  last_prompt_used (_state w).

(** ** [Agent._execute_sql_query] *)

(** [db_manager.register(name, df)] on the shared in-process engine. *)
Definition db_register (name : string) (df : DataFrame) : M unit :=
  fun w => (Ok tt, emit (DuckDbRegister name) (set_duckdb (<[name := df]> (duckdb w)) w)).

(** [db_manager.sql(query).df()] *)
Definition db_sql (query : string) : M Table :=
  fun w => lift (duckdb_sql env (duckdb w) query) (emit (DuckDbSql query) w).

(** [df.execute_sql_query(query)] of a frame with a query builder. *)
Definition df_executor_call (df : DataFrame) (query : string) : M Table :=
  fun w => lift (df_execute_sql_query env df query) (emit (DelegateSql (schema_name df) query) w).

(** The [for df in self._state.dfs] loop, threading [table_mapping] and
    [df_executor]. *)
Fixpoint register_loop
    (l : list DataFrame) (table_mapping : gmap string string) (df_executor : option DataFrame)
  : M (gmap string string * option DataFrame) :=
  match l with
  | [] => ret (table_mapping, df_executor)
  | df :: l' =>
      match query_builder df with
      | Some table_expression =>
          register_loop l' (<[schema_name df := table_expression]> table_mapping) (Some df)
      | None =>
          db_register (schema_name df) df;;
          register_loop l' table_mapping df_executor
      end
  end.

Definition _execute_sql_query (query : string) : M Table :=
  s <- get_state;;
  match dfs s with
  | [] => raise (mk_exn ValueError "No DataFrames available to register for query execution.")
  | _ :: _ =>
      r <- register_loop (dfs s) ∅ None;;
      let (table_mapping, df_executor) := r in
      final_query <- lift (replace_table_and_column_names env query table_mapping);;
      match df_executor with
      | None => db_sql final_query
      | Some df => df_executor_call df final_query
      end
  end.

(** ** [Agent.__init__] *)

(** [df.schema.source or df._loader.source] *)
Definition source_of (df : DataFrame) : result Source :=
  match schema_source df with
  | Some s => inr s
  | None =>
      match loader_source df with
      | Some s => inr s
      | None => raise_ AttributeError "'DataFrame' object has no attribute '_loader'"
      end
  end.

Fixpoint sources_of (l : list DataFrame) : result (list Source) :=
  match l with
  | [] => inr []
  | df :: l' =>
      and_then (source_of df) (fun s =>
      and_then (sources_of l') (fun ss => inr (s :: ss)))
  end.

(** [all(source.is_compatible_source(other) for other in others)] *)
Fixpoint compatible_with_all (source : Source) (others : list Source) : result bool :=
  match others with
  | [] => inr true
  | other :: others' =>
      and_then (is_compatible_source LOCAL_SOURCE_TYPES REMOTE_SOURCE_TYPES source other)
        (fun b => if b then compatible_with_all source others' else inr false)
  end.

Fixpoint mutually_compatible (l all : list Source) : result bool :=
  match l with
  | [] => inr true
  | s :: l' =>
      and_then (compatible_with_all s all)
        (fun b => if b then mutually_compatible l' all else inr false)
  end.

(** Modelled from the spec: [BaseQueryBuilder.check_compatible_sources] is
    called by [Agent.__init__] but its body is not part of the modelled
    files.  The data model asks the datasets of a session to have mutually
    compatible sources (all local, or all remote with identical connection):
    the check accepts a list when every source is compatible, by
    [Source.is_compatible_source], with every source of the list. *)
Definition check_compatible_sources (sources : list Source) : result bool :=
  mutually_compatible sources sources.

(** [AgentState.initialize], for the attributes of [AgentState] above. *)
Definition initialize
    (datasets : DataFrame + list DataFrame) (config : option Config) (global_config : Config)
  : AgentState :=
  {| dfs := match datasets with inl df => [df] | inr l => l end;
     config := match config with Some c => c | None => global_config end;
     memory := [];
     last_code_generated := None;
     last_prompt_used := None;
     output_type := None;
     last_prompt_id := None |}.

Definition deprecation_warning : list Event :=
  [Warn "The 'config' parameter is deprecated and will be removed in a future version. Please use the global configuration instead."].

(** [Agent.__init__]: [datasets] is one frame or a list of frames; the
    result is the constructed agent, or the exception that aborted the
    construction. *)
Definition __init__
    (datasets : DataFrame + list DataFrame) (config : option Config) (global_config : Config)
    (sandbox : bool) : result World :=
  let warned := match config with Some _ => deprecation_warning | None => [] end in
  and_then
    (match datasets with
     | inr l =>
         and_then (sources_of l) (fun sources =>
         and_then (check_compatible_sources sources) (fun ok =>
         if negb ok
         then raise_ ValueError "The sources of these datasets are not compatibles"
         else inr (CheckCompatibleSources sources :: warned)))
     | inl _ => inr warned
     end)
    (fun events =>
       inr {| _state := initialize datasets config global_config;
              _sandbox := sandbox;
              exc_info := None;
              duckdb := ∅;
              next_prompt_id := 0;
              trace := events |}).

End Methods.

(** One public operation on a constructed agent. *)
Inductive session_step (env : Collaborators) (w : World) : World -> Prop :=
| step_chat query output_type :
    session_step env w (snd (chat env query output_type w))
| step_follow_up query output_type :
    session_step env w (snd (follow_up env query output_type w))
| step_execute_sql_query query :
    session_step env w (snd (_execute_sql_query env query w))
| step_add_message msg user :
    session_step env w (snd (add_message msg user w))
| step_clear_memory :
    session_step env w (snd (clear_memory w)).

(** The states a session can reach from [w]. *)
Definition reachable (env : Collaborators) : World -> World -> Prop :=
  rtc (session_step env).

End Agent.

(* ================================================================== *)
(** * Table-name rewriting of generated SQL *)
(* ================================================================== *)

Module CodeCleaning.
Import Schema.

(** What an SQL-aware parse makes of a statement: its table references, and
    the text between them (keywords, columns, operators, literals,
    comments). *)
Inductive SqlToken : Type :=
| TableRef (name : string)
| Text (text : string).






(** ** An SQL-aware parse *)

Definition upper (c : ascii) : ascii :=
  let n := nat_of_ascii c in
  if ((97 <=? n) && (n <=? 122))%nat then ascii_of_nat (n - 32) else c.

Fixpoint upper_string (s : string) : string :=
  match s with
  | EmptyString => EmptyString
  | String c s' => String (upper c) (upper_string s')
  end.

(** The keywords after which a table is named. *)
Definition introduces_table (word : string) : bool :=
  py_in (upper_string word) ["FROM"; "JOIN"; "INTO"; "UPDATE"; "TABLE"].

(** The keywords that end a list of tables. *)
Definition ends_table_list (word : string) : bool :=
  py_in (upper_string word)
    ["SELECT"; "WHERE"; "GROUP"; "ORDER"; "HAVING"; "LIMIT"; "OFFSET"; "FETCH";
     "WINDOW"; "QUALIFY"; "SET"; "VALUES"; "RETURNING";
     "UNION"; "EXCEPT"; "INTERSECT"].

Definition is_space (c : ascii) : bool :=
  existsb (Nat.eqb (nat_of_ascii c)) [32; 9; 10; 13]%nat.

(** The quotes of a delimited identifier: the double quote and the
    backtick. *)
Definition is_name_quote (c : ascii) : bool :=
  existsb (Nat.eqb (nat_of_ascii c)) [34; 96]%nat.

(** Where the reader is: in code, after a [-] or a [/] that may open a
    comment, in a line or a block comment (after a [*] that may close it),
    in a string literal, or in a delimited identifier, which names a table
    or not. *)
Inductive Mode : Type :=
| Code
| Dash
| Slash
| LineComment
| BlockComment
| BlockStar
| Literal
| QuotedName (quote : ascii) (names_table : bool).

(** Where the reader is in the clauses of the statement: whether the next
    name is a table, whether a list of tables is being read (a comma then
    announces another table), and the same for each parenthesis that is
    open, innermost first. *)
Record Clause : Type := {
  expects_table : bool;
  in_table_list : bool;
  enclosing : list bool
}.

(** The reader: its mode and clause, the text read since the last table
    reference, and the word being read. *)
Record Lexer : Type := {
  lex_mode : Mode;
  lex_clause : Clause;
  lex_text : string;
  lex_word : string
}.

Definition snoc (s : string) (c : ascii) : string := s +:+ String c EmptyString.

Definition expecting (b : bool) (cl : Clause) : Clause :=
  {| expects_table := b; in_table_list := in_table_list cl; enclosing := enclosing cl |}.

(** The end of the word [cur]: a keyword that opens or ends a list of
    tables, a table reference when a table is expected, text otherwise. *)
Definition close_word (cl : Clause) (txt cur : string)
  : list SqlToken * Clause * string :=
  if String.eqb cur EmptyString then ([], cl, txt)
  else if introduces_table cur then
    ([], {| expects_table := true; in_table_list := true; enclosing := enclosing cl |},
     txt +:+ cur)
  else if ends_table_list cur then
    ([], {| expects_table := false; in_table_list := false; enclosing := enclosing cl |},
     txt +:+ cur)
  else if expects_table cl then ([Text txt; TableRef cur], expecting false cl, EmptyString)
  else ([], cl, txt +:+ cur).

(** The mode and the clause after a character of code that is not part of
    a word. *)
Definition after_char (cl : Clause) (c : ascii) : Mode * Clause :=
  if Ascii.eqb c "'" then (Literal, expecting false cl)
  else if is_name_quote c then (QuotedName c (expects_table cl), cl)
  else if Ascii.eqb c "-" then (Dash, cl)
  else if Ascii.eqb c "/" then (Slash, cl)
  else if is_space c then (Code, cl)
  else if Ascii.eqb c "," then (Code, expecting (in_table_list cl) cl)
  else if Ascii.eqb c "(" then
    (Code, {| expects_table := false; in_table_list := false;
              enclosing := in_table_list cl :: enclosing cl |})
  else if Ascii.eqb c ")" then
    (Code, match enclosing cl with
           | outer :: rest =>
               {| expects_table := false; in_table_list := outer; enclosing := rest |}
           | [] => {| expects_table := false; in_table_list := false; enclosing := [] |}
           end)
  else if Ascii.eqb c ";" then
    (Code, {| expects_table := false; in_table_list := false; enclosing := [] |})
  else (Code, expecting false cl).

(** One character read in code. *)
Definition read_code (cl : Clause) (txt cur : string) (c : ascii)
  : list SqlToken * Lexer :=
  if is_word_char c then
    ([], {| lex_mode := Code; lex_clause := cl; lex_text := txt;
            lex_word := snoc cur c |})
  else
    let '(emitted, cl1, txt1) := close_word cl txt cur in
    let (mode2, cl2) := after_char cl1 c in
    (emitted, {| lex_mode := mode2; lex_clause := cl2; lex_text := snoc txt1 c;
                 lex_word := EmptyString |}).


(** One character read where no word is read: it joins the text. *)
Definition absorb (st : Lexer) (c : ascii) (m : Mode) : Lexer :=
  {| lex_mode := m; lex_clause := lex_clause st;
     lex_text := snoc (lex_text st +:+ lex_word st) c; lex_word := EmptyString |}.

Definition step (st : Lexer) (c : ascii) : list SqlToken * Lexer :=
  let cl := lex_clause st in
  match lex_mode st with
  | Code => read_code cl (lex_text st) (lex_word st) c
  | Dash =>
      if Ascii.eqb c "-" then ([], absorb st c LineComment)
      else read_code cl (lex_text st) (lex_word st) c
  | Slash =>
      if Ascii.eqb c "*" then ([], absorb st c BlockComment)
      else read_code cl (lex_text st) (lex_word st) c
  | LineComment =>
      ([], absorb st c (if Nat.eqb (nat_of_ascii c) 10 then Code else LineComment))
  | BlockComment =>
      ([], absorb st c (if Ascii.eqb c "*" then BlockStar else BlockComment))
  | BlockStar =>
      ([], absorb st c (if Ascii.eqb c "/" then Code
                        else if Ascii.eqb c "*" then BlockStar else BlockComment))
  | Literal =>
      ([], absorb st c (if Ascii.eqb c "'" then Code else Literal))
  | QuotedName quote true =>
      if Ascii.eqb c quote then
        ([Text (lex_text st); TableRef (lex_word st)],
         {| lex_mode := Code; lex_clause := expecting false cl;
            lex_text := String c EmptyString; lex_word := EmptyString |})
      else
        ([], {| lex_mode := QuotedName quote true; lex_clause := cl;
                lex_text := lex_text st; lex_word := snoc (lex_word st) c |})
  | QuotedName quote false =>
      ([], absorb st c (if Ascii.eqb c quote then Code else QuotedName quote false))
  end.




Section Rewriting.

(** The SQL-aware parse in use. *)
Variable sql_parse : string -> list SqlToken.


End Rewriting.

End CodeCleaning.

(* ================================================================== *)
(** * Concrete sessions used to run the model *)
(* ================================================================== *)

Module Scenarios.
Import Schema Agent.

Definition LOCAL_SOURCE_TYPES : list string := ["csv"; "parquet"].
Definition REMOTE_SOURCE_TYPES : list string := ["mysql"; "postgres"].

Definition traceback_text (e : exn) : string :=
  "Traceback (most recent call last): " +:+ exn_args e.

(** A session script: the outcome of the n-th call of the code generator
    and of the n-th run of the executor (counted from 0); the parser accepts
    every result except ["bad-shape"]. *)
Definition scripted
    (gen : nat -> GenOutcome) (exec : nat -> result string) : Collaborators :=
  {| code_generator_generate_code := fun t _ => gen (count_generate t);
     execute_and_return_result := fun t _ => exec (count_execute t);
     sandbox_execute := fun t _ => exec (count_execute t);
     response_parser_parse := fun r _ =>
       if String.eqb r "bad-shape"
       then raise_ InvalidLLMOutputType "Result must be in the expected output type."
       else inr r;
     format_traceback := traceback_text;
     replace_table_and_column_names := fun q _ => inr q;
     df_execute_sql_query := fun df q => inr [[schema_name df; q]];
     duckdb_sql := fun _ q => inr [["duckdb"; q]] |}.

Definition generated (code : string) : GenOutcome :=
  {| gen_result := inr code; gen_last_code := Some code |}.

Definition generation_failed (cls : exn_class) (msg : string) : GenOutcome :=
  {| gen_result := inl (mk_exn cls msg); gen_last_code := None |}.

Definition rejected (raw : string) (cls : exn_class) (msg : string) : GenOutcome :=
  {| gen_result := inl (mk_exn cls msg); gen_last_code := Some raw |}.

Definition csv_source : Source :=
  {| source_type := "csv"; source_path := Some "sales.csv";
     source_connection := None; source_table := None |}.

Definition pg (h : string) : SQLConnectionConfig :=
  {| host := h; port := 5432; database := "shop"; user := "reader"; password := "secret" |}.

Definition pg_source (h table : string) : Source :=
  {| source_type := "postgres"; source_path := None;
     source_connection := Some (pg h); source_table := Some table |}.

Definition sales : DataFrame :=
  {| schema_name := "sales"; schema_source := Some csv_source;
     loader_source := None; query_builder := None |}.

Definition customers : DataFrame :=
  {| schema_name := "customers"; schema_source := Some csv_source;
     loader_source := None; query_builder := None |}.

Definition orders : DataFrame :=
  {| schema_name := "orders"; schema_source := Some (pg_source "db1" "orders");
     loader_source := None; query_builder := Some "public.orders" |}.

Definition invoices : DataFrame :=
  {| schema_name := "invoices"; schema_source := Some (pg_source "db2" "invoices");
     loader_source := None; query_builder := Some "public.invoices" |}.

Definition config_with (retries : nat) : Config :=
  {| llm := Some {| llm_type := "fake" |}; max_retries := retries; direct_sql := false |}.

(** A freshly constructed agent over [datasets] with the given budget. *)
Definition session (datasets : list DataFrame) (retries : nat) : World :=
  {| _state := initialize (inr datasets) None (config_with retries);
     _sandbox := false;
     exc_info := None;
     duckdb := ∅;
     next_prompt_id := 0;
     trace := [] |}.

(** An agent in the middle of a conversation: one exchange in memory and
    the code of the previous turn still recorded. *)
Definition mid_conversation (retries : nat) : World :=
  set_state
    (with_last_code_generated (Some "result = 1")
       (with_memory [{| is_user := true; message := "first question" |};
                     {| is_user := false; message := "first answer" |}]
          (_state (session [sales] retries))))
    (session [sales] retries).

(** The generator never answers. *)
Definition llm_down : Collaborators :=
  scripted (fun _ => generation_failed PandasAIApiCallError "Request failed: timeout")
           (fun _ => inr "42").

(** The first call of the model fails on the network, the second answers. *)
Definition llm_flaky : Collaborators :=
  scripted (fun n => match n with
                     | O => generation_failed PandasAIApiCallError "Request failed: timeout"
                     | _ => generated "result = 2"
                     end)
           (fun _ => inr "42").

(** Generation succeeds, the program runs, the result has the wrong shape. *)
Definition wrong_shape : Collaborators :=
  scripted (fun _ => generated "result = df") (fun _ => inr "bad-shape").

(** Generation succeeds, every run of the program raises. *)
Definition always_crashing : Collaborators :=
  scripted (fun n => generated ("attempt " +:+ str_nat n))
           (fun _ => raise_ CodeExecutionError "ZeroDivisionError: division by zero").

(** The first run hits a connector failure, the corrected program runs. *)
Definition connector_flaky : Collaborators :=
  scripted (fun n => generated ("attempt " +:+ str_nat n))
           (fun n => match n with
                     | O => raise_ PandasAIApiCallError "Request failed: connection reset"
                     | _ => inr "42"
                     end).

(** The model records a program and then rejects it at validation. *)
Definition rejecting : Collaborators :=
  scripted (fun _ => rejected "import os" MaliciousQueryError
                       "The query contains references to io or os modules.")
           (fun _ => inr "42").

(** The agent that [Agent(dfs=[sales, customers])] constructs. *)
Definition constructed : World :=
  {| _state := initialize (inr [sales; customers]) None (config_with 1);
     _sandbox := false;
     exc_info := None;
     duckdb := ∅;
     next_prompt_id := 0;
     trace := [CheckCompatibleSources [csv_source; csv_source]] |}.

Definition timeout_error : exn :=
  mk_exn PandasAIApiCallError "Request failed: timeout".

Definition connection_reset : exn :=
  mk_exn PandasAIApiCallError "Request failed: connection reset".

Definition division_by_zero : exn :=
  mk_exn CodeExecutionError "ZeroDivisionError: division by zero".

Definition schema_with (src : option Source) (v : option bool) (cols : list string)
  : SemanticLayerSchema :=
  {| name := "sales"; source := src; view := v; description := None;
     columns := Some (map (fun n => {| column_name := n; column_type := None;
                                       column_description := None;
                                       column_expression := None;
                                       column_alias := None |}) cols);
     relations := None; order_by := None; limit := None; group_by := None |}.

Definition any_name (_ : string) : bool := true.

End Scenarios.

(* ================================================================== *)
(** * [semantic_layer_schema.py]: transformations, and words *)
(* ================================================================== *)

Module Transformations.
Import Schema.

(** A string made of the characters [a-zA-Z0-9_] only. *)
Fixpoint is_word (s : string) : bool :=
  match s with
  | EmptyString => true
  | String c s' => is_word_char c && is_word s'
  end.

(** A value of the raw dictionary a model is built from. [VOther] stands
    for any value that is not a string, a number, a boolean or [None]
    (a list, a dictionary), of the given truthiness. *)
Inductive value : Type :=
| VNone
| VBool (b : bool)
| VInt (z : Z)
| VStr (s : string)
| VOther (truthy : bool).

#[global] Instance value_eq_dec : EqDecision value.
Proof. solve_decision. Defined.

Definition truthy (v : value) : bool :=
  match v with
  | VNone => false
  | VBool b => b
  | VInt z => negb (Z.eqb z 0)
  | VStr s => negb (String.eqb s EmptyString)
  | VOther t => t
  end.

(** [values.get(key)] *)
Definition dict_get (values : gmap string value) (key : string) : value :=
  match values !! key with
  | Some v => v
  | None => VNone
  end.

(** [TransformationParams.validate_required_params] *)
Definition validate_required_params (values : gmap string value)
  : result (gmap string value) :=
  let transform_type := dict_get values "_transform_type" in
  if bool_decide (transform_type = VStr "rename") then
    if negb (truthy (dict_get values "new_name"))
    then raise_ ValueError "rename transformation requires 'new_name' parameter"
    else inr values
  else inr values.

(** The value under ["params"] in the raw dictionary of a [Transformation]:
    absent or [None], a dictionary, or an object that is not a dictionary
    (an instance of [TransformationParams]). *)
Inductive raw_params : Type :=
| NoParams
| ParamsDict (d : gmap string value)
| ParamsInstance.

(** The raw dictionary of a [Transformation]. *)
Record raw_transformation : Type := {
  raw_type : option string;
  raw_params_of : raw_params
}.

Definition truthy_params (p : raw_params) : bool :=
  match p with
  | NoParams => false
  | ParamsDict d => negb (bool_decide (d = ∅))
  | ParamsInstance => true
  end.

(** [Transformation.set_transform_type] *)
Definition set_transform_type (values : raw_transformation) : raw_transformation :=
  if truthy_params (raw_params_of values) && truthy_str (raw_type values) then
    match raw_params_of values, raw_type values with
    | ParamsDict d, Some type =>
        {| raw_type := raw_type values;
           raw_params_of := ParamsDict (<["_transform_type" := VStr type]> d) |}
    | _, _ => values
    end
  else values.

Section Validators.

(** [pandasai.constants] *)
Variable VALID_TRANSFORMATION_TYPES : list string.

(** [Transformation.is_transformation_type_supported] *)
Definition is_transformation_type_supported (type : string) : result string :=
  if negb (py_in type VALID_TRANSFORMATION_TYPES)
  then raise_ ValueError ("Unsupported transformation type: " +:+ type)
  else inr type.

(** The validators of a [Transformation] in the order pydantic runs them:
    the model validator [set_transform_type] on the raw dictionary, then the
    field validator of [type], then, when [params] is a dictionary, the
    model validator of [TransformationParams] on it. *)
Definition validate_transformation (values : raw_transformation)
  : result raw_transformation :=
  let values := set_transform_type values in
  match raw_type values with
  | None => raise_ ValueError "Field required"
  | Some type =>
      and_then (is_transformation_type_supported type) (fun _ =>
      match raw_params_of values with
      | ParamsDict d => and_then (validate_required_params d) (fun _ => inr values)
      | _ => inr values
      end)
  end.

End Validators.

End Transformations.

(* ================================================================== *)
(** * [agent/base.py]: training, and invariants of a session *)
(* ================================================================== *)

Module Training.
Import Schema Agent.

(** A call received by the vector store. *)
Inductive VectorStoreCall : Type :=
| AddDocs (docs : list string)
| AddQuestionAnswer (queries codes : list string).

(** The agent together with [self._state.vectorstore]: [None], or the calls
    the vector store has received, most recent first.  The store takes every
    call it is given. *)
Record TrainingAgent : Type := {
  agent : World;
  vectorstore : option (list VectorStoreCall)
}.

(** [Agent.train] *)
Definition train (queries codes docs : option (list string)) (a : TrainingAgent)
  : Res unit * TrainingAgent :=
  match vectorstore a with
  | None =>
      (Raise (mk_exn MissingVectorStoreError
                "No vector store provided. Please provide a vector store to train the agent."),
       a)
  | Some store =>
      if (truthy_list queries && negb (truthy_list codes))
         || (negb (truthy_list queries) && truthy_list codes)
      then
        (Raise (mk_exn ValueError
                  "If either queries or codes are provided, both must be provided."),
         a)
      else
        let store :=
          match docs with
          | Some docs => AddDocs docs :: store
          | None => store
          end in
        let store :=
          if truthy_list queries && truthy_list codes
          then AddQuestionAnswer (or_empty queries) (or_empty codes) :: store
          else store in
        (Ok tt,
         {| agent := emit (Log "Agent successfully trained on the data") (agent a);
            vectorstore := Some store |})
  end.

End Training.

Module Invariants.
Import Agent.

(** [transforms I J m]: run in a state of the agent that satisfies [I], the
    method [m] leaves one that satisfies [J], whatever its outcome. *)
Definition transforms {A} (I J : World -> Prop) (m : M A) : Prop :=
  forall w, I w -> J (snd (m w)).

(** [preserves I m]: the method [m] keeps the property [I] of the agent. *)
Definition preserves {A} (I : World -> Prop) (m : M A) : Prop :=
  transforms I I m.

(** A property of the agent that the bookkeeping of a turn does not touch:
    entering and leaving exception handlers, logging, prompt identifiers,
    the declared output type, the recorded code, calls of the code
    generator and the parser, and runs of code where [_sandbox] says. *)
Record stable (I : World -> Prop) : Prop := {
  stable_exc_info : forall e w, I w -> I (set_exc_info e w);
  stable_next_prompt_id : forall n w, I w -> I (set_next_prompt_id n w);
  stable_log : forall msg w, I w -> I (emit (Log msg) w);
  stable_generate : forall prompt w, I w -> I (emit (GenerateCode prompt) w);
  stable_parse : forall r c w, I w -> I (emit (ParseResult r c) w);
  stable_execute : forall c w, I w -> I (emit (ExecuteCode (_sandbox w) c) w);
  stable_last_code : forall c w,
      I w -> I (set_state (with_last_code_generated c (_state w)) w);
  stable_prompt_id : forall i w,
      I w -> I (set_state (with_last_prompt_id i (_state w)) w);
  stable_output_type : forall t w,
      I w -> I (set_state (with_output_type t (_state w)) w)
}.

(** The runs that do not go where the agent's [_sandbox] says. *)
Definition is_misrouted (sandboxed : bool) (ev : Event) : bool :=
  match ev with
  | ExecuteCode b _ => negb (Bool.eqb b sandboxed)
  | _ => false
  end.

(** The correction requests of a trace carry the traceback text [tb]. *)
Definition carries_traceback (tb : string) (p : Prompt) : Prop :=
  exists code, attached p = Some (code, tb).

(** The entry of [memory] for a question of the user. *)
Definition user_message (query : string) : Message :=
  {| is_user := true; message := query |}.

(** The agent [w] has the datasets, the configuration and the sandbox
    setting of [w0]. *)
Definition same_setup (w0 w : World) : Prop :=
  dfs (_state w) = dfs (_state w0)
  /\ config (_state w) = config (_state w0)
  /\ _sandbox w = _sandbox w0.

(** ... and has run no more code than [w0] on the side its sandbox setting
    excludes. *)
Definition same_routing (w0 w : World) : Prop :=
  same_setup w0 w
  /\ count_events (is_misrouted (_sandbox w0)) (trace w)
     = count_events (is_misrouted (_sandbox w0)) (trace w0).

(** [last_prompt_used] is unset or a chat prompt, not a correction
    request. *)
Definition records_chat_prompt (w : World) : Prop :=
  match last_prompt_used (_state w) with
  | Some p => attached p = None
  | None => True
  end.

(** The most that a turn with retry budget [N] emits of a kind of event that
    a call of the code generator emits at most [cg] times and a run of code
    at most [ce] times. *)
Definition turn_cost (cg ce N : nat) : nat :=
  (S (S N) * cg + (S N * ce + N * cg))%nat.

(** The outcome [out] of a turn started in [w] stays within the budget that
    [max_retries] of [w] gives. *)
Definition within_budget (w : World) (out : Res Response * World) : Prop :=
  let N := max_retries (config (_state w)) in
  fst out <> OutOfFuel
  /\ (count_generate (trace (snd out)) <= count_generate (trace w) + (2 * N + 2))%nat
  /\ (count_execute (trace (snd out)) <= count_execute (trace w) + (N + 1))%nat.

(** A code generator that is down: every request fails with [e]. *)
Definition generator_fails_with (env : Collaborators) (e : exn) : Prop :=
  forall t prompt, gen_result (code_generator_generate_code env t prompt) = inl e.

(** A dataset without query builder, registered in the in-process engine. *)
Definition is_local (df : DataFrame) : Prop := query_builder df = None.

End Invariants.

(* ================================================================== *)
(** * [helpers/request.py]: the HTTP session *)
(* ================================================================== *)

Module Request.
Import Schema.

(** What a method of [Session] can raise: an exception of [requests]
    ([requests.exceptions.RequestException] or a subclass, with its text), a
    [TypeError] or a [KeyError] of the interpreter, or an exception of
    [pandasai.exceptions]. *)
Inductive Raised : Type :=
| RequestException (text : string)
| TypeError (msg : string)
| KeyError (key : string)
| Pandas (e : exn).

Definition outcome (A : Type) : Type := (Raised + A)%type.

Definition dquote : string := String (ascii_of_nat 34) EmptyString.

Record Session : Type := {
  _api_key : string;
  _endpoint_url : string;
  _version_path : string
}.

(** [os.environ.get("PANDASAI_API_KEY") or None] *)
Definition environ_api_key (environ : gmap string string) : option string :=
  match environ !! "PANDASAI_API_KEY" with
  | Some key => if String.eqb key EmptyString then None else Some key
  | None => None
  end.

(** [Session.__init__]; the logger is left out. *)
Definition __init__
    (endpoint_url api_key : option string) (environ : gmap string string) : outcome Session :=
  let api_key :=
    match api_key with
    | Some key => Some key
    | None => environ_api_key environ
    end in
  match api_key with
  | None => inl (Pandas (mk_exn PandasAIApiKeyError EmptyString))
  | Some key =>
      let endpoint_url :=
        match endpoint_url with
        | Some url => url
        | None => default "https://api.domer.ai" (environ !! "PANDASAI_API_URL")
        end in
      inr {| _api_key := key; _endpoint_url := endpoint_url; _version_path := "/api" |}
  end.

(** A response of the server: its status code and what [response.json()]
    gives, a decoded object (values as text) or the exception of the
    decoder. *)
Record Response : Type := {
  status_code : nat;
  json : outcome (gmap string string)
}.

Section MakeRequest.

(** [params], [data], [json], [timeout] and the further keyword arguments,
    handed to [requests.request] as they come. *)
Variable Args : Type.
Variable urljoin : string -> string -> string.
Variable requests_request :
  string -> string -> list (string * string) -> Args -> outcome Response.
Variable format_exc : string -> string.

Definition default_headers (self : Session) : list (string * string) :=
  [("Authorization", "Bearer " +:+ _api_key self);
   ("Content-Type", "application/json")].

(** The [try] suite of [make_request]. *)
Definition make_request_try
    (self : Session) (method : string) (path : option string)
    (headers : option (list (string * string))) (args : Args)
  : outcome (gmap string string) :=
  match path with
  | None =>
      inl (TypeError ("can only concatenate str (not " +:+ dquote +:+ "NoneType" +:+ dquote
                      +:+ ") to str"))
  | Some path =>
      let url := urljoin (_endpoint_url self) (_version_path self +:+ path) in
      let headers :=
        match headers with
        | Some headers => headers
        | None => default_headers self
        end in
      match requests_request method url headers args with
      | inl raised => inl raised
      | inr response =>
          match json response with
          | inl raised => inl raised
          | inr data =>
              if negb (existsb (Nat.eqb (status_code response)) [200; 201]%nat) then
                match data !! "message" with
                | Some message => inl (Pandas (mk_exn PandasAIApiCallError message))
                | None =>
                    match data !! "detail" with
                    | Some detail => inl (Pandas (mk_exn PandasAIApiCallError detail))
                    | None => inr data
                    end
                end
              else inr data
          end
      end
  end.

(** [Session.make_request]: the outcome and the lines written to the
    logger. *)
Definition make_request
    (self : Session) (method : string) (path : option string)
    (headers : option (list (string * string))) (args : Args)
  : outcome (gmap string string) * list string :=
  match make_request_try self method path headers args with
  | inl (RequestException text) =>
      (inl (Pandas (mk_exn PandasAIApiCallError ("Request failed: " +:+ text))),
       ["Request failed: " +:+ format_exc text])
  | other => (other, [])
  end.

(** [Session.get]: the [data] member of the decoded response. *)
Definition get
    (self : Session) (path : option string)
    (headers : option (list (string * string))) (args : Args)
  : outcome string * list string :=
  let (r, logged) := make_request self "GET" path headers args in
  (match r with
   | inl raised => inl raised
   | inr data =>
       match data !! "data" with
       | Some value => inr value
       | None => inl (KeyError "data")
       end
   end, logged).

End MakeRequest.

End Request.

(* ================================================================== *)
(** * [helpers/dataframe_serializer.py] *)
(* ================================================================== *)

Module Serializer.
Import Schema Agent.

Inductive DataframeSerializerType : Type := JSON | YML | CSV | SQL.

(** What the serializer reads of a dataframe.  [head_csv] is
    [df.head().to_csv(index=False)], [get_head_csv] is
    [df.get_head().to_csv()], [dtypes] the columns of [df.get_head()] with
    their types, in order. *)
Record Frame : Type := {
  name : option string;
  description : option string;
  type : string;
  rows_count : nat;
  columns_count : nat;
  dtypes : list (string * string);
  head_csv : string;
  get_head_csv : string
}.

(** A value that [json.dumps] and [yaml.dump] render; a dictionary keeps
    its insertion order. *)
#[warnings="-register-all"]
Inductive Json : Type :=
| JNull
| JStr (s : string)
| JNum (n : nat)
| JList (l : list Json)
| JDict (l : list (string * Json)).

Inductive Raised : Type :=
| TypeError (msg : string)
| KeyError (key : string).

Definition dquote : string := String (ascii_of_nat 34) EmptyString.

(** [str(x)] of an optional text. *)
Definition str_opt (x : option string) : string :=
  match x with
  | Some s => s
  | None => "None"
  end.

Definition json_opt (x : option string) : Json :=
  match x with
  | Some s => JStr s
  | None => JNull
  end.

(** An attribute of a tag, written when the value is not [None]. *)
Definition attribute (key : string) (value : option string) : string :=
  match value with
  | Some v => " " +:+ key +:+ "=" +:+ dquote +:+ v +:+ dquote
  | None => EmptyString
  end.

(** The frame [df] with another description. *)
Definition described (d : option string) (df : Frame) : Frame :=
  {| name := name df; description := d; type := type df;
     rows_count := rows_count df; columns_count := columns_count df;
     dtypes := dtypes df; head_csv := head_csv df; get_head_csv := get_head_csv df |}.

Section Serialize.

Variable json_dumps : Json -> string.
Variable yaml_dump : Json -> string.

(** [convert_df_to_csv]; [extras] is the dictionary given by the caller, or
    [None]. *)
Definition convert_df_to_csv (df : Frame) (extras : option (gmap string string))
  : Raised + string :=
  let dataframe_info :=
    "<dataframe" +:+ attribute "name" (name df)
    +:+ attribute "description" (description df) +:+ ">" in
  match extras with
  | None => inl (TypeError "'NoneType' object is not subscriptable")
  | Some extras =>
      match extras !! "index" with
      | None => inl (KeyError "index")
      | Some index =>
          inr (dataframe_info +:+ newline +:+ "dfs[" +:+ index +:+ "]:"
               +:+ str_nat (rows_count df) +:+ "x" +:+ str_nat (columns_count df)
               +:+ newline +:+ head_csv df +:+ "</dataframe>" +:+ newline)
      end
  end.

(** [convert_df_sql_connector_to_str] *)
Definition convert_df_sql_connector_to_str (df : Frame) (extras : option (gmap string string))
  : string :=
  let table_description_tag := attribute "description" (description df) in
  let table_head_tag :=
    "<table name=" +:+ dquote +:+ str_opt (name df) +:+ dquote
    +:+ table_description_tag +:+ ">" in
  table_head_tag +:+ newline +:+ get_head_csv df +:+ newline +:+ "</table>".

(** [convert_df_to_json] *)
Definition convert_df_to_json (df : Frame) (extras : option (gmap string string)) : Json :=
  let df_info :=
    [("name", json_opt (name df)); ("description", JNull); ("type", JStr (type df))] in
  let fields :=
    map (fun col : string * string =>
           JDict [("name", JStr (fst col)); ("type", JStr (snd col))])
        (dtypes df) in
  let data :=
    [("rows", JNum (rows_count df)); ("columns", JNum (columns_count df));
     ("schema", JDict [("fields", JList fields)])] in
  JDict (df_info ++ data).

(** [convert_df_to_json_str] *)
Definition convert_df_to_json_str (df : Frame) (extras : option (gmap string string))
  : string :=
  json_dumps (convert_df_to_json df extras).

(** [convert_df_to_yml] *)
Definition convert_df_to_yml (df : Frame) (extras : option (gmap string string)) : string :=
  let json_df := convert_df_to_json df extras in
  let yml_str := yaml_dump json_df in
  "<table>" +:+ newline +:+ yml_str +:+ newline +:+ "</table>" +:+ newline.

(** [DataframeSerializer.serialize] *)
Definition serialize
    (df : Frame) (extras : option (gmap string string)) (type_ : DataframeSerializerType)
  : Raised + string :=
  match type_ with
  | YML => inr (convert_df_to_yml df extras)
  | JSON => inr (convert_df_to_json_str df extras)
  | SQL => inr (convert_df_sql_connector_to_str df extras)
  | CSV => convert_df_to_csv df extras
  end.

End Serialize.

End Serializer.

(* ================================================================== *)
(** * [semantic_layer_schema.py]: destinations *)
(* ================================================================== *)

Module Destinations.
Import Schema.

Section Validators.

(** [pandasai.constants] *)
Variable LOCAL_SOURCE_TYPES : list string.

(** [Destination.is_format_supported] *)
Definition is_format_supported (format : string) : result string :=
  if negb (py_in format LOCAL_SOURCE_TYPES)
  then raise_ ValueError ("Unsupported destination format: " +:+ format)
  else inr format.

End Validators.

(** The source that reads back what a destination of the given format and
    path has written. *)
Definition source_of_destination (format path : string) : Source :=
  {| source_type := format; source_path := Some path;
     source_connection := None; source_table := None |}.

End Destinations.

(* ================================================================== *)
(** * Further concrete sessions, schemas and requests *)
(* ================================================================== *)

Module Examples.
Import Schema Agent Scenarios.

Definition column (n : string) (expression : option string) : Column :=
  {| column_name := n; column_type := None; column_description := None;
     column_expression := expression; column_alias := None |}.

(** Sales by region: one grouping column, one aggregate. *)
Definition sales_by_region : SemanticLayerSchema :=
  {| name := "sales_by_region"; source := Some csv_source; view := None;
     description := None;
     columns := Some [column "region" None; column "total" (Some "sum(amount)")];
     relations := None; order_by := None; limit := None;
     group_by := Some ["region"] |}.

(** The same with an aggregate on the grouping column. *)
Definition aggregated_group : SemanticLayerSchema :=
  {| name := "sales_by_region"; source := Some csv_source; view := None;
     description := None;
     columns := Some [column "region" (Some "max(region)")];
     relations := None; order_by := None; limit := None;
     group_by := Some ["region"] |}.

(** A view joining two tables. *)
Definition orders_view : SemanticLayerSchema :=
  {| name := "orders_view"; source := None; view := Some true;
     description := None;
     columns := Some [column "orders.id" None; column "customers.name" None];
     relations := Some [{| relation_name := None; relation_description := None;
                           from_ := "orders.customer_id"; to := "customers.id" |}];
     order_by := None; limit := None; group_by := None |}.

(** A remote source that names a table but no connection. *)
Definition remote_without_connection : Source :=
  {| source_type := "postgres"; source_path := None;
     source_connection := None; source_table := Some "orders" |}.

Definition VALID_TRANSFORMATION_TYPES : list string := ["rename"; "fill_na"; "to_lowercase"].

(** A rename whose parameters name the column but not its new name. *)
Definition rename_without_new_name : Transformations.raw_transformation :=
  {| Transformations.raw_type := Some "rename";
     Transformations.raw_params_of :=
       Transformations.ParamsDict {[ "column" := Transformations.VStr "amount" ]} |}.

(** A dataset with neither a schema source nor a loader. *)
Definition sourceless : DataFrame :=
  {| schema_name := "scratch"; schema_source := None;
     loader_source := None; query_builder := None |}.

(** A session without language model. *)
Definition offline : World :=
  {| _state := initialize (inr [sales]) None
                 {| llm := None; max_retries := 3; direct_sql := false |};
     _sandbox := false;
     exc_info := None;
     duckdb := ∅;
     next_prompt_id := 0;
     trace := [] |}.

(** The model is down and every run of a program raises. *)
Definition all_down : Collaborators :=
  scripted (fun _ => generation_failed PandasAIApiCallError "Request failed: timeout")
           (fun _ => raise_ CodeExecutionError "ZeroDivisionError: division by zero").

(** The rewriter refuses every query. *)
Definition refusing_rewriter : Collaborators :=
  {| code_generator_generate_code := code_generator_generate_code llm_down;
     execute_and_return_result := execute_and_return_result llm_down;
     sandbox_execute := sandbox_execute llm_down;
     response_parser_parse := response_parser_parse llm_down;
     format_traceback := format_traceback llm_down;
     replace_table_and_column_names := fun _ _ =>
       raise_ MaliciousQueryError "Query uses unauthorized table: payroll.";
     df_execute_sql_query := df_execute_sql_query llm_down;
     duckdb_sql := duckdb_sql llm_down |}.

Definition refused : exn :=
  mk_exn MaliciousQueryError "Query uses unauthorized table: payroll.".

(** An agent with a vector store that has received nothing yet. *)
Definition trainable : Training.TrainingAgent :=
  {| Training.agent := session [sales] 0; Training.vectorstore := Some [] |}.

(** A server that answers every request with status 500 and an empty
    object. *)
Definition failing_server
    (method url : string) (headers : list (string * string)) (args : unit)
  : Request.outcome Request.Response :=
  inr {| Request.status_code := 500; Request.json := inr ∅ |}.

Definition api_session : Request.Session :=
  {| Request._api_key := "key"; Request._endpoint_url := "https://api.domer.ai";
     Request._version_path := "/api" |}.

Definition frame : Serializer.Frame :=
  {| Serializer.name := Some "sales"; Serializer.description := Some "Sales of the year";
     Serializer.type := "pd.DataFrame";
     Serializer.rows_count := 2; Serializer.columns_count := 1;
     Serializer.dtypes := [("amount", "int64")];
     Serializer.head_csv := "amount"; Serializer.get_head_csv := ",amount" |}.

(** Renderers that only tell the kind of value they were given. *)
Definition kind_of (j : Serializer.Json) : string :=
  match j with
  | Serializer.JDict _ => "dict"
  | Serializer.JList _ => "list"
  | _ => "scalar"
  end.

End Examples.

(* ================================================================== *)
(** * Properties of the schema layer *)
(* ================================================================== *)

Module SchemaProofs.
Import Schema.

Lemma SQLConnectionConfig_eq_spec (a b : SQLConnectionConfig) :
  SQLConnectionConfig_eq a b = true <-> a = b.
Proof.
  unfold SQLConnectionConfig_eq. destruct a, b; simpl.
  rewrite !andb_true_iff, !String.eqb_eq, Z.eqb_eq.
  split.
  - intros [[[[-> ->] ->] ->] ->]. reflexivity.
  - intros [= -> -> -> -> ->]. auto.
Qed.

Lemma connection_eq_spec (c1 c2 : option SQLConnectionConfig) :
  connection_eq c1 c2 = inr true <-> c1 = c2.
Proof.
  destruct c1 as [a |], c2 as [b |]; simpl; try (split; [discriminate | discriminate]).
  - split.
    + intros [= H]. apply SQLConnectionConfig_eq_spec in H. congruence.
    + intros [= ->]. f_equal. now apply SQLConnectionConfig_eq_spec.
  - split; reflexivity.
Qed.

Section Sources.

Variables LOCAL_SOURCE_TYPES REMOTE_SOURCE_TYPES : list string.

(** Two sources are compatible exactly when both are local, or both are
    remote and carry equal connections. *)
Lemma is_compatible_source_spec (s1 s2 : Source) :
  is_compatible_source LOCAL_SOURCE_TYPES REMOTE_SOURCE_TYPES s1 s2 = inr true
  <-> (py_in (source_type s1) LOCAL_SOURCE_TYPES = true
       /\ py_in (source_type s2) LOCAL_SOURCE_TYPES = true)
      \/ (py_in (source_type s1) REMOTE_SOURCE_TYPES = true
          /\ py_in (source_type s2) REMOTE_SOURCE_TYPES = true
          /\ source_connection s1 = source_connection s2).
Proof.
  unfold is_compatible_source.
  destruct (py_in (source_type s1) LOCAL_SOURCE_TYPES
            && py_in (source_type s2) LOCAL_SOURCE_TYPES) eqn:Hlocal.
  - apply andb_true_iff in Hlocal. tauto.
  - destruct (py_in (source_type s1) REMOTE_SOURCE_TYPES
              && py_in (source_type s2) REMOTE_SOURCE_TYPES) eqn:Hremote.
    + apply andb_true_iff in Hremote. rewrite connection_eq_spec.
      apply andb_false_iff in Hlocal. split; [tauto |].
      intros [[H1 H2] | (_ & _ & H)]; [| exact H].
      destruct Hlocal; congruence.
    + apply andb_false_iff in Hlocal. apply andb_false_iff in Hremote.
      split; [discriminate |].
      intros [[H1 H2] | (H1 & H2 & _)]; [destruct Hlocal | destruct Hremote]; congruence.
Qed.

End Sources.

(** ** [source] and [view] *)

Lemma columns_relations_exclusive (s : SemanticLayerSchema) :
  _validate_columns_relations s = inr tt ->
  truthy_model (source s) = negb (truthy_bool (view s)).
Proof.
  unfold _validate_columns_relations.
  destruct (negb (length _ =? size _)%nat); [discriminate |].
  destruct (truthy_model (source s)), (truthy_bool (view s)); simpl;
    try discriminate; reflexivity.
Qed.

Lemma columns_relations_rejects (s : SemanticLayerSchema) :
  truthy_model (source s) = truthy_bool (view s) ->
  exists msg, _validate_columns_relations s = inl (mk_exn ValueError msg).
Proof.
  intros Hsame. unfold _validate_columns_relations.
  destruct (negb (length _ =? size _)%nat); [eexists; reflexivity |].
  rewrite Hsame.
  destruct (truthy_bool (view s)); simpl; eexists; reflexivity.
Qed.

Lemma validate_schema_raises_ValueError vf (s : SemanticLayerSchema) e :
  _validate_columns_relations s = inl e ->
  exists e', validate_schema vf s = inl e' /\ exn_type e' = ValueError.
Proof.
  intros Hrel. unfold validate_schema, and_then.
  destruct (_validate_name vf s) as [e1 |] eqn:Hname.
  - exists e1. split; [reflexivity |]. revert Hname. unfold _validate_name.
    destruct (_ || _); [intros [= <-]; reflexivity | discriminate].
  - destruct (_validate_group_by_columns s) as [e2 |] eqn:Hgroup.
    + exists e2. split; [reflexivity |]. revert Hgroup. unfold _validate_group_by_columns.
      destruct (_ || _); [discriminate |].
      generalize (list_to_set (or_empty (group_by s)) : gset string).
      induction (or_empty (columns s)) as [| col cols IH]; intros g; simpl; [discriminate |].
      destruct (_ && _); [intros [= <-]; reflexivity |].
      destruct (_ && _); [intros [= <-]; reflexivity | apply IH].
    + rewrite Hrel. exists e. split; [reflexivity |]. revert Hrel.
      unfold _validate_columns_relations.
      repeat match goal with
             | |- context [if ?c then _ else _] => destruct c
             end; try discriminate; intros [= <-]; reflexivity.
Qed.

(** C10, as amended (src/pandasai/data_loader/semantic_layer_schema.py,
    SemanticLayerSchema._validate_columns_relations).
    Validation of a schema succeeds only if exactly one of these holds:
    [source] is set, or [view] is true.  A schema with a source and
    [view = True] is rejected with a validation error, and so is a schema
    with no source whose [view] is [None] or [False]. *)
Theorem validate_schema_source_xor_view
    (validate_underscore_name_format : string -> bool) (s : SemanticLayerSchema) :
  (forall s', validate_schema validate_underscore_name_format s = inr s' ->
              (source s <> None /\ view s <> Some true)
              \/ (source s = None /\ view s = Some true))
  /\ (source s <> None -> view s = Some true ->
      exists e, validate_schema validate_underscore_name_format s = inl e
                /\ exn_type e = ValueError)
  /\ (source s = None -> view s <> Some true ->
      exists e, validate_schema validate_underscore_name_format s = inl e
                /\ exn_type e = ValueError).
Proof.
  split; [| split].
  - intros s'. unfold validate_schema, and_then.
    destruct (_validate_name _ s); [discriminate |].
    destruct (_validate_group_by_columns s); [discriminate |].
    destruct (_validate_columns_relations s) as [e | []] eqn:Hrel; [discriminate |].
    intros _. apply columns_relations_exclusive in Hrel.
    destruct (source s), (view s) as [[|] |]; simpl in Hrel; try discriminate;
      [left | left | right]; split; congruence.
  - intros Hsource Hview.
    destruct (columns_relations_rejects s) as (msg & Hrel).
    { rewrite Hview. destruct (source s); [reflexivity | congruence]. }
    eapply validate_schema_raises_ValueError. exact Hrel.
  - intros Hsource Hview.
    destruct (columns_relations_rejects s) as (msg & Hrel).
    { rewrite Hsource. destruct (view s) as [[|] |]; [congruence | reflexivity | reflexivity]. }
    eapply validate_schema_raises_ValueError. exact Hrel.
Qed.

End SchemaProofs.

(* ================================================================== *)
(** * Properties of table-name rewriting *)
(* ================================================================== *)

Module CodeCleaningProofs.
Import Schema CodeCleaning.




Lemma py_in_In x L : py_in x L = true <-> In x L.
Proof.
  unfold py_in. rewrite existsb_exists. split.
  - intros (y & Hy & Heq). apply String.eqb_eq in Heq. now subst.
  - intros Hin. exists x. split; [exact Hin | apply String.eqb_refl].
Qed.

(** ** Tokens *)





(** ** The parse loses nothing *)








(** ** Rewriting *)


End CodeCleaningProofs.

(* ================================================================== *)
(** * Properties of the agent *)
(* ================================================================== *)

Module AgentProofs.
Import Schema Agent.

(** ** Counting events *)

Lemma count_events_app p (t1 t2 : list Event) :
  count_events p (t1 ++ t2) = (count_events p t1 + count_events p t2)%nat.
Proof.
  unfold count_events. rewrite List.filter_app, length_app. reflexivity.
Qed.

Lemma count_events_cons p ev (t : list Event) :
  count_events p (ev :: t) = (cost p ev + count_events p t)%nat.
Proof.
  unfold count_events, cost. simpl. destruct (p ev); reflexivity.
Qed.

Lemma count_events_nil p : count_events p [] = 0%nat.
Proof. reflexivity. Qed.

(** ** Rules for [effect_at] *)

Section Rules.

Context {A B : Type}.
Variable p : Event -> bool.

Lemma effect_at_weaken (n n' : nat) (Q Q' : A -> Prop) (m : M A) w :
  effect_at p n Q m w ->
  (n <= n')%nat ->
  (forall a, Q a -> Q' a) ->
  effect_at p n' Q' m w.
Proof.
  intros (evs & Ht & Hc & Hr) Hn HQ. exists evs. repeat split; [exact Ht | lia |].
  destruct (fst (m w)); auto.
Qed.

Lemma effect_at_ret (a : A) (Q : A -> Prop) w :
  Q a -> effect_at p 0 Q (ret a) w.
Proof.
  intros HQ. exists []. simpl. repeat split; auto.
Qed.

Lemma effect_at_raise (e : exn) (Q : A -> Prop) w :
  effect_at p 0 Q (raise e) w.
Proof.
  exists []. simpl. repeat split; auto.
Qed.

Lemma effect_at_lift (r : result A) w :
  effect_at p 0 (fun a => r = inr a) (lift r) w.
Proof.
  exists []. destruct r; simpl; repeat split; auto.
Qed.

Lemma effect_at_bind (n k : nat) (Q : A -> Prop) (R : B -> Prop)
      (m : M A) (f : A -> M B) w :
  effect_at p n Q m w ->
  (forall a w1, Q a -> effect_at p k R (f a) w1) ->
  effect_at p (n + k) R (bind m f) w.
Proof.
  intros (evs & Ht & Hc & Hr) Hf. unfold effect_at, bind.
  destruct (m w) as [[a | e |] w1]; simpl in *.
  - destruct (Hf a w1 Hr) as (evs' & Ht' & Hc' & Hr').
    exists (evs' ++ evs). rewrite Ht', Ht, app_assoc, count_events_app.
    repeat split; [lia | exact Hr'].
  - exists evs. repeat split; [exact Ht | lia].
  - contradiction.
Qed.

Lemma effect_at_try_except (n k : nat) (Q : A -> Prop)
      (body : M A) (catches : exn -> bool) (handler : exn -> M A) w :
  effect_at p n Q body w ->
  (forall e w1, catches e = true -> effect_at p k Q (handler e) w1) ->
  effect_at p (n + k) Q (try_except body catches handler) w.
Proof.
  intros (evs & Ht & Hc & Hr) Hh. unfold effect_at, try_except.
  destruct (body w) as [[a | e |] w1]; simpl in *.
  - exists evs. repeat split; [exact Ht | lia | exact Hr].
  - destruct (catches e) eqn:Hcatch.
    + destruct (Hh e (set_exc_info (Some e) w1) Hcatch) as (evs' & Ht' & Hc' & Hr').
      destruct (handler e (set_exc_info (Some e) w1)) as [r w2]; simpl in *.
      exists (evs' ++ evs). rewrite Ht', Ht, app_assoc, count_events_app.
      repeat split; [lia | exact Hr'].
    + exists evs. simpl. repeat split; [exact Ht | lia].
  - contradiction.
Qed.

End Rules.

Lemma effect_at_get_state p w :
  effect_at p 0 (fun s => True) get_state w.
Proof. exists []. simpl. auto. Qed.

Lemma effect_at_modify_state p f w :
  effect_at p 0 (fun _ => True) (modify_state f) w.
Proof. exists []. simpl. auto. Qed.

Lemma effect_at_tell p ev w :
  effect_at p (cost p ev) (fun _ => True) (tell ev) w.
Proof.
  exists [ev]. simpl. rewrite count_events_cons, count_events_nil.
  repeat split; auto. lia.
Qed.

Lemma effect_at_reraise {A} p (Q : A -> Prop) w :
  effect_at p 0 Q reraise w.
Proof.
  exists []. unfold reraise. destruct (exc_info w); simpl; auto.
Qed.


(** ** Accounting for the methods

    [p] selects the events being counted; a call of the code generator costs
    at most [cg], a run of the executor at most [ce], everything else the
    methods below emit costs nothing. *)

Section Accounting.

Variable env : Collaborators.
Variable p : Event -> bool.
Variables cg ce : nat.
Hypothesis p_log : forall msg, p (Log msg) = false.
Hypothesis p_parse : forall r c, p (ParseResult r c) = false.
Hypothesis p_generate : forall prompt, (cost p (GenerateCode prompt) <= cg)%nat.
Hypothesis p_execute : forall b c, (cost p (ExecuteCode b c) <= ce)%nat.

Ltac weaken := eapply effect_at_weaken with (Q := fun _ => True).

Lemma effect_log msg : effect p 0 (fun _ => True) (log msg).
Proof.
  intros w. weaken; [apply effect_at_tell | | auto].
  unfold cost. now rewrite p_log.
Qed.

Lemma effect_format_exc : effect p 0 (fun _ => True) (format_exc env).
Proof.
  intros w. exists []. unfold format_exc. destruct (exc_info w); simpl; auto.
Qed.

Lemma effect_code_generator prompt :
  effect p cg (fun _ => True) (code_generator env prompt).
Proof.
  intros w. exists [GenerateCode prompt]. unfold code_generator.
  rewrite count_events_cons, count_events_nil.
  pose proof (p_generate prompt).
  destruct (gen_last_code _), (gen_result _); simpl; repeat split; auto; lia.
Qed.

Lemma effect_regenerate code error :
  effect p cg (fun _ => True) (_regenerate_code_after_error env code error).
Proof.
  intros w. unfold _regenerate_code_after_error.
  weaken; [eapply effect_at_bind; [apply effect_format_exc |] | | auto].
  - intros error_trace w1 _.
    eapply effect_at_bind; [apply effect_log |]. intros _ w2 _.
    eapply effect_at_bind; [apply effect_at_get_state |]. intros s w3 _.
    apply effect_code_generator.
  - lia.
Qed.

Lemma effect_generate_code query :
  effect p cg (fun _ => True) (generate_code env query).
Proof.
  intros w. unfold generate_code, memory_add.
  weaken; [eapply effect_at_bind; [apply effect_at_modify_state |] | | auto].
  - intros _ w1 _.
    eapply effect_at_bind; [apply effect_log |]. intros _ w2 _.
    eapply effect_at_bind; [apply effect_at_get_state |]. intros s w3 _.
    eapply effect_at_bind; [apply effect_code_generator |]. intros code w4 _.
    eapply effect_at_bind; [apply effect_at_modify_state |]. intros _ w5 _.
    apply effect_at_ret. exact I.
  - lia.
Qed.

Lemma effect_execute_code code :
  effect p ce (fun _ => True) (execute_code env code).
Proof.
  intros w. unfold execute_code.
  eapply effect_at_weaken with (Q := fun _ => True);
    [eapply effect_at_bind with (k := ce); [apply effect_log |] | | auto].
  - intros _ w1 _.
    pose proof (p_execute true code). pose proof (p_execute false code).
    unfold effect_at. cbv beta.
    destruct (_sandbox w1) eqn:Hs.
    + exists [ExecuteCode true code].
      rewrite count_events_cons, count_events_nil.
      destruct (sandbox_execute _ _ _); simpl; repeat split; auto; lia.
    + exists [ExecuteCode false code].
      rewrite count_events_cons, count_events_nil.
      destruct (execute_and_return_result _ _ _); simpl; repeat split; auto; lia.
  - lia.
Qed.

Lemma effect_parse result code :
  effect p 0 (fun _ => True) (parse env result code).
Proof.
  intros w. unfold parse.
  weaken; [eapply effect_at_bind; [apply effect_at_tell |] | | auto].
  - intros _ w1 _.
    eapply effect_at_bind; [apply effect_at_lift |]. intros v w2 _.
    apply effect_at_ret. exact I.
  - unfold cost. rewrite p_parse. lia.
Qed.

Lemma effect_assign_prompt_id : effect p 0 (fun _ => True) assign_prompt_id.
Proof.
  intros w. eexists [_]. unfold assign_prompt_id. simpl.
  rewrite count_events_cons, count_events_nil. unfold cost. rewrite p_log.
  repeat split; auto.
Qed.

(** What one pass of the generation loop can hand back. *)
Lemma effect_generate_retry_step N attempts exception :
  effect p cg
    (fun step => match step with
                 | Return _ => True
                 | Continue (a, _) => a = S attempts /\ (a <= N)%nat
                 end)
    (generate_retry_step env N attempts exception).
Proof.
  intros w. unfold generate_retry_step.
  set (Q := fun step : LoopStep Code (nat * exn) =>
              match step with
              | Return _ => True
              | Continue (a, _) => a = S attempts /\ (a <= N)%nat
              end).
  eapply effect_at_weaken with (Q := Q) (n := (cg + 0)%nat); [| lia | auto].
  apply effect_at_try_except.
  - eapply effect_at_weaken with (Q := Q) (n := (0 + (cg + 0))%nat); [| lia | auto].
    eapply effect_at_bind; [apply effect_at_get_state |]. intros s w1 _.
    eapply effect_at_bind; [apply effect_regenerate |]. intros code w2 _.
    apply effect_at_ret. exact I.
  - intros e w1 _. cbv zeta.
    destruct (Nat.ltb_spec N (S attempts)) as [Hlast | Hmore].
    + eapply effect_at_weaken with (Q := Q) (n := (0 + 0)%nat); [| lia | auto].
      eapply effect_at_bind; [apply effect_log |]. intros _ w2 _.
      apply effect_at_reraise.
    + eapply effect_at_weaken with (Q := Q) (n := (0 + 0)%nat); [| lia | auto].
      eapply effect_at_bind; [apply effect_log |]. intros _ w2 _.
      apply effect_at_ret. split; [reflexivity | lia].
Qed.

(** The loop of [generate_code_with_retries] calls the generator at most
    once per remaining value of [attempts], and has fuel to finish. *)
Lemma effect_generate_retry_loop fuel N attempts exception :
  (attempts <= N)%nat ->
  (S N <= fuel + attempts)%nat ->
  effect p ((S N - attempts) * cg) (fun _ => True)
    (generate_retry_loop env fuel N attempts exception).
Proof.
  revert attempts exception.
  induction fuel as [| fuel IH]; intros attempts exception Hle Hfuel w; [lia |].
  cbn [generate_retry_loop].
  destruct (Nat.leb_spec attempts N) as [_ | Hgt]; [| lia].
  eapply effect_at_weaken with (Q := fun _ => True);
    [eapply effect_at_bind with (k := ((S N - S attempts) * cg)%nat);
     [apply effect_generate_retry_step |] | | auto].
  - intros [code | [a e]] w1 HQ.
    + eapply effect_at_weaken; [apply effect_at_ret; exact I | apply Nat.le_0_l | auto].
    + destruct HQ as [-> Ha]. apply IH; lia.
  - replace (S N - attempts)%nat with (S (S N - S attempts)) by lia. simpl. lia.
Qed.

(** [generate_code_with_retries]: the first request plus the loop. *)
Lemma effect_generate_code_with_retries query w :
  effect_at p ((S (S (max_retries (config (_state w)))) * cg)) (fun _ => True)
    (generate_code_with_retries env query) w.
Proof.
  unfold generate_code_with_retries.
  change (bind get_state ?k w) with (k (_state w) w). cbv beta zeta.
  set (N := max_retries (config (_state w))).
  eapply effect_at_weaken with (Q := fun _ => True);
    [eapply effect_at_try_except with (n := cg) (k := ((S N - 0) * cg)%nat) | | auto].
  - apply effect_generate_code.
  - intros e w1 _. apply effect_generate_retry_loop; lia.
  - simpl. lia.
Qed.

Lemma effect_execute_and_parse code :
  effect p ce (fun _ => True) (execute_and_parse env code).
Proof.
  intros w. unfold execute_and_parse.
  weaken; [eapply effect_at_bind; [apply effect_execute_code |] | | auto].
  - intros result w1 _. apply effect_parse.
  - lia.
Qed.

(** One pass of the execution loop: the last admissible attempt re-raises
    without regenerating, an earlier one may regenerate once. *)
Lemma effect_execute_retry_step N attempts code :
  effect p (ce + (if (N <? S attempts)%nat then 0 else cg))
    (fun step => match step with
                 | Return _ => True
                 | Continue (a, _) => a = S attempts /\ (a <= N)%nat
                 end)
    (execute_retry_step env N attempts code).
Proof.
  intros w. unfold execute_retry_step.
  set (Q := fun step : LoopStep Response (nat * Code) =>
              match step with
              | Return _ => True
              | Continue (a, _) => a = S attempts /\ (a <= N)%nat
              end).
  apply effect_at_try_except.
  - eapply effect_at_weaken with (Q := Q) (n := (ce + 0)%nat); [| lia | auto].
    eapply effect_at_bind; [apply effect_execute_and_parse |]. intros response w1 _.
    apply effect_at_ret. exact I.
  - intros e w1 _. cbv zeta.
    destruct (Nat.ltb_spec N (S attempts)) as [Hlast | Hmore].
    + eapply effect_at_weaken with (Q := Q) (n := (0 + 0)%nat); [| lia | auto].
      eapply effect_at_bind; [apply effect_log |]. intros _ w2 _.
      apply effect_at_reraise.
    + eapply effect_at_weaken with (Q := Q) (n := (0 + (cg + 0))%nat); [| lia | auto].
      eapply effect_at_bind; [apply effect_log |]. intros _ w2 _.
      eapply effect_at_bind; [apply effect_regenerate |]. intros c w3 _.
      apply effect_at_ret. split; [reflexivity | lia].
Qed.

(** The loop of [execute_with_retries] runs the program at most once per
    remaining value of [attempts], regenerates at most once per retry, and
    has fuel to finish. *)
Lemma effect_execute_retry_loop fuel N attempts code :
  (attempts <= N)%nat ->
  (S N <= fuel + attempts)%nat ->
  effect p ((S N - attempts) * ce + (N - attempts) * cg) (fun _ => True)
    (execute_retry_loop env fuel N attempts code).
Proof.
  revert attempts code.
  induction fuel as [| fuel IH]; intros attempts code Hle Hfuel w; [lia |].
  cbn [execute_retry_loop].
  destruct (Nat.leb_spec attempts N) as [_ | Hgt]; [| lia].
  eapply effect_at_weaken with (Q := fun _ => True);
    [eapply effect_at_bind
       with (k := ((S N - S attempts) * ce + (N - S attempts) * cg)%nat);
     [apply effect_execute_retry_step |] | | auto].
  - intros [response | [a c]] w1 HQ.
    + eapply effect_at_weaken; [apply effect_at_ret; exact I | apply Nat.le_0_l | auto].
    + destruct HQ as [-> Ha]. apply IH; lia.
  - destruct (Nat.ltb_spec N (S attempts)) as [Hlast | Hmore].
    + replace (S N - attempts)%nat with 1%nat by lia.
      replace (S N - S attempts)%nat with 0%nat by lia.
      replace (N - S attempts)%nat with 0%nat by lia. lia.
    + replace (S N - attempts)%nat with (S (S N - S attempts)) by lia.
      replace (N - attempts)%nat with (S (N - S attempts)) by lia. simpl. lia.
Qed.

Lemma effect_execute_with_retries code w :
  effect_at p (S (max_retries (config (_state w))) * ce
               + max_retries (config (_state w)) * cg) (fun _ => True)
    (execute_with_retries env code) w.
Proof.
  unfold execute_with_retries.
  change (bind get_state ?k w) with (k (_state w) w). cbv beta zeta.
  eapply effect_at_weaken; [apply effect_execute_retry_loop; lia | | auto].
  rewrite !Nat.sub_0_r. lia.
Qed.

End Accounting.

(** ** The SQL router *)

Lemma last_delegate_Some l d :
  last_delegate l = Some d -> In d l /\ query_builder d <> None.
Proof.
  induction l as [| df l IH]; simpl; [discriminate |].
  destruct (last_delegate l) as [d' |].
  - intros [= ->]. destruct (IH eq_refl). auto.
  - destruct (query_builder df) eqn:Hqb; [| discriminate].
    intros [= ->]. split; [auto | congruence].
Qed.

Lemma last_delegate_None l :
  last_delegate l = None -> forall df, In df l -> query_builder df = None.
Proof.
  induction l as [| df0 l IH]; simpl; [contradiction |].
  destruct (last_delegate l) as [d' |]; [discriminate |].
  destruct (query_builder df0) eqn:Hqb; [discriminate |].
  intros _ df [<- | Hin]; auto.
Qed.

Lemma registered_by_cons df l (d : gmap string DataFrame) :
  registered_by (df :: l) d = registered_by l (register_local d df).
Proof. reflexivity. Qed.

Lemma registered_by_other l :
  forall (d : gmap string DataFrame) k,
    ~ In k (map schema_name l) -> registered_by l d !! k = d !! k.
Proof.
  unfold registered_by.
  induction l as [| df l IH]; intros d k Hk; simpl in *; [reflexivity |].
  rewrite IH by tauto. unfold register_local.
  destruct (query_builder df); [reflexivity |].
  apply lookup_insert_ne. tauto.
Qed.

Lemma registered_by_is_Some l :
  forall (d : gmap string DataFrame) k,
    is_Some (d !! k) -> is_Some (registered_by l d !! k).
Proof.
  unfold registered_by.
  induction l as [| df l IH]; intros d k Hk; simpl; [exact Hk |].
  apply IH. unfold register_local. destruct (query_builder df); [exact Hk |].
  destruct (decide (schema_name df = k)) as [-> | Hne].
  - rewrite lookup_insert_eq. eauto.
  - rewrite lookup_insert_ne by exact Hne. exact Hk.
Qed.

Lemma registered_by_local l :
  forall (d : gmap string DataFrame) df,
    In df l -> query_builder df = None ->
    is_Some (registered_by l d !! schema_name df).
Proof.
  induction l as [| df0 l IH]; intros d df Hin Hqb; simpl in *; [contradiction |].
  destruct Hin as [-> | Hin].
  - apply registered_by_is_Some. unfold register_local. rewrite Hqb.
    rewrite lookup_insert_eq. eauto.
  - apply (IH _ df Hin Hqb).
Qed.

Lemma registered_by_unique l :
  forall (d : gmap string DataFrame) df,
    NoDup (map schema_name l) -> In df l -> query_builder df = None ->
    registered_by l d !! schema_name df = Some df.
Proof.
  induction l as [| df0 l IH]; intros d df Hnd Hin Hqb; simpl in *; [contradiction |].
  apply NoDup_cons in Hnd as [Hfresh Hnd].
  destruct Hin as [-> | Hin].
  - change (registered_by l (register_local d df) !! schema_name df = Some df).
    rewrite registered_by_other.
    + unfold register_local. rewrite Hqb. apply lookup_insert_eq.
    + intros Hin. apply Hfresh. apply list_elem_of_In. exact Hin.
  - apply (IH _ df Hnd Hin Hqb).
Qed.

Section Router.

Variable env : Collaborators.

(** The loop over the datasets never fails; it registers exactly the
    datasets without a query builder and remembers the last one with a
    query builder. *)
Lemma register_loop_spec l :
  forall m ex w, exists regs w',
    register_loop l m ex w
    = (Ok (fold_left add_table_expression l m,
           match last_delegate l with Some d => Some d | None => ex end), w')
    /\ trace w' = regs ++ trace w
    /\ Forall (fun ev => exists table, ev = DuckDbRegister table) regs
    /\ (forall df, In df l -> query_builder df = None ->
        In (DuckDbRegister (schema_name df)) regs)
    /\ duckdb w' = registered_by l (duckdb w)
    /\ _state w' = _state w.
Proof.
  induction l as [| df l IH]; intros m ex w.
  - exists [], w. simpl. repeat split; auto.
  - cbn [register_loop last_delegate fold_left].
    unfold add_table_expression at 2.
    destruct (query_builder df) as [table_expression |] eqn:Hqb.
    + destruct (IH (<[schema_name df := table_expression]> m) (Some df) w)
        as (regs & w' & Hrun & Ht & Hregs & Hin & Hdb & Hst).
      exists regs, w'. rewrite Hrun.
      repeat split; auto.
      * destruct (last_delegate l); reflexivity.
      * intros df' [<- | Hin'] Hnone; [congruence | auto].
      * rewrite Hdb, registered_by_cons. f_equal.
        unfold register_local. now rewrite Hqb.
    + unfold bind, db_register.
      set (w1 := emit (DuckDbRegister (schema_name df))
                   (set_duckdb (<[schema_name df := df]> (duckdb w)) w)).
      destruct (IH m ex w1) as (regs & w' & Hrun & Ht & Hregs & Hin & Hdb & Hst).
      exists (regs ++ [DuckDbRegister (schema_name df)]), w'. rewrite Hrun.
      repeat split; auto.
      * destruct (last_delegate l); reflexivity.
      * rewrite Ht. simpl. now rewrite <- app_assoc.
      * apply Forall_app. split; [exact Hregs |]. repeat constructor. eauto.
      * intros df' [<- | Hin'] Hnone; apply in_or_app; [right; simpl; auto | left; auto].
      * rewrite Hdb, registered_by_cons. f_equal.
        unfold register_local. now rewrite Hqb.
Qed.

Lemma registrations_run_nothing regs :
  Forall (fun ev => exists table, ev = DuckDbRegister table) regs ->
  List.filter is_sql_run regs = [] /\ count_events is_check regs = 0%nat.
Proof.
  induction 1 as [| ev regs [table ->] _ [IH1 IH2]]; [split; reflexivity |].
  unfold count_events in *. simpl. auto.
Qed.

End Router.

(** What [_execute_sql_query] does once the query has been rewritten:
    the registrations, then one run on the engine chosen by the last
    dataset with a query builder, if any. *)
Lemma execute_sql_query_run (env : Collaborators) query w final_query :
  dfs (_state w) <> [] ->
  replace_table_and_column_names env query (table_mapping_of (dfs (_state w)))
  = inr final_query ->
  exists regs,
    Forall (fun ev => exists table, ev = DuckDbRegister table) regs
    /\ (forall df, In df (dfs (_state w)) -> query_builder df = None ->
        In (DuckDbRegister (schema_name df)) regs)
    /\ match last_delegate (dfs (_state w)) with
       | Some d =>
           trace (snd (_execute_sql_query env query w))
           = DelegateSql (schema_name d) final_query :: regs ++ trace w
           /\ fst (_execute_sql_query env query w)
              = res_of (df_execute_sql_query env d final_query)
       | None =>
           trace (snd (_execute_sql_query env query w))
           = DuckDbSql final_query :: regs ++ trace w
           /\ duckdb (snd (_execute_sql_query env query w))
              = registered_by (dfs (_state w)) (duckdb w)
           /\ fst (_execute_sql_query env query w)
              = res_of (duckdb_sql env (registered_by (dfs (_state w)) (duckdb w))
                          final_query)
       end.
Proof.
  intros Hne Hrewrite. unfold _execute_sql_query.
  change (bind get_state ?k w) with (k (_state w) w). cbv beta.
  destruct (dfs (_state w)) as [| df0 l] eqn:Hdfs; [congruence |].
  destruct (register_loop_spec (df0 :: l) ∅ None w)
    as (regs & w1 & Hrun & Ht & Hregs & Hin & Hdb & Hst).
  exists regs. split; [exact Hregs |]. split; [exact Hin |].
  unfold table_mapping_of in Hrewrite.
  assert (E : (r <- register_loop (df0 :: l) ∅ None;;
               (let (table_mapping, df_executor) := r in
                final_query <- lift (replace_table_and_column_names env query table_mapping);;
                match df_executor with
                | Some df => df_executor_call env df final_query
                | None => db_sql env final_query
                end)) w
              = match last_delegate (df0 :: l) with
                | Some df => df_executor_call env df final_query w1
                | None => db_sql env final_query w1
                end).
  { unfold bind at 1. rewrite Hrun. unfold bind, lift. rewrite Hrewrite.
    destruct (last_delegate (df0 :: l)); reflexivity. }
  rewrite E. clear E.
  destruct (last_delegate (df0 :: l)) as [d |].
  - unfold df_executor_call.
    destruct (df_execute_sql_query env d final_query); simpl; rewrite Ht; auto.
  - unfold db_sql. rewrite Hdb.
    destruct (duckdb_sql env _ final_query); simpl; rewrite Ht, ?Hdb; auto.
Qed.

(** C3 (src/pandasai/agent/base.py, Agent._execute_sql_query).
    A query whose rewriting succeeds in a session with at least one dataset
    is run by exactly one physical executor.  If some dataset has a query
    builder, the run is the [execute_sql_query] of such a dataset, on the
    rewritten query, nothing runs on the in-process engine and the
    delegate's result is returned as it is.  If no dataset has one, every
    dataset is registered in the in-process engine under its declared name
    and the rewritten query runs there. *)
Theorem execute_sql_query_single_executor
    (env : Collaborators) (query : string) (w : World) (final_query : string) :
  dfs (_state w) <> [] ->
  replace_table_and_column_names env query (table_mapping_of (dfs (_state w)))
  = inr final_query ->
  let datasets := dfs (_state w) in
  let out := _execute_sql_query env query w in
  exists new,
    trace (snd out) = new ++ trace w
    /\ count_events is_sql_run new = 1%nat
    /\ ((exists df, In df datasets /\ query_builder df <> None) ->
        exists d, In d datasets /\ query_builder d <> None
          /\ List.filter is_sql_run new = [DelegateSql (schema_name d) final_query]
          /\ fst out = res_of (df_execute_sql_query env d final_query))
    /\ ((forall df, In df datasets -> query_builder df = None) ->
        List.filter is_sql_run new = [DuckDbSql final_query]
        /\ fst out = res_of (duckdb_sql env (duckdb (snd out)) final_query)
        /\ (forall df, In df datasets ->
            In (DuckDbRegister (schema_name df)) new
            /\ is_Some (duckdb (snd out) !! schema_name df))
        /\ (NoDup (map schema_name datasets) ->
            forall df, In df datasets -> duckdb (snd out) !! schema_name df = Some df)).
Proof.
  intros Hne Hrewrite datasets out.
  destruct (execute_sql_query_run env query w final_query Hne Hrewrite)
    as (regs & Hregs & Hin & Hrun).
  destruct (registrations_run_nothing regs Hregs) as [Hnone _].
  fold datasets in Hin, Hrun. fold out in Hrun.
  destruct (last_delegate datasets) as [d |] eqn:Hlast.
  - destruct Hrun as [Ht Hres]. destruct (last_delegate_Some _ _ Hlast) as [Hd Hqb].
    exists (DelegateSql (schema_name d) final_query :: regs).
    assert (Hf : List.filter is_sql_run (DelegateSql (schema_name d) final_query :: regs)
                 = [DelegateSql (schema_name d) final_query])
      by (simpl; now rewrite Hnone).
    split; [exact Ht |]. split; [unfold count_events; now rewrite Hf |]. split.
    + intros _. exists d. auto.
    + intros Hall. specialize (Hall d Hd). contradiction.
  - destruct Hrun as (Ht & Hdb & Hres).
    exists (DuckDbSql final_query :: regs).
    assert (Hf : List.filter is_sql_run (DuckDbSql final_query :: regs)
                 = [DuckDbSql final_query])
      by (simpl; now rewrite Hnone).
    split; [exact Ht |]. split; [unfold count_events; now rewrite Hf |]. split.
    + intros (df & Hdf & Hqb). pose proof (last_delegate_None _ Hlast df Hdf). contradiction.
    + intros Hall. rewrite Hdb. repeat split; auto.
      * right. apply Hin; auto.
      * apply registered_by_local; auto.
      * intros Hnd df Hdf. apply registered_by_unique; auto.
Qed.

(** ** Correction requests *)

Lemma prompts_of_code_generator (env : Collaborators) prompt w :
  prompts_of (trace (snd (code_generator env prompt w))) = prompt :: prompts_of (trace w).
Proof.
  unfold code_generator.
  destruct (gen_last_code _), (gen_result _); reflexivity.
Qed.

(** C8 (src/pandasai/agent/base.py, Agent._regenerate_code_after_error).
    Regenerating after an error sends exactly one request to the code
    generator.  The request is the fix-output-type prompt if and only if the
    error is an [InvalidLLMOutputType], the fix-error-given-traceback prompt
    if and only if it is not, and in both cases it carries the code passed
    in and the text of [traceback.format_exc()]. *)
Theorem regenerate_classifies_error
    (env : Collaborators) (code : Code) (error : exn) (w : World) :
  let error_trace :=
    match exc_info w with
    | Some handled => format_traceback env handled
    | None => no_traceback
    end in
  exists prompt,
    _regenerate_code_after_error env code error w
    = code_generator env prompt (emit (Log ("Execution failed with error: " +:+ error_trace)) w)
    /\ prompts_of (trace (snd (_regenerate_code_after_error env code error w)))
       = prompt :: prompts_of (trace w)
    /\ attached prompt = Some (code, error_trace)
    /\ (is_fix_output_type prompt = true <-> exn_type error = InvalidLLMOutputType)
    /\ (is_fix_error prompt = true <-> exn_type error <> InvalidLLMOutputType).
Proof.
  intros error_trace.
  assert (E : forall prompt_if_type prompt_else,
             (error_trace' <- format_exc env;;
              log ("Execution failed with error: " +:+ error_trace');;
              s <- get_state;;
              code_generator env
                (if isinstance error InvalidLLMOutputType
                 then prompt_if_type s error_trace'
                 else prompt_else s error_trace')) w
             = code_generator env
                 (if isinstance error InvalidLLMOutputType
                  then prompt_if_type (_state w) error_trace
                  else prompt_else (_state w) error_trace)
                 (emit (Log ("Execution failed with error: " +:+ error_trace)) w)).
  { intros. unfold bind, format_exc, log, tell, get_state. subst error_trace.
    destruct (exc_info w); reflexivity. }
  unfold _regenerate_code_after_error.
  rewrite (E (fun s t => get_correct_output_type_error_prompt s code t)
             (fun s t => get_correct_error_prompt_for_sql s code t)).
  cbv beta. unfold isinstance.
  destruct (bool_decide_reflect (exn_type error = InvalidLLMOutputType)) as [Hty | Hty].
  - eexists. split; [reflexivity |]. split; [now rewrite prompts_of_code_generator |].
    simpl. repeat split; auto; try discriminate; congruence.
  - eexists. split; [reflexivity |]. split; [now rewrite prompts_of_code_generator |].
    simpl. repeat split; auto; try discriminate; congruence.
Qed.

(** C9 (src/pandasai/agent/base.py, Agent.last_code_executed).
    In every state of the agent the properties [last_code_executed] and
    [last_generated_code] return the same value, the state's last generated
    code.  In particular, when the code generator records a program and
    then rejects it, so that it is never run, [last_code_executed] reports
    that program. *)
Theorem last_code_executed_is_last_generated (env : Collaborators) (w : World) :
  last_code_executed w = last_generated_code w
  /\ last_code_executed w = last_code_generated (_state w)
  /\ (forall prompt raw e,
        code_generator_generate_code env (trace w) prompt
        = {| gen_result := inl e; gen_last_code := Some raw |} ->
        let w' := snd (code_generator env prompt w) in
        fst (code_generator env prompt w) = Raise e
        /\ count_execute (trace w') = count_execute (trace w)
        /\ last_code_executed w' = last_generated_code w'
        /\ last_code_executed w' = Some raw).
Proof.
  split; [reflexivity |]. split; [reflexivity |].
  intros prompt raw e Hout. unfold code_generator. rewrite Hout.
  simpl. repeat split; reflexivity.
Qed.

(** ** The retry budget *)

Lemma cost_le_1 p ev : (cost p ev <= 1)%nat.
Proof. unfold cost. destruct (p ev); lia. Qed.

(** [generate_code_with_retries] terminates and asks the code generator at
    most [max_retries + 2] times: the first request and [max_retries + 1]
    corrections. *)
Lemma generation_attempts_bound (env : Collaborators) query w :
  (count_generate (trace (snd (generate_code_with_retries env query w)))
   <= count_generate (trace w) + S (S (max_retries (config (_state w)))))%nat
  /\ fst (generate_code_with_retries env query w) <> OutOfFuel.
Proof.
  destruct (effect_generate_code_with_retries env is_generate 1
              (fun _ => eq_refl) (fun _ => cost_le_1 _ _) query w)
    as (evs & Ht & Hc & Hr).
  split.
  - unfold count_generate. rewrite Ht, count_events_app. lia.
  - intros Hfuel. now rewrite Hfuel in Hr.
Qed.

(** [execute_with_retries] terminates and runs a program at most
    [max_retries + 1] times. *)
Lemma execution_attempts_bound (env : Collaborators) code w :
  (count_execute (trace (snd (execute_with_retries env code w)))
   <= count_execute (trace w) + S (max_retries (config (_state w))))%nat
  /\ fst (execute_with_retries env code w) <> OutOfFuel.
Proof.
  destruct (effect_execute_with_retries env is_execute 0 1
              (fun _ => eq_refl) (fun _ _ => eq_refl)
              (fun _ => Nat.le_refl _) (fun _ _ => cost_le_1 _ _) code w)
    as (evs & Ht & Hc & Hr).
  split.
  - unfold count_execute. rewrite Ht, count_events_app. lia.
  - intros Hfuel. now rewrite Hfuel in Hr.
Qed.

(** With a model that never answers, one pass of the generation loop sends
    one request and either re-raises or asks for another pass. *)
Lemma llm_down_retry_step N attempts exception w :
  exists w',
    generate_retry_step Scenarios.llm_down N attempts exception w
    = (if (N <? S attempts)%nat
       then Raise Scenarios.timeout_error
       else Ok (Continue (S attempts, Scenarios.timeout_error)), w')
    /\ count_generate (trace w') = S (count_generate (trace w)).
Proof.
  unfold generate_retry_step.
  destruct w as [st sb [handled |] db np tr];
    cbv -[Nat.ltb String.append str_nat count_generate isinstance];
    destruct (isinstance exception InvalidLLMOutputType), (N <? S attempts)%nat;
    eexists; split; reflexivity.
Qed.

Lemma llm_down_retry_loop fuel N attempts exception w :
  (attempts <= N)%nat ->
  (S N <= fuel + attempts)%nat ->
  fst (generate_retry_loop Scenarios.llm_down fuel N attempts exception w)
  = Raise Scenarios.timeout_error
  /\ count_generate
       (trace (snd (generate_retry_loop Scenarios.llm_down fuel N attempts exception w)))
     = (count_generate (trace w) + (S N - attempts))%nat.
Proof.
  revert attempts exception w.
  induction fuel as [| fuel IH]; intros attempts exception w Hle Hfuel; [lia |].
  cbn [generate_retry_loop].
  destruct (Nat.leb_spec attempts N) as [_ | Hgt]; [| lia].
  destruct (llm_down_retry_step N attempts exception w) as (w' & Hstep & Hcount).
  unfold bind. rewrite Hstep.
  destruct (Nat.ltb_spec N (S attempts)) as [Hlast | Hmore].
  - cbv beta iota. cbn [fst snd]. split; [reflexivity |]. rewrite Hcount. lia.
  - cbv beta iota.
    destruct (IH (S attempts) Scenarios.timeout_error w') as [Hr Hc]; [lia | lia |].
    split; [exact Hr |]. rewrite Hc, Hcount. lia.
Qed.

(** C1 (src/pandasai/agent/base.py, Agent.generate_code_with_retries and
    Agent.execute_with_retries).
    For every budget [N], when the model fails on every call,
    [generate_code_with_retries] sends [N + 2] requests to the code
    generator before it re-raises the last error: the first request and
    [N + 1] corrective ones.  With [max_retries = 0] it does not stop at the
    first failure but sends a second request.  In the same sessions a
    program that always crashes is run [max_retries + 1] times by
    [execute_with_retries]: once for a budget of 0, three times for 2. *)
Theorem generate_code_with_retries_zero_budget :
  (forall N query,
      let out := generate_code_with_retries Scenarios.llm_down query
                   (Scenarios.session [Scenarios.sales] N) in
      fst out = Raise Scenarios.timeout_error
      /\ count_generate (trace (snd out)) = (N + 2)%nat)
  /\ (let w := Scenarios.session [Scenarios.sales] 0 in
      max_retries (config (_state w)) = 0%nat
      /\ count_generate
           (trace (snd (generate_code_with_retries Scenarios.llm_down "q" w))) = 2%nat
      /\ count_execute
           (trace (snd (execute_with_retries Scenarios.always_crashing
                          (Some "result = 1") w))) = 1%nat
      /\ count_execute
           (trace (snd (execute_with_retries Scenarios.always_crashing (Some "result = 1")
                          (Scenarios.session [Scenarios.sales] 2)))) = 3%nat).
Proof.
  split; [| vm_compute; repeat split; reflexivity].
  intros N query. cbv zeta. unfold generate_code_with_retries.
  change (bind get_state ?k ?w) with (k (_state w) w). cbv beta zeta.
  change (max_retries (config (_state (Scenarios.session [Scenarios.sales] N)))) with N.
  unfold try_except.
  assert (Hgen : exists w1,
             generate_code Scenarios.llm_down query (Scenarios.session [Scenarios.sales] N)
             = (Raise Scenarios.timeout_error, w1)
             /\ count_generate (trace w1) = 1%nat).
  { exists (snd (generate_code Scenarios.llm_down query
                   (Scenarios.session [Scenarios.sales] N))).
    split; reflexivity. }
  destruct Hgen as (w1 & Hgen & Hcount). rewrite Hgen.
  change (is_Exception Scenarios.timeout_error) with true. cbv iota.
  destruct (llm_down_retry_loop (S N) N 0 Scenarios.timeout_error
              (set_exc_info (Some Scenarios.timeout_error) w1))
    as [Hr Hc]; [lia | lia |].
  destruct (generate_retry_loop Scenarios.llm_down (S N) N 0 Scenarios.timeout_error
              (set_exc_info (Some Scenarios.timeout_error) w1)) as [r w2].
  simpl in *. split; [exact Hr |]. rewrite Hc, Hcount. lia.
Qed.

(** ** The error surface of a turn *)

Lemma process_query_prelude_ok query output_type w l :
  llm (config (_state w)) = Some l ->
  fst (process_query_prelude query output_type w) = Ok tt.
Proof.
  intros Hllm. unfold process_query_prelude, bind, log, tell, get_state, modify_state.
  simpl. rewrite Hllm. reflexivity.
Qed.

Lemma process_query_unfold (env : Collaborators) query output_type w l :
  llm (config (_state w)) = Some l ->
  _process_query env query output_type w
  = process_query_guarded env query (snd (process_query_prelude query output_type w)).
Proof.
  intros Hllm. unfold _process_query, bind.
  pose proof (process_query_prelude_ok query output_type w l Hllm) as Hok.
  destruct (process_query_prelude query output_type w) as [r w0]. simpl in *.
  now subst r.
Qed.

(** C2, as amended (src/pandasai/agent/base.py, Agent._process_query and
    Agent._handle_exception).  When the [try] suite of a turn ends with an
    exception [e]: if [e] is not a [CodeExecutionError] it propagates to the
    caller unchanged; if [e] is a [CodeExecutionError] raised once the code
    of the turn was bound (during execution), the caller receives an
    [ErrorResponse] carrying a code and the traceback text of [e]. *)
Theorem process_query_error_surface
    (env : Collaborators) (query : string) (output_type : option string)
    (w : World) (l : LLM) (code : option Code) (e : exn) (w1 : World) :
  llm (config (_state w)) = Some l ->
  process_query_try env query (snd (process_query_prelude query output_type w))
  = (code, (Raise e, w1)) ->
  (is_CodeExecutionError e = false ->
   fst (_process_query env query output_type w) = Raise e)
  /\ (is_CodeExecutionError e = true -> code <> None ->
      exists c, fst (_process_query env query output_type w)
                = Ok (ErrorResponse c (format_traceback env e))).
Proof.
  intros Hllm Htry.
  rewrite (process_query_unfold env query output_type w l Hllm).
  unfold process_query_guarded. rewrite Htry. unfold try_except.
  split.
  - intros He. rewrite He. reflexivity.
  - intros He Hcode. rewrite He.
    destruct code as [c |]; [| congruence].
    exists c. unfold _handle_exception, bind, format_exc, log, tell. reflexivity.
Qed.

(** ** What happens after a failed attempt *)

Lemma prompts_of_app (t1 t2 : list Event) :
  prompts_of (t1 ++ t2) = prompts_of t1 ++ prompts_of t2.
Proof.
  induction t1 as [| ev t1 IH]; [reflexivity |].
  destruct ev; simpl; rewrite ?IH; reflexivity.
Qed.

Lemma prompt_stays p (t evs : list Event) :
  In p (prompts_of t) -> In p (prompts_of (evs ++ t)).
Proof.
  intros Hin. rewrite prompts_of_app. apply in_or_app. now right.
Qed.

(** The rest of a sequence only appends to the trace its first part left. *)
Lemma bind_after {A B} p n (Q : A -> Prop) (m : M A) (k : A -> M B) w :
  effect_at p n Q m w ->
  (forall a w1, Q a -> exists evs, trace (snd (k a w1)) = evs ++ trace w1) ->
  exists evs, trace (snd (bind m k w)) = evs ++ trace (snd (m w)).
Proof.
  intros (evs0 & _ & _ & Hr) Hk. unfold bind.
  destruct (m w) as [[a | e |] w1]; simpl in *.
  - apply Hk. exact Hr.
  - now exists [].
  - contradiction.
Qed.

Lemma try_except_after {A} (body : M A) catches (handler : exn -> M A) w :
  (forall e w1, exists evs, trace (snd (handler e w1)) = evs ++ trace w1) ->
  exists evs, trace (snd (try_except body catches handler w)) = evs ++ trace (snd (body w)).
Proof.
  intros Hh. unfold try_except.
  destruct (body w) as [[a | e |] w1]; simpl; try (now exists []).
  destruct (catches e); [| now exists []].
  destruct (Hh e (set_exc_info (Some e) w1)) as (evs & Ht).
  destruct (handler e (set_exc_info (Some e) w1)) as [r w2]. simpl in *.
  exists evs. exact Ht.
Qed.

Lemma effect_at_extends {A} p n (Q : A -> Prop) (m : M A) w :
  effect_at p n Q m w -> exists evs, trace (snd (m w)) = evs ++ trace w.
Proof. intros (evs & Ht & _). eauto. Qed.

Section AfterFailure.

Variable env : Collaborators.

Lemma quiet_cost ev : (cost no_event ev <= 0)%nat.
Proof. reflexivity. Qed.

(** The request [_regenerate_code_after_error] sends while [handled] is the
    exception being handled. *)
Lemma regenerate_request code error handled w :
  exc_info w = Some handled ->
  prompts_of (trace (snd (_regenerate_code_after_error env code error w)))
  = (if isinstance error InvalidLLMOutputType
     then CorrectOutputTypeErrorPrompt (context_of (_state w)) code
            (format_traceback env handled)
     else CorrectErrorPromptForSql (context_of (_state w)) code
            (format_traceback env handled))
    :: prompts_of (trace w).
Proof.
  intros Hexc.
  unfold _regenerate_code_after_error, bind, format_exc, log, tell, get_state.
  rewrite Hexc. cbv beta iota.
  rewrite prompts_of_code_generator. simpl.
  destruct (isinstance error InvalidLLMOutputType); reflexivity.
Qed.

Lemma generate_retry_loop_extends fuel N attempts exception w :
  (attempts <= N)%nat ->
  (S N <= fuel + attempts)%nat ->
  exists evs,
    trace (snd (generate_retry_loop env fuel N attempts exception w)) = evs ++ trace w.
Proof.
  intros Hle Hfuel. eapply effect_at_extends.
  apply (effect_generate_retry_loop env no_event 0 (fun _ => eq_refl) (fun _ => quiet_cost _));
    assumption.
Qed.

Lemma execute_retry_loop_extends fuel N attempts code w :
  (attempts <= N)%nat ->
  (S N <= fuel + attempts)%nat ->
  exists evs,
    trace (snd (execute_retry_loop env fuel N attempts code w)) = evs ++ trace w.
Proof.
  intros Hle Hfuel. eapply effect_at_extends.
  apply (effect_execute_retry_loop env no_event 0 0 (fun _ => eq_refl) (fun _ _ => eq_refl)
           (fun _ => quiet_cost _) (fun _ _ => quiet_cost _));
    assumption.
Qed.

(** Entered while [handled] is being handled, the generation loop first
    sends the correction request built from the recorded code and the
    traceback of [handled]. *)
Lemma generate_retry_loop_first_request N exception handled w :
  exc_info w = Some handled ->
  In ((if isinstance exception InvalidLLMOutputType
       then CorrectOutputTypeErrorPrompt (context_of (_state w))
              (last_code_generated (_state w)) (format_traceback env handled)
       else CorrectErrorPromptForSql (context_of (_state w))
              (last_code_generated (_state w)) (format_traceback env handled)))
     (prompts_of (trace (snd (generate_retry_loop env (S N) N 0 exception w)))).
Proof.
  intros Hexc. cbn [generate_retry_loop Nat.leb].
  assert (exists evs1,
             trace (snd ((step <- generate_retry_step env N 0 exception;;
                          match step with
                          | Return code => ret code
                          | Continue (attempts, exception) =>
                              generate_retry_loop env N N attempts exception
                          end) w))
             = evs1 ++ trace (snd (generate_retry_step env N 0 exception w)))
    as (evs1 & Ht1).
  { eapply bind_after.
    - apply (effect_generate_retry_step env no_event 0 (fun _ => eq_refl)
               (fun _ => quiet_cost _) N).
    - intros [code | [a e]] w1 HQ; [now exists [] |].
      destruct HQ as [-> Ha]. apply generate_retry_loop_extends; lia. }
  rewrite Ht1. apply prompt_stays.
  unfold generate_retry_step.
  destruct (try_except_after
              (s <- get_state;;
               code <- _regenerate_code_after_error env (last_code_generated s) exception;;
               ret (Return (S := nat * exn) code))
              is_Exception
              (fun e =>
                 if (N <? 1)%nat
                 then log ("Maximum retry attempts exceeded. Last error: " +:+ str_exn e);;
                      reraise
                 else log ("Retrying Code Generation (" +:+ str_nat 1 +:+ "/"
                           +:+ str_nat N +:+ ")...");;
                      ret (Continue (1%nat, e))) w) as (evs2 & Ht2).
  { intros e w1. destruct (N <? 1)%nat.
    - unfold bind, log, tell, reraise. simpl.
      destruct (exc_info w1); eexists [_]; reflexivity.
    - eexists [_]; reflexivity. }
  cbv zeta. rewrite Ht2. apply prompt_stays.
  assert (Hbody :
            trace (snd ((s <- get_state;;
                         code <- _regenerate_code_after_error env (last_code_generated s) exception;;
                         ret (Return (S := nat * exn) code)) w))
            = trace (snd (_regenerate_code_after_error env
                            (last_code_generated (_state w)) exception w))).
  { unfold bind at 1 2, get_state at 1.
    destruct (_regenerate_code_after_error env (last_code_generated (_state w)) exception w)
      as [[c | e |] w1]; reflexivity. }
  rewrite Hbody, (regenerate_request _ _ handled) by exact Hexc.
  left. reflexivity.
Qed.

(** A failed run that leaves budget is followed by the correction request
    built from the code that failed and the traceback of the failure. *)
Lemma execute_retry_loop_first_correction N code e w w1 :
  (1 <= N)%nat ->
  is_Exception e = true ->
  execute_and_parse env code w = (Raise e, w1) ->
  In ((if isinstance e InvalidLLMOutputType
       then CorrectOutputTypeErrorPrompt (context_of (_state w1)) code
              (format_traceback env e)
       else CorrectErrorPromptForSql (context_of (_state w1)) code
              (format_traceback env e)))
     (prompts_of (trace (snd (execute_retry_loop env (S N) N 0 code w)))).
Proof.
  intros HN Hcatch Hrun. cbn [execute_retry_loop Nat.leb].
  assert (exists evs1,
             trace (snd ((step <- execute_retry_step env N 0 code;;
                          match step with
                          | Return response => ret response
                          | Continue (attempts, code) =>
                              execute_retry_loop env N N attempts code
                          end) w))
             = evs1 ++ trace (snd (execute_retry_step env N 0 code w)))
    as (evs1 & Ht1).
  { eapply bind_after.
    - apply (effect_execute_retry_step env no_event 0 0 (fun _ => eq_refl) (fun _ _ => eq_refl)
               (fun _ => quiet_cost _) (fun _ _ => quiet_cost _) N).
    - intros [response | [a c]] w2 HQ; [now exists [] |].
      destruct HQ as [-> Ha]. apply execute_retry_loop_extends; lia. }
  rewrite Ht1. apply prompt_stays.
  unfold execute_retry_step, try_except.
  unfold bind at 1. rewrite Hrun, Hcatch.
  destruct (Nat.ltb_spec N 1) as [Hlt | _]; [lia |].
  set (w2 := emit (Log ("Retrying execution (" +:+ str_nat 1 +:+ "/" +:+ str_nat N +:+ ")..."))
               (set_exc_info (Some e) w1)).
  assert (Hhandler :
            trace (snd ((log ("Retrying execution (" +:+ str_nat 1 +:+ "/"
                              +:+ str_nat N +:+ ")...");;
                         code' <- _regenerate_code_after_error env code e;;
                         ret (Continue (R := Response) (1%nat, code')))
                          (set_exc_info (Some e) w1)))
            = trace (snd (_regenerate_code_after_error env code e w2))).
  { unfold bind at 1 2, log at 1, tell at 1. fold w2.
    destruct (_regenerate_code_after_error env code e w2) as [[c | e' |] w3]; reflexivity. }
  destruct ((log ("Retrying execution (" +:+ str_nat 1 +:+ "/" +:+ str_nat N +:+ ")...");;
             code' <- _regenerate_code_after_error env code e;;
             ret (Continue (R := Response) (1%nat, code')))
              (set_exc_info (Some e) w1)) as [r w3].
  simpl in Hhandler |- *. rewrite Hhandler.
  rewrite (regenerate_request code e e w2) by reflexivity.
  left. reflexivity.
Qed.

End AfterFailure.

Lemma generate_retry_step_unfold (env : Collaborators) N attempts exception w :
  generate_retry_step env N attempts exception w
  = match _regenerate_code_after_error env (last_code_generated (_state w)) exception w with
    | (Ok code, w1) => (Ok (Return code), w1)
    | (Raise e, w1) =>
        if is_Exception e then
          if (N <? S attempts)%nat then
            (Raise e,
             set_exc_info (exc_info w1)
               (emit (Log ("Maximum retry attempts exceeded. Last error: " +:+ str_exn e))
                  (set_exc_info (Some e) w1)))
          else
            (Ok (Continue (S attempts, e)),
             set_exc_info (exc_info w1)
               (emit (Log ("Retrying Code Generation (" +:+ str_nat (S attempts) +:+ "/"
                           +:+ str_nat N +:+ ")..."))
                  (set_exc_info (Some e) w1)))
        else (Raise e, w1)
    | (OutOfFuel, w1) => (OutOfFuel, w1)
    end.
Proof.
  unfold generate_retry_step, try_except, bind, get_state, ret, log, tell, reraise.
  cbv beta iota.
  destruct (_regenerate_code_after_error env (last_code_generated (_state w)) exception w)
    as [[code | e |] w1]; try reflexivity.
  destruct (is_Exception e); try reflexivity.
  destruct (N <? S attempts)%nat; reflexivity.
Qed.

Lemma execute_retry_step_unfold (env : Collaborators) N attempts code w :
  execute_retry_step env N attempts code w
  = match execute_and_parse env code w with
    | (Ok response, w1) => (Ok (Return response), w1)
    | (Raise e, w1) =>
        if is_Exception e then
          if (N <? S attempts)%nat then
            (Raise e,
             set_exc_info (exc_info w1)
               (emit (Log ("Max retries reached. Error: " +:+ str_exn e))
                  (set_exc_info (Some e) w1)))
          else
            match _regenerate_code_after_error env code e
                    (emit (Log ("Retrying execution (" +:+ str_nat (S attempts) +:+ "/"
                                +:+ str_nat N +:+ ")..."))
                       (set_exc_info (Some e) w1)) with
            | (Ok code', w2) =>
                (Ok (Continue (S attempts, code')), set_exc_info (exc_info w1) w2)
            | (Raise e', w2) => (Raise e', set_exc_info (exc_info w1) w2)
            | (OutOfFuel, w2) => (OutOfFuel, set_exc_info (exc_info w1) w2)
            end
        else (Raise e, w1)
    | (OutOfFuel, w1) => (OutOfFuel, w1)
    end.
Proof.
  unfold execute_retry_step, try_except, bind at 1.
  destruct (execute_and_parse env code w) as [[response | e |] w1]; try reflexivity.
  destruct (is_Exception e); try reflexivity.
  destruct (N <? S attempts)%nat; [reflexivity |].
  unfold bind, log, tell, ret. cbv beta iota.
  destruct (_regenerate_code_after_error env code e _) as [[code' | e' |] w2]; reflexivity.
Qed.

Lemma execute_and_parse_failure (env : Collaborators) code w e w1 :
  execute_and_parse env code w = (Raise e, w1) ->
  count_execute (trace w1) = S (count_execute (trace w))
  /\ count_generate (trace w1) = count_generate (trace w).
Proof.
  unfold execute_and_parse, execute_code, parse, bind, log, tell, lift, ret.
  simpl.
  destruct (_sandbox w).
  - destruct (sandbox_execute env _ code) as [e1 | result].
    + intros [= _ <-]. split; reflexivity.
    + simpl. destruct (response_parser_parse env result code); [| discriminate].
      intros [= _ <-]. split; reflexivity.
  - destruct (execute_and_return_result env _ code) as [e1 | result].
    + intros [= _ <-]. split; reflexivity.
    + simpl. destruct (response_parser_parse env result code); [| discriminate].
      intros [= _ <-]. split; reflexivity.
Qed.

Lemma regenerate_counts (env : Collaborators) code error w :
  count_generate (trace (snd (_regenerate_code_after_error env code error w)))
  = S (count_generate (trace w))
  /\ count_execute (trace (snd (_regenerate_code_after_error env code error w)))
     = count_execute (trace w).
Proof.
  unfold _regenerate_code_after_error, bind, format_exc, log, tell, get_state,
    code_generator.
  destruct (exc_info w); cbv beta iota;
    destruct (gen_last_code _), (gen_result _); split; reflexivity.
Qed.

(** A correction request that raises leaves its request on top of the
    trace. *)
Lemma regenerate_failure (env : Collaborators) code error w e w1 :
  _regenerate_code_after_error env code error w = (Raise e, w1) ->
  exists prompt rest, trace w1 = GenerateCode prompt :: rest /\ attached prompt <> None.
Proof.
  unfold _regenerate_code_after_error, bind, format_exc, log, tell, get_state,
    code_generator.
  destruct (exc_info w); cbv beta iota;
    destruct (gen_last_code _), (gen_result _); try discriminate;
    intros [= _ <-]; destruct (isinstance error InvalidLLMOutputType);
    eexists _, _; (split; [reflexivity | discriminate]).
Qed.

Lemma generate_code_failure (env : Collaborators) query w e w1 :
  generate_code env query w = (Raise e, w1) ->
  count_generate (trace w1) = S (count_generate (trace w)).
Proof.
  unfold generate_code, bind, memory_add, modify_state, log, tell, get_state,
    code_generator, ret. simpl.
  destruct (gen_last_code _), (gen_result _); try discriminate;
    intros [= _ <-]; reflexivity.
Qed.

(** When the loop of the generation phase raises an [Exception], every
    correction request it could make has been made. *)
Lemma generate_retry_loop_raises (env : Collaborators) e fuel :
  forall N attempts exception w,
    (attempts <= N)%nat ->
    (S N <= fuel + attempts)%nat ->
    fst (generate_retry_loop env fuel N attempts exception w) = Raise e ->
    is_Exception e = true ->
    count_generate (trace (snd (generate_retry_loop env fuel N attempts exception w)))
    = (count_generate (trace w) + (S N - attempts))%nat.
Proof.
  induction fuel as [| fuel IH]; intros N attempts exception w Hle Hfuel; simpl;
    [discriminate |].
  destruct (Nat.leb_spec attempts N) as [_ | Hgt]; [| lia].
  unfold bind. rewrite generate_retry_step_unfold.
  destruct (regenerate_counts env (last_code_generated (_state w)) exception w)
    as [Hcount _].
  destruct (_regenerate_code_after_error env (last_code_generated (_state w)) exception w)
    as [[code | e' |] w1]; cbn [fst snd] in Hcount |- *; try discriminate.
  destruct (is_Exception e') eqn:Hcatch.
  - destruct (Nat.ltb_spec N (S attempts)) as [Hlast | Hmore]; cbn [fst snd].
    + intros _ _. unfold count_generate, count_events in *. simpl. rewrite Hcount. lia.
    + intros Hraise Hexn.
      rewrite (IH N (S attempts) e' _ Hmore ltac:(lia) Hraise Hexn).
      unfold count_generate, count_events in *. simpl. rewrite Hcount. lia.
  - cbn [fst snd]. intros [= <-] Hexn. congruence.
Qed.

(** When the loop of the execution phase raises an [Exception], either all
    the runs of the budget have been made or the error is the one of a
    correction request. *)
Lemma execute_retry_loop_raises (env : Collaborators) e fuel :
  forall N attempts code w,
    (attempts <= N)%nat ->
    (S N <= fuel + attempts)%nat ->
    fst (execute_retry_loop env fuel N attempts code w) = Raise e ->
    is_Exception e = true ->
    count_execute (trace (snd (execute_retry_loop env fuel N attempts code w)))
    = (count_execute (trace w) + (S N - attempts))%nat
    \/ exists prompt rest,
         trace (snd (execute_retry_loop env fuel N attempts code w))
         = GenerateCode prompt :: rest
         /\ attached prompt <> None.
Proof.
  induction fuel as [| fuel IH]; intros N attempts code w Hle Hfuel; simpl;
    [discriminate |].
  destruct (Nat.leb_spec attempts N) as [_ | Hgt]; [| lia].
  unfold bind. rewrite execute_retry_step_unfold.
  destruct (execute_and_parse env code w) as [[response | e' |] w1] eqn:Hrun;
    cbn [fst snd]; try discriminate.
  destruct (execute_and_parse_failure env code w e' w1 Hrun) as [Hcount _].
  destruct (is_Exception e') eqn:Hcatch.
  - destruct (Nat.ltb_spec N (S attempts)) as [Hlast | Hmore]; cbn [fst snd].
    + intros _ _. left.
      unfold count_execute, count_events in *. simpl. rewrite Hcount. lia.
    + set (w2 := emit (Log ("Retrying execution (" +:+ str_nat (S attempts) +:+ "/"
                            +:+ str_nat N +:+ ")..."))
                   (set_exc_info (Some e') w1)).
      destruct (regenerate_counts env code e' w2) as [_ Hsame].
      destruct (_regenerate_code_after_error env code e' w2) as [[code' | e'' |] w3]
        eqn:Hregen; cbn [fst snd] in Hsame |- *; try discriminate.
      * intros Hraise Hexn.
        destruct (IH N (S attempts) code' (set_exc_info (exc_info w1) w3) Hmore
                    ltac:(lia) Hraise Hexn) as [Hruns | Hrequest].
        -- left. rewrite Hruns.
           change (trace (set_exc_info (exc_info w1) w3)) with (trace w3).
           rewrite Hsame. unfold w2, count_execute, count_events in *. simpl.
           rewrite Hcount. lia.
        -- right. exact Hrequest.
      * intros _ _. right.
        change (trace (set_exc_info (exc_info w1) w3)) with (trace w3).
        exact (regenerate_failure env code e' w2 e'' w3 Hregen).
  - cbn [fst snd]. intros [= <-] Hexn. congruence.
Qed.

(** C5, as amended (src/pandasai/agent/base.py,
    Agent.generate_code_with_retries and Agent.execute_with_retries).
    A [PandasAIApiKeyError] or [PandasAIApiCallError] is retried like any
    other exception.  Raised by the first generation request, it is followed
    by a fix-error-given-traceback request carrying the recorded code and
    the traceback of that error; raised while running or parsing, with a
    budget of at least one retry, it is followed by the same kind of request
    carrying the code that was run.  Such an error reaches the caller of
    [generate_code_with_retries] only after every request of the phase has
    failed, the first one and all the corrections of the loop; it reaches
    the caller of [execute_with_retries] only after all the runs of the
    budget, one more than [max_retries], unless it is the error of a
    correction request of that phase. *)
Theorem connectivity_errors_are_retried (env : Collaborators) (e : exn) :
  exn_type e = PandasAIApiKeyError \/ exn_type e = PandasAIApiCallError ->
  (forall query w w1,
      generate_code env query w = (Raise e, w1) ->
      In (CorrectErrorPromptForSql (context_of (_state w1))
            (last_code_generated (_state w1)) (format_traceback env e))
         (prompts_of (trace (snd (generate_code_with_retries env query w)))))
  /\ (forall code w w1,
        (1 <= max_retries (config (_state w)))%nat ->
        execute_and_parse env code w = (Raise e, w1) ->
        In (CorrectErrorPromptForSql (context_of (_state w1)) code (format_traceback env e))
           (prompts_of (trace (snd (execute_with_retries env code w)))))
  /\ (forall query w,
        fst (generate_code_with_retries env query w) = Raise e ->
        count_generate (trace (snd (generate_code_with_retries env query w)))
        = (count_generate (trace w) + max_retries (config (_state w)) + 2)%nat)
  /\ (forall code w,
        fst (execute_with_retries env code w) = Raise e ->
        count_execute (trace (snd (execute_with_retries env code w)))
        = (count_execute (trace w) + max_retries (config (_state w)) + 1)%nat
        \/ exists prompt rest,
             trace (snd (execute_with_retries env code w)) = GenerateCode prompt :: rest
             /\ attached prompt <> None).
Proof.
  intros Hclass.
  assert (Hcatch : is_Exception e = true)
    by (unfold is_Exception, isinstance; destruct Hclass as [-> | ->]; reflexivity).
  assert (Hkind : isinstance e InvalidLLMOutputType = false)
    by (unfold isinstance; destruct Hclass as [-> | ->]; reflexivity).
  split; [| split; [| split]].
  - intros query w w1 Hgen. unfold generate_code_with_retries.
    change (bind get_state ?k w) with (k (_state w) w). cbv beta zeta.
    unfold try_except. rewrite Hgen, Hcatch.
    pose proof (generate_retry_loop_first_request env (max_retries (config (_state w)))
                  e e (set_exc_info (Some e) w1) eq_refl) as Hfirst.
    rewrite Hkind in Hfirst.
    destruct (generate_retry_loop env (S (max_retries (config (_state w))))
                (max_retries (config (_state w))) 0 e (set_exc_info (Some e) w1))
      as [r w2].
    exact Hfirst.
  - intros code w w1 HN Hrun. unfold execute_with_retries.
    change (bind get_state ?k w) with (k (_state w) w). cbv beta zeta.
    pose proof (execute_retry_loop_first_correction env _ code e w w1 HN Hcatch Hrun)
      as Hfirst.
    rewrite Hkind in Hfirst. exact Hfirst.
  - intros query w. unfold generate_code_with_retries.
    change (bind get_state ?k w) with (k (_state w) w). cbv beta zeta.
    unfold try_except.
    destruct (generate_code env query w) as [[code | e0 |] w1] eqn:Hgen;
      cbn [fst snd]; try discriminate.
    pose proof (generate_code_failure env query w e0 w1 Hgen) as Hfirst.
    destruct (is_Exception e0) eqn:Hcatch0.
    + pose proof (generate_retry_loop_raises env e (S (max_retries (config (_state w))))
                    (max_retries (config (_state w))) 0 e0 (set_exc_info (Some e0) w1)
                    ltac:(lia) ltac:(lia)) as Hloop.
      destruct (generate_retry_loop env (S (max_retries (config (_state w))))
                  (max_retries (config (_state w))) 0 e0 (set_exc_info (Some e0) w1))
        as [r w2].
      cbn [fst snd] in Hloop |- *. intros Hraise.
      change (trace (set_exc_info (exc_info w1) w2)) with (trace w2).
      rewrite (Hloop Hraise Hcatch).
      change (trace (set_exc_info (Some e0) w1)) with (trace w1).
      rewrite Hfirst. lia.
    + cbn [fst snd]. intros [= ->]. congruence.
  - intros code w Hraise. unfold execute_with_retries in *.
    change (bind get_state ?k w) with (k (_state w) w) in *. cbv beta zeta in *.
    destruct (execute_retry_loop_raises env e (S (max_retries (config (_state w))))
                (max_retries (config (_state w))) 0 code w ltac:(lia) ltac:(lia)
                Hraise Hcatch) as [Hruns | Hrequest].
    + left. rewrite Hruns. lia.
    + right. exact Hrequest.
Qed.

(** ** New conversations and follow-ups *)

(** C7, as amended (src/pandasai/agent/base.py, Agent.chat,
    Agent.follow_up, Agent.start_new_conversation).
    [follow_up] is [_process_query] on the state as it is.  With a
    configured language model, [chat] is [_process_query] on the state
    whose message history has been emptied: the last generated code, the
    last prompt used, the output type, the prompt identifier, the datasets
    and the configuration are the ones of the previous conversation.
    Without a language model, [chat] raises [ValueError] and leaves the
    agent as it was. *)
Theorem chat_clears_memory_only
    (env : Collaborators) (query : string) (expected : option string) (w : World) :
  follow_up env query expected w = _process_query env query expected w
  /\ match llm (config (_state w)) with
     | Some _ =>
         let w0 := snd (start_new_conversation w) in
         chat env query expected w = _process_query env query expected w0
         /\ memory (_state w0) = []
         /\ last_code_generated (_state w0) = last_code_generated (_state w)
         /\ last_prompt_used (_state w0) = last_prompt_used (_state w)
         /\ output_type (_state w0) = output_type (_state w)
         /\ last_prompt_id (_state w0) = last_prompt_id (_state w)
         /\ dfs (_state w0) = dfs (_state w)
         /\ config (_state w0) = config (_state w)
         /\ trace w0 = trace w
     | None =>
         exists msg, chat env query expected w = (Raise (mk_exn ValueError msg), w)
     end.
Proof.
  split; [reflexivity |].
  unfold chat. change (bind get_state ?k w) with (k (_state w) w). cbv beta.
  destruct (llm (config (_state w))).
  - repeat split; reflexivity.
  - eexists. reflexivity.
Qed.

(** ** Events a turn never emits *)

Section Silent.

Variable env : Collaborators.
Variable p : Event -> bool.
Hypothesis p_log : forall msg, p (Log msg) = false.
Hypothesis p_parse : forall r c, p (ParseResult r c) = false.
Hypothesis p_generate : forall prompt, p (GenerateCode prompt) = false.
Hypothesis p_execute : forall b c, p (ExecuteCode b c) = false.

Lemma free_generate prompt : (cost p (GenerateCode prompt) <= 0)%nat.
Proof. unfold cost. now rewrite p_generate. Qed.

Lemma free_execute b c : (cost p (ExecuteCode b c) <= 0)%nat.
Proof. unfold cost. now rewrite p_execute. Qed.

Lemma silent_prelude query expected :
  effect p 0 (fun _ => True) (process_query_prelude query expected).
Proof.
  intros w. unfold process_query_prelude.
  eapply effect_at_weaken with (Q := fun _ => True) (n := (0 + (0 + (0 + 0)))%nat);
    [| lia | auto].
  eapply effect_at_bind; [apply (effect_log p p_log) |]. intros _ w1 _.
  eapply effect_at_bind; [apply effect_at_get_state |]. intros s w2 _.
  eapply effect_at_bind with (Q := fun _ => True).
  - destruct (llm (config s)); [apply (effect_log p p_log) | apply effect_at_raise].
  - intros _ w3 _. apply effect_at_modify_state.
Qed.

Lemma silent_generation query :
  effect p 0 (fun _ => True) (assign_prompt_id;; generate_code_with_retries env query).
Proof.
  intros w.
  eapply effect_at_weaken with (Q := fun _ => True) (n := (0 + 0)%nat); [| lia | auto].
  eapply effect_at_bind; [apply (effect_assign_prompt_id p p_log) |]. intros _ w1 _.
  eapply effect_at_weaken;
    [apply (effect_generate_code_with_retries env p 0 p_log free_generate) | lia | auto].
Qed.

Lemma silent_execution code :
  effect p 0 (fun _ => True)
    (result <- execute_with_retries env code;;
     log "Response generated successfully.";;
     ret result).
Proof.
  intros w.
  eapply effect_at_weaken with (Q := fun _ => True) (n := (0 + (0 + 0))%nat); [| lia | auto].
  eapply effect_at_bind with (Q := fun _ => True).
  - eapply effect_at_weaken;
      [apply (effect_execute_with_retries env p 0 0 p_log p_parse free_generate free_execute)
      | lia | auto].
  - intros result w1 _.
    eapply effect_at_bind; [apply (effect_log p p_log) |]. intros _ w2 _.
    apply effect_at_ret. exact I.
Qed.

Lemma silent_handle_exception code :
  effect p 0 (fun _ => True) (_handle_exception env code).
Proof.
  intros w. unfold _handle_exception.
  eapply effect_at_weaken with (Q := fun _ => True) (n := (0 + (0 + 0))%nat); [| lia | auto].
  eapply effect_at_bind; [apply (effect_format_exc env p) |]. intros t w1 _.
  eapply effect_at_bind; [apply (effect_log p p_log) |]. intros _ w2 _.
  apply effect_at_ret. exact I.
Qed.

Lemma effect_at_eq {A} n (Q : A -> Prop) (m m' : M A) w :
  m w = m' w -> effect_at p n Q m' w -> effect_at p n Q m w.
Proof. unfold effect_at. now intros ->. Qed.

Lemma silent_guarded query :
  effect p 0 (fun _ => True) (process_query_guarded env query).
Proof.
  intros w.
  destruct (silent_generation query w) as (evs & Ht & Hc & Hr).
  destruct ((assign_prompt_id;; generate_code_with_retries env query) w)
    as [[code | e |] w1] eqn:Hgen; simpl in Ht, Hr; [| | contradiction].
  - destruct (silent_execution code w1) as (evs' & Ht' & Hc' & Hr').
    eapply effect_at_eq.
    { unfold process_query_guarded, process_query_try. rewrite Hgen. reflexivity. }
    eapply effect_at_weaken with (Q := fun _ => True) (n := (0 + 0)%nat); [| lia | auto].
    apply effect_at_try_except.
    + exists (evs' ++ evs). cbv beta.
      rewrite Ht', Ht, app_assoc, count_events_app. repeat split; [lia | exact Hr'].
    + intros e w2 _. apply silent_handle_exception.
  - eapply effect_at_eq.
    { unfold process_query_guarded, process_query_try. rewrite Hgen. reflexivity. }
    eapply effect_at_weaken with (Q := fun _ => True) (n := (0 + 0)%nat); [| lia | auto].
    apply effect_at_try_except.
    + exists evs. cbv beta. simpl. repeat split; [exact Ht | exact Hc].
    + intros e' w2 _. apply effect_at_raise.
Qed.

(** A whole turn terminates and emits no event selected by [p]. *)
Lemma silent_process_query query expected :
  effect p 0 (fun _ => True) (_process_query env query expected).
Proof.
  intros w. unfold _process_query.
  eapply effect_at_weaken with (Q := fun _ => True) (n := (0 + 0)%nat); [| lia | auto].
  eapply effect_at_bind; [apply silent_prelude |]. intros _ w1 _.
  apply silent_guarded.
Qed.

End Silent.

(** A turn never hands a [CodeExecutionError] to its caller. *)
Lemma process_query_never_raises_code_execution_error
    (env : Collaborators) query expected w e :
  fst (_process_query env query expected w) = Raise e ->
  is_CodeExecutionError e = false.
Proof.
  unfold _process_query, bind at 1.
  destruct (process_query_prelude query expected w) as [[[] | e0 |] w0] eqn:Hpre;
    simpl.
  - unfold process_query_guarded.
    destruct (process_query_try env query w0) as [code [[r | e1 |] w1]];
      unfold try_except; simpl; try discriminate.
    destruct (is_CodeExecutionError e1) eqn:He1.
    + destruct code as [c |]; simpl; [discriminate |].
      intros [= <-]. reflexivity.
    + simpl. intros [= <-]. exact He1.
  - intros [= <-]. revert Hpre.
    unfold process_query_prelude, bind, log, tell, get_state, modify_state, raise. simpl.
    destruct (llm (config (_state w))); [discriminate |].
    intros [= <- _]. reflexivity.
  - discriminate.
Qed.

(** ** Sessions *)

(** Whatever its outcome, [_execute_sql_query] runs at most one query and
    checks no sources. *)
Lemma execute_sql_query_trace (env : Collaborators) query w :
  exists new,
    trace (snd (_execute_sql_query env query w)) = new ++ trace w
    /\ (count_events is_sql_run new <= 1)%nat
    /\ count_events is_check new = 0%nat.
Proof.
  unfold _execute_sql_query.
  change (bind get_state ?k w) with (k (_state w) w). cbv beta.
  destruct (dfs (_state w)) as [| df0 l]; [exists []; simpl; auto |].
  destruct (register_loop_spec (df0 :: l) ∅ None w)
    as (regs & w1 & Hrun & Ht & Hregs & _ & _ & _).
  destruct (registrations_run_nothing regs Hregs) as [Hnone Hcheck].
  assert (Hruns : count_events is_sql_run regs = 0%nat)
    by (unfold count_events; now rewrite Hnone).
  unfold bind at 1. rewrite Hrun.
  unfold bind, lift at 1.
  destruct (replace_table_and_column_names env query _) as [e | final_query].
  - exists regs. simpl. rewrite Ht, Hruns. auto.
  - destruct (match last_delegate (df0 :: l) with Some d => Some d | None => None end)
      as [d |].
    + exists (DelegateSql (schema_name d) final_query :: regs).
      unfold df_executor_call.
      rewrite !count_events_cons, Hruns, Hcheck.
      destruct (df_execute_sql_query env d final_query); simpl; rewrite Ht; auto.
    + exists (DuckDbSql final_query :: regs).
      unfold db_sql.
      rewrite !count_events_cons, Hruns, Hcheck.
      destruct (duckdb_sql env (duckdb w1) final_query); simpl; rewrite Ht; auto.
Qed.

Lemma session_step_checks (env : Collaborators) w w' :
  session_step env w w' ->
  count_events is_check (trace w') = count_events is_check (trace w).
Proof.
  assert (Hturn : forall query expected w0,
             count_events is_check (trace (snd (_process_query env query expected w0)))
             = count_events is_check (trace w0)).
  { intros query expected w0.
    destruct (silent_process_query env is_check (fun _ => eq_refl) (fun _ _ => eq_refl)
                (fun _ => eq_refl) (fun _ _ => eq_refl) query expected w0)
      as (evs & Ht & Hc & _).
    rewrite Ht, count_events_app. lia. }
  intros [query expected | query expected | query | msg user |].
  - unfold chat. change (bind get_state ?k w) with (k (_state w) w). cbv beta.
    destruct (llm (config (_state w))); [| reflexivity].
    unfold start_new_conversation, clear_memory, bind at 1, modify_state.
    now rewrite Hturn.
  - apply Hturn.
  - destruct (execute_sql_query_trace env query w) as (new & Ht & _ & Hc).
    rewrite Ht, count_events_app, Hc. reflexivity.
  - reflexivity.
  - reflexivity.
Qed.

Lemma reachable_checks (env : Collaborators) w w' :
  reachable env w w' ->
  count_events is_check (trace w') = count_events is_check (trace w).
Proof.
  induction 1 as [| w1 w2 w3 Hstep _ IH]; [reflexivity |].
  rewrite IH. now apply (session_step_checks env).
Qed.

(** ** Construction *)

Section Construction.

Variables LOCAL_SOURCE_TYPES REMOTE_SOURCE_TYPES : list string.

Lemma compatible_with_all_true s others :
  compatible_with_all LOCAL_SOURCE_TYPES REMOTE_SOURCE_TYPES s others = inr true ->
  forall other, In other others ->
    is_compatible_source LOCAL_SOURCE_TYPES REMOTE_SOURCE_TYPES s other = inr true.
Proof.
  induction others as [| o others IH]; simpl; [contradiction |].
  unfold and_then.
  destruct (is_compatible_source _ _ s o) as [e | [|]] eqn:Hso; try discriminate.
  intros Hrest other [<- | Hin]; auto.
Qed.

Lemma mutually_compatible_true l all :
  mutually_compatible LOCAL_SOURCE_TYPES REMOTE_SOURCE_TYPES l all = inr true ->
  forall s1 s2, In s1 l -> In s2 all ->
    is_compatible_source LOCAL_SOURCE_TYPES REMOTE_SOURCE_TYPES s1 s2 = inr true.
Proof.
  induction l as [| s l IH]; simpl; [contradiction |].
  unfold and_then.
  destruct (compatible_with_all _ _ s all) as [e | [|]] eqn:Hs; try discriminate.
  intros Hrest s1 s2 [<- | Hin] Hin2.
  - eapply compatible_with_all_true; eauto.
  - apply IH; auto.
Qed.

(** C6 (src/pandasai/agent/base.py, Agent.__init__;
    src/pandasai/data_loader/semantic_layer_schema.py,
    Source.is_compatible_source; section 3 of the specification for
    check_compatible_sources).
    An agent constructed over a list of datasets exists only if every pair
    of their sources is compatible; two sources are compatible exactly when
    both have a local type, or both have a remote type and equal
    connections.  The sources are checked once by the constructor, and no
    state the session reaches afterwards has checked them again. *)
Theorem agent_init_checks_sources_once
    (env : Collaborators) (datasets : list DataFrame)
    (config : option Config) (global_config : Config) (sandbox : bool) (w : World) :
  __init__ LOCAL_SOURCE_TYPES REMOTE_SOURCE_TYPES (inr datasets) config global_config sandbox
  = inr w ->
  (exists sources,
      sources_of datasets = inr sources
      /\ forall s1 s2, In s1 sources -> In s2 sources ->
           is_compatible_source LOCAL_SOURCE_TYPES REMOTE_SOURCE_TYPES s1 s2 = inr true)
  /\ (forall s1 s2,
        is_compatible_source LOCAL_SOURCE_TYPES REMOTE_SOURCE_TYPES s1 s2 = inr true
        <-> (py_in (source_type s1) LOCAL_SOURCE_TYPES = true
             /\ py_in (source_type s2) LOCAL_SOURCE_TYPES = true)
            \/ (py_in (source_type s1) REMOTE_SOURCE_TYPES = true
                /\ py_in (source_type s2) REMOTE_SOURCE_TYPES = true
                /\ source_connection s1 = source_connection s2))
  /\ count_events is_check (trace w) = 1%nat
  /\ (forall w', reachable env w w' -> count_events is_check (trace w') = 1%nat).
Proof.
  intros Hinit.
  assert (Hfacts : exists sources,
             sources_of datasets = inr sources
             /\ check_compatible_sources LOCAL_SOURCE_TYPES REMOTE_SOURCE_TYPES sources
                = inr true
             /\ count_events is_check (trace w) = 1%nat).
  { revert Hinit. unfold __init__, and_then.
    destruct (sources_of datasets) as [e | sources]; [discriminate |].
    destruct (check_compatible_sources _ _ sources) as [e | [|]] eqn:Hcheck;
      simpl; try discriminate.
    intros [= <-]. exists sources. split; [reflexivity |]. split; [exact Hcheck |].
    destruct config; reflexivity. }
  destruct Hfacts as (sources & Hsources & Hcheck & Hcount).
  split; [| split; [| split]].
  - exists sources. split; [exact Hsources |].
    intros s1 s2 H1 H2. apply (mutually_compatible_true _ _ Hcheck); assumption.
  - apply SchemaProofs.is_compatible_source_spec.
  - exact Hcount.
  - intros w' Hreach. rewrite (reachable_checks env w w' Hreach). exact Hcount.
Qed.

End Construction.
End AgentProofs.

(* ================================================================== *)
(** * The model at work on concrete sessions *)
(* ================================================================== *)

Module Runs.
Import Schema Agent Scenarios.

(** C2: a turn whose program runs but yields a result of the wrong shape,
    with no retry left, ends with [InvalidLLMOutputType] raised to the
    caller of [_process_query]; no [ErrorResponse] is built. *)
Lemma process_query_propagates_invalid_output_type :
  let w := session [sales] 0 in
  let out := _process_query wrong_shape "q" None w in
  max_retries (config (_state w)) = 0%nat
  /\ count_execute (trace (snd out)) = 1%nat
  /\ fst out
     = Raise (mk_exn InvalidLLMOutputType "Result must be in the expected output type.").
Proof. vm_compute. repeat split; reflexivity. Qed.

Lemma process_query_error_surface_witness :
  let w := session [sales] 1 in
  let w0 := snd (process_query_prelude "q" None w) in
  llm (config (_state w)) = Some {| llm_type := "fake" |}
  /\ process_query_try always_crashing "q" w0
     = (Some (Some "attempt 0"),
        (Raise division_by_zero, snd (snd (process_query_try always_crashing "q" w0))))
  /\ exists c,
       fst (_process_query always_crashing "q" None w)
       = Ok (ErrorResponse c (format_traceback always_crashing division_by_zero)).
Proof.
  intros w w0.
  assert (H1 : llm (config (_state w)) = Some {| llm_type := "fake" |}) by reflexivity.
  assert (H2 : process_query_try always_crashing "q" w0
               = (Some (Some "attempt 0"),
                  (Raise division_by_zero,
                   snd (snd (process_query_try always_crashing "q" w0)))))
    by (vm_compute; reflexivity).
  split; [exact H1 |]. split; [exact H2 |].
  apply (proj2 (AgentProofs.process_query_error_surface always_crashing "q" None w
                  _ _ _ _ H1 H2)); [reflexivity | discriminate].
Defined.

Lemma execute_sql_query_single_executor_witness :
  let w := session [sales; orders; customers] 0 in
  let out := _execute_sql_query llm_down "SELECT * FROM orders" w in
  dfs (_state w) <> []
  /\ replace_table_and_column_names llm_down "SELECT * FROM orders"
       (table_mapping_of (dfs (_state w)))
     = inr "SELECT * FROM orders"
  /\ exists new,
       trace (snd out) = new ++ trace w
       /\ count_events is_sql_run new = 1%nat
       /\ exists d, In d (dfs (_state w)) /\ query_builder d <> None
            /\ List.filter is_sql_run new = [DelegateSql (schema_name d) "SELECT * FROM orders"]
            /\ fst out = res_of (df_execute_sql_query llm_down d "SELECT * FROM orders").
Proof.
  intros w out.
  assert (H1 : dfs (_state w) <> []) by (vm_compute; discriminate).
  assert (H2 : replace_table_and_column_names llm_down "SELECT * FROM orders"
                 (table_mapping_of (dfs (_state w)))
               = inr "SELECT * FROM orders") by reflexivity.
  split; [exact H1 |]. split; [exact H2 |].
  destruct (AgentProofs.execute_sql_query_single_executor llm_down
              "SELECT * FROM orders" w "SELECT * FROM orders" H1 H2)
    as (new & Ht & Hc & Hdelegate & _).
  exists new. split; [exact Ht |]. split; [exact Hc |].
  apply Hdelegate. exists orders. split; [vm_compute; auto | discriminate].
Defined.


(** C5: the first request to the model fails with a [PandasAIApiCallError];
    [generate_code_with_retries] does not propagate it but asks again and
    returns the code of the second answer.  Likewise a connector failure
    during the first run is followed by a regeneration and a second run. *)
Lemma api_call_error_is_retried :
  let w := session [sales] 1 in
  fst (generate_code llm_flaky "q" w) = Raise timeout_error
  /\ fst (generate_code_with_retries llm_flaky "q" w) = Ok (Some "result = 2")
  /\ count_generate (trace (snd (generate_code_with_retries llm_flaky "q" w))) = 2%nat
  /\ fst (execute_and_parse connector_flaky (Some "attempt 0") w) = Raise connection_reset
  /\ fst (execute_with_retries connector_flaky (Some "attempt 0") w)
     = Ok (ParsedResponse "42")
  /\ count_execute (trace (snd (execute_with_retries connector_flaky (Some "attempt 0") w)))
     = 2%nat.
Proof. vm_compute. repeat split; reflexivity. Qed.

Lemma connectivity_errors_are_retried_witness :
  let w := session [sales] 1 in
  let w1 := snd (generate_code llm_flaky "q" w) in
  (exn_type timeout_error = PandasAIApiKeyError
   \/ exn_type timeout_error = PandasAIApiCallError)
  /\ generate_code llm_flaky "q" w = (Raise timeout_error, w1)
  /\ In (CorrectErrorPromptForSql (context_of (_state w1))
           (last_code_generated (_state w1)) (format_traceback llm_flaky timeout_error))
        (prompts_of (trace (snd (generate_code_with_retries llm_flaky "q" w)))).
Proof.
  intros w w1.
  assert (H1 : exn_type timeout_error = PandasAIApiKeyError
               \/ exn_type timeout_error = PandasAIApiCallError) by (right; reflexivity).
  assert (H2 : generate_code llm_flaky "q" w = (Raise timeout_error, w1))
    by (vm_compute; reflexivity).
  split; [exact H1 |]. split; [exact H2 |].
  exact (proj1 (AgentProofs.connectivity_errors_are_retried llm_flaky timeout_error H1)
           "q" w w1 H2).
Defined.

Lemma agent_init_checks_sources_once_witness :
  __init__ LOCAL_SOURCE_TYPES REMOTE_SOURCE_TYPES (inr [sales; customers]) None
    (config_with 1) false
  = inr constructed
  /\ count_events is_check (trace constructed) = 1%nat
  /\ (forall w', reachable llm_down constructed w' ->
                 count_events is_check (trace w') = 1%nat).
Proof.
  assert (H : __init__ LOCAL_SOURCE_TYPES REMOTE_SOURCE_TYPES (inr [sales; customers]) None
                (config_with 1) false
              = inr constructed) by (vm_compute; reflexivity).
  split; [exact H |].
  destruct (AgentProofs.agent_init_checks_sources_once LOCAL_SOURCE_TYPES
              REMOTE_SOURCE_TYPES llm_down [sales; customers] None (config_with 1) false
              constructed H) as (_ & _ & Hcount & Hlater).
  split; [exact Hcount | exact Hlater].
Defined.

(** C7: a [chat] issued in the middle of a conversation enters the cycle
    with the code of the previous conversation still recorded.  The state is
    not the cleared conversation state, and when the model then fails, the
    correction request of the new conversation carries the old code. *)
Lemma chat_keeps_previous_code :
  let w := mid_conversation 0 in
  let before_cycle := snd (start_new_conversation w) in
  chat llm_down "q" None w = _process_query llm_down "q" None before_cycle
  /\ last_code_generated (_state before_cycle) = Some "result = 1"
  /\ ~ spec_conversation_state_cleared (_state before_cycle)
  /\ In (CorrectErrorPromptForSql
           {| ctx_memory := [{| is_user := true; message := "q" |}];
              ctx_output_type := None |}
           (Some "result = 1") (traceback_text timeout_error))
        (prompts_of (trace (snd (chat llm_down "q" None w)))).
Proof.
  intros w before_cycle. split; [reflexivity |]. split; [reflexivity |]. split.
  - intros (_ & Hcode & _). discriminate Hcode.
  - vm_compute. left. reflexivity.
Qed.

Lemma last_code_executed_is_last_generated_witness :
  let w := session [sales] 0 in
  let prompt := ChatPromptForSql (context_of (_state w)) in
  let e := mk_exn MaliciousQueryError "The query contains references to io or os modules." in
  code_generator_generate_code rejecting (trace w) prompt
  = {| gen_result := inl e; gen_last_code := Some "import os" |}
  /\ fst (code_generator rejecting prompt w) = Raise e
  /\ last_code_executed (snd (code_generator rejecting prompt w)) = Some "import os".
Proof.
  intros w prompt e.
  assert (H : code_generator_generate_code rejecting (trace w) prompt
              = {| gen_result := inl e; gen_last_code := Some "import os" |})
    by reflexivity.
  split; [exact H |].
  destruct (AgentProofs.last_code_executed_is_last_generated rejecting w)
    as (_ & _ & Hrejected).
  destruct (Hrejected prompt "import os" e H) as (Hraise & _ & _ & Hlast).
  split; [exact Hraise | exact Hlast].
Defined.

(** C10: a schema that defines both [source] and [view], the latter as
    [False], passes validation. *)
Lemma schema_with_source_and_view_false_is_valid :
  let s := schema_with (Some csv_source) (Some false) ["a"] in
  source s <> None
  /\ view s <> None
  /\ validate_schema any_name s = inr s.
Proof.
  intros s. split; [discriminate |]. split; [discriminate |].
  vm_compute. reflexivity.
Qed.

Lemma validate_schema_source_xor_view_witness :
  let s := schema_with (Some csv_source) (Some true) ["a"] in
  source s <> None
  /\ view s = Some true
  /\ exists e, validate_schema any_name s = inl e /\ exn_type e = ValueError.
Proof.
  intros s.
  assert (H1 : source s <> None) by discriminate.
  assert (H2 : view s = Some true) by reflexivity.
  split; [exact H1 |]. split; [exact H2 |].
  exact (proj1 (proj2 (SchemaProofs.validate_schema_source_xor_view any_name s)) H1 H2).
Defined.

End Runs.

(* ================================================================== *)
(** * Further properties of the schema layer *)
(* ================================================================== *)

Module SchemaFacts.
Import Schema Transformations.

(** ** Source compatibility *)

Lemma SQLConnectionConfig_eq_sym (a b : SQLConnectionConfig) :
  SQLConnectionConfig_eq a b = SQLConnectionConfig_eq b a.
Proof.
  unfold SQLConnectionConfig_eq.
  rewrite (String.eqb_sym (host a)), (Z.eqb_sym (port a)),
    (String.eqb_sym (database a)), (String.eqb_sym (user a)),
    (String.eqb_sym (password a)).
  reflexivity.
Qed.

Lemma connection_eq_sym (c1 c2 : option SQLConnectionConfig) :
  connection_eq c1 c2 = connection_eq c2 c1.
Proof.
  destruct c1, c2; simpl; try reflexivity.
  now rewrite SQLConnectionConfig_eq_sym.
Qed.

Lemma config_eq_true (a b : SQLConnectionConfig) :
  SQLConnectionConfig_eq a b = true <-> a = b.
Proof.
  unfold SQLConnectionConfig_eq. destruct a, b; simpl.
  rewrite !andb_true_iff, !String.eqb_eq, Z.eqb_eq.
  split.
  - intros [[[[-> ->] ->] ->] ->]. reflexivity.
  - intros [= -> -> -> -> ->]. auto.
Qed.

Lemma connection_eq_true (c1 c2 : option SQLConnectionConfig) :
  connection_eq c1 c2 = inr true <-> c1 = c2.
Proof.
  destruct c1 as [a |], c2 as [b |]; simpl; try (split; discriminate).
  - split.
    + intros [= H]. apply config_eq_true in H. congruence.
    + intros [= ->]. f_equal. now apply config_eq_true.
  - split; reflexivity.
Qed.

Lemma string_app_empty (s : string) : s +:+ EmptyString = s.
Proof.
  induction s as [| c s IH]; [reflexivity |].
  change (String c (s +:+ EmptyString) = String c s). now rewrite IH.
Qed.

Section Compatibility.

Variables LOCAL_SOURCE_TYPES REMOTE_SOURCE_TYPES : list string.

Lemma compatible_iff (s1 s2 : Source) :
  is_compatible_source LOCAL_SOURCE_TYPES REMOTE_SOURCE_TYPES s1 s2 = inr true
  <-> (py_in (source_type s1) LOCAL_SOURCE_TYPES = true
       /\ py_in (source_type s2) LOCAL_SOURCE_TYPES = true)
      \/ (py_in (source_type s1) REMOTE_SOURCE_TYPES = true
          /\ py_in (source_type s2) REMOTE_SOURCE_TYPES = true
          /\ source_connection s1 = source_connection s2).
Proof.
  unfold is_compatible_source.
  destruct (py_in (source_type s1) LOCAL_SOURCE_TYPES) eqn:L1,
           (py_in (source_type s2) LOCAL_SOURCE_TYPES) eqn:L2; simpl; try tauto.
  all: destruct (py_in (source_type s1) REMOTE_SOURCE_TYPES) eqn:R1,
                (py_in (source_type s2) REMOTE_SOURCE_TYPES) eqn:R2; simpl;
    rewrite ?connection_eq_true;
    try (split; [tauto | intros [[? ?] | (? & ? & ?)]; (discriminate || assumption)]);
    try (split; [discriminate | intros [[? ?] | (? & ? & ?)]; discriminate]).
Qed.

(** X1: [is_compatible_source] is symmetric, outcome for outcome: the two
    orders of comparison return the same boolean or raise the same error. *)
Theorem is_compatible_source_symmetric (s1 s2 : Source) :
  is_compatible_source LOCAL_SOURCE_TYPES REMOTE_SOURCE_TYPES s1 s2
  = is_compatible_source LOCAL_SOURCE_TYPES REMOTE_SOURCE_TYPES s2 s1.
Proof.
  unfold is_compatible_source.
  rewrite (andb_comm (py_in (source_type s1) LOCAL_SOURCE_TYPES)),
    (andb_comm (py_in (source_type s1) REMOTE_SOURCE_TYPES)),
    (connection_eq_sym (source_connection s1)).
  reflexivity.
Qed.

(** What [validate_type_and_fields] accepts. *)
Lemma validated_source (s s' : Source) :
  validate_type_and_fields LOCAL_SOURCE_TYPES REMOTE_SOURCE_TYPES s = inr s' ->
  s' = s
  /\ ((py_in (source_type s) LOCAL_SOURCE_TYPES = true
       /\ truthy_str (source_path s) = true)
      \/ (py_in (source_type s) LOCAL_SOURCE_TYPES = false
          /\ py_in (source_type s) REMOTE_SOURCE_TYPES = true
          /\ source_connection s <> None
          /\ truthy_str (source_table s) = true)).
Proof.
  unfold validate_type_and_fields.
  destruct (py_in (source_type s) LOCAL_SOURCE_TYPES) eqn:HL.
  - destruct (truthy_str (source_path s)) eqn:Hp; simpl; [| discriminate].
    intros [= <-]. auto.
  - destruct (py_in (source_type s) REMOTE_SOURCE_TYPES) eqn:HR; [| discriminate].
    destruct (source_connection s) eqn:Hc; simpl; [| discriminate].
    destruct (truthy_str (source_table s)) eqn:Ht; simpl; [| discriminate].
    intros [= <-]. split; [reflexivity |]. right. repeat split; auto; congruence.
Qed.

(** X2: [validate_type_and_fields] returns its argument unchanged exactly
    for a local type with a non-empty path, or a type that is not local but
    remote with a connection and a non-empty table; everything else is
    rejected with [ValueError]. *)
Theorem validate_type_and_fields_accepts (s : Source) :
  (validate_type_and_fields LOCAL_SOURCE_TYPES REMOTE_SOURCE_TYPES s = inr s
   <-> (py_in (source_type s) LOCAL_SOURCE_TYPES = true
        /\ truthy_str (source_path s) = true)
       \/ (py_in (source_type s) LOCAL_SOURCE_TYPES = false
           /\ py_in (source_type s) REMOTE_SOURCE_TYPES = true
           /\ source_connection s <> None
           /\ truthy_str (source_table s) = true))
  /\ (forall s', validate_type_and_fields LOCAL_SOURCE_TYPES REMOTE_SOURCE_TYPES s = inr s' ->
                 s' = s)
  /\ (forall e, validate_type_and_fields LOCAL_SOURCE_TYPES REMOTE_SOURCE_TYPES s = inl e ->
                exn_type e = ValueError).
Proof.
  split; [| split].
  - split; [intros H; apply (validated_source _ _ H) |].
    unfold validate_type_and_fields.
    intros [[HL Hp] | (HL & HR & Hc & Ht)]; rewrite HL.
    + now rewrite Hp.
    + rewrite HR, Ht. destruct (source_connection s); [reflexivity | congruence].
  - intros s' H. apply (validated_source _ _ H).
  - intros e. unfold validate_type_and_fields.
    repeat match goal with
           | |- context [if ?c then _ else _] => destruct c
           end; try discriminate; intros [= <-]; reflexivity.
Qed.

(** X3: when no type is both local and remote, compatibility is an
    equivalence on validated sources: comparing two validated sources never
    raises, a validated source is compatible with itself, compatibility is
    transitive, and a local source is never compatible with a remote one. *)
Theorem compatibility_is_an_equivalence (s1 s2 : Source) :
  (forall t, py_in t LOCAL_SOURCE_TYPES = true -> py_in t REMOTE_SOURCE_TYPES = false) ->
  validate_type_and_fields LOCAL_SOURCE_TYPES REMOTE_SOURCE_TYPES s1 = inr s1 ->
  validate_type_and_fields LOCAL_SOURCE_TYPES REMOTE_SOURCE_TYPES s2 = inr s2 ->
  (exists b, is_compatible_source LOCAL_SOURCE_TYPES REMOTE_SOURCE_TYPES s1 s2 = inr b)
  /\ is_compatible_source LOCAL_SOURCE_TYPES REMOTE_SOURCE_TYPES s1 s1 = inr true
  /\ (forall s3,
        is_compatible_source LOCAL_SOURCE_TYPES REMOTE_SOURCE_TYPES s1 s2 = inr true ->
        is_compatible_source LOCAL_SOURCE_TYPES REMOTE_SOURCE_TYPES s2 s3 = inr true ->
        is_compatible_source LOCAL_SOURCE_TYPES REMOTE_SOURCE_TYPES s1 s3 = inr true)
  /\ (py_in (source_type s1) LOCAL_SOURCE_TYPES = true ->
      py_in (source_type s2) REMOTE_SOURCE_TYPES = true ->
      is_compatible_source LOCAL_SOURCE_TYPES REMOTE_SOURCE_TYPES s1 s2 = inr false).
Proof.
  intros Hdisjoint H1 H2.
  apply validated_source in H1 as [_ H1]. apply validated_source in H2 as [_ H2].
  assert (Hconn : forall s,
             ((py_in (source_type s) LOCAL_SOURCE_TYPES = true
               /\ truthy_str (source_path s) = true)
              \/ (py_in (source_type s) LOCAL_SOURCE_TYPES = false
                  /\ py_in (source_type s) REMOTE_SOURCE_TYPES = true
                  /\ source_connection s <> None
                  /\ truthy_str (source_table s) = true)) ->
             py_in (source_type s) REMOTE_SOURCE_TYPES = true ->
             exists c, source_connection s = Some c).
  { intros s [[HL _] | (_ & _ & Hc & _)] HR.
    - rewrite (Hdisjoint _ HL) in HR. discriminate.
    - destruct (source_connection s); [eauto | congruence]. }
  pose proof (Hconn s1 H1) as C1. pose proof (Hconn s2 H2) as C2.
  split; [| split; [| split]].
  - unfold is_compatible_source.
    destruct (_ && _); [eauto |].
    destruct (py_in (source_type s1) REMOTE_SOURCE_TYPES),
             (py_in (source_type s2) REMOTE_SOURCE_TYPES); simpl; eauto.
    destruct (C1 eq_refl) as [c1 ->], (C2 eq_refl) as [c2 ->]. simpl. eauto.
  - apply compatible_iff.
    destruct H1 as [[HL _] | (_ & HR & _)]; [left | right]; auto.
  - intros s3 H12 H23.
    apply compatible_iff in H12. apply compatible_iff in H23.
    apply compatible_iff.
    destruct H12 as [[A1 A2] | (A1 & A2 & A3)], H23 as [[B2 B3] | (B2 & B3 & B4)].
    + left. auto.
    + rewrite (Hdisjoint _ A2) in B2. discriminate.
    + rewrite (Hdisjoint _ B2) in A2. discriminate.
    + right. repeat split; auto. congruence.
  - intros HL HR. unfold is_compatible_source.
    rewrite HL, (Hdisjoint _ HL).
    destruct (py_in (source_type s2) LOCAL_SOURCE_TYPES) eqn:HL2.
    + rewrite (Hdisjoint _ HL2) in HR. discriminate.
    + reflexivity.
Qed.

End Compatibility.


(** ** Group-by columns *)

Lemma group_by_loop_ok (g : gset string) (cols : list Column) :
  group_by_loop g cols = inr tt
  <-> forall col, In col cols ->
        (truthy_str (column_expression col) = true <-> column_name col ∉ g).
Proof.
  induction cols as [| col cols IH]; simpl.
  - split; [intros _ col [] | reflexivity].
  - destruct (truthy_str (column_expression col)) eqn:Hexpr;
      destruct (bool_decide_reflect (column_name col ∈ g)) as [Hin | Hout]; simpl.
    + split; [discriminate |]. intros H. destruct (H col (or_introl eq_refl)) as [H1 _].
      destruct (H1 Hexpr Hin).
    + rewrite IH. split.
      * intros H c [<- | Hc]; [rewrite Hexpr; tauto | auto].
      * intros H c Hc. apply H. auto.
    + rewrite IH. split.
      * intros H c [<- | Hc]; [rewrite Hexpr; split; [discriminate | tauto] | auto].
      * intros H c Hc. apply H. auto.
    + split; [discriminate |]. intros H. destruct (H col (or_introl eq_refl)) as [_ H2].
      specialize (H2 Hout). congruence.
Qed.

(** X4: when both [group_by] and [columns] are non-empty,
    [_validate_group_by_columns] accepts exactly the schemas in which the
    columns with an aggregation expression are the columns that are not
    listed in [group_by]; when either is missing or empty it accepts
    everything.  Names listed in [group_by] that are not columns are not
    looked at.  Every rejection is a [ValueError]. *)
Theorem validate_group_by_columns_accepts (s : SemanticLayerSchema) :
  (_validate_group_by_columns s = inr tt
   <-> truthy_list (group_by s) = false
       \/ truthy_list (columns s) = false
       \/ forall col, In col (or_empty (columns s)) ->
            (truthy_str (column_expression col) = true
             <-> ~ In (column_name col) (or_empty (group_by s))))
  /\ (forall e, _validate_group_by_columns s = inl e -> exn_type e = ValueError).
Proof.
  unfold _validate_group_by_columns. split.
  - destruct (truthy_list (group_by s)) eqn:Hg; simpl; [| tauto].
    destruct (truthy_list (columns s)) eqn:Hc; simpl; [| tauto].
    rewrite group_by_loop_ok.
    assert (Hmem : forall n, n ∈ (list_to_set (or_empty (group_by s)) : gset string)
                             <-> In n (or_empty (group_by s))).
    { intros n. rewrite elem_of_list_to_set. apply list_elem_of_In. }
    split.
    + intros H. right. right. intros col Hcol. rewrite (H col Hcol), Hmem. tauto.
    + intros [H | [H | H]]; try discriminate.
      intros col Hcol. rewrite (H col Hcol), Hmem. tauto.
  - intros e. destruct (_ || _); [discriminate |].
    generalize (list_to_set (or_empty (group_by s)) : gset string).
    induction (or_empty (columns s)) as [| col cols IH]; intros g; simpl; [discriminate |].
    destruct (_ && _); [intros [= <-]; reflexivity |].
    destruct (_ && _); [intros [= <-]; reflexivity | apply IH].
Qed.

(** ** The column-name pattern *)

Lemma is_word_app (a b : string) :
  is_word (a +:+ b) = is_word a && is_word b.
Proof.
  induction a as [| c a IH]; [reflexivity |].
  change (is_word_char c && is_word (a +:+ b) = is_word_char c && is_word a && is_word b).
  now rewrite IH, andb_assoc.
Qed.

(** [span is_word_char] splits a string into a word and a rest that does
    not start with a word character. *)
Lemma span_word_spec (s a b : string) :
  span is_word_char s = (a, b) ->
  s = a +:+ b
  /\ is_word a = true
  /\ match b with
     | EmptyString => True
     | String c _ => is_word_char c = false
     end.
Proof.
  revert a b. induction s as [| c s IH]; intros a b; simpl.
  - intros [= <- <-]. auto.
  - destruct (is_word_char c) eqn:Hc.
    + destruct (span is_word_char s) as [a' b'] eqn:Hs. intros [= <- <-].
      destruct (IH a' b' eq_refl) as (-> & Hw & Hb).
      repeat split; auto. simpl. now rewrite Hc, Hw.
    + intros [= <- <-]. repeat split; auto.
Qed.

Lemma span_word_app (a b : string) :
  is_word a = true ->
  match b with
  | EmptyString => True
  | String c _ => is_word_char c = false
  end ->
  span is_word_char (a +:+ b) = (a, b).
Proof.
  induction a as [| c a IH]; intros Ha Hb.
  - destruct b as [| c b]; [reflexivity |]. simpl. now rewrite Hb.
  - simpl in Ha. apply andb_true_iff in Ha as [Hc Ha].
    change (span is_word_char (String c (a +:+ b)) = (String c a, b)).
    simpl. now rewrite Hc, (IH Ha Hb).
Qed.

Lemma eqb_empty_false (s : string) :
  negb (String.eqb s EmptyString) = true <-> s <> EmptyString.
Proof.
  rewrite negb_true_iff. split.
  - intros H ->. discriminate.
  - intros H. apply String.eqb_neq. exact H.
Qed.

(** X5: the pattern [^[a-zA-Z0-9_]+\.[a-zA-Z0-9_]+$] matches exactly the
    strings made of a non-empty word, a dot and a non-empty word, and those
    strings followed by one newline. *)
Theorem is_view_column_name_spec (s : string) :
  is_view_column_name s = true
  <-> exists table column,
        is_word table = true /\ is_word column = true
        /\ table <> EmptyString /\ column <> EmptyString
        /\ (s = table +:+ "." +:+ column
            \/ s = table +:+ "." +:+ column +:+ newline).
Proof.
  unfold is_view_column_name. split.
  - destruct (span is_word_char s) as [w1 r1] eqn:H1.
    destruct (span_word_spec _ _ _ H1) as (-> & Hw1 & _).
    destruct r1 as [| c r2]; [discriminate |].
    destruct (Ascii.eqb_spec c "."%char) as [-> | Hne].
    2:{ destruct c as [[] [] [] [] [] [] [] []]; try discriminate. now destruct Hne. }
    destruct (span is_word_char r2) as [w2 r3] eqn:H2.
    destruct (span_word_spec _ _ _ H2) as (-> & Hw2 & _).
    rewrite !andb_true_iff, !eqb_empty_false, orb_true_iff, !String.eqb_eq.
    intros [[Hn1 Hn2] [-> | ->]]; exists w1, w2; repeat split; auto.
    left. now rewrite string_app_empty.
  - intros (t & c & Ht & Hc & Hnt & Hnc & Hs).
    assert (Hspan1 : forall rest, span is_word_char (t +:+ "." +:+ rest)
                                  = (t, String "."%char rest)).
    { intros rest. apply (span_word_app t (String "."%char rest)); [exact Ht | reflexivity]. }
    destruct Hs as [-> | ->]; rewrite Hspan1; cbv iota beta.
    + rewrite <- (string_app_empty c) at 1.
      rewrite (span_word_app c EmptyString Hc I).
      rewrite !andb_true_iff, !eqb_empty_false. auto.
    + rewrite (span_word_app c newline Hc eq_refl).
      rewrite !andb_true_iff, !eqb_empty_false, orb_true_iff, String.eqb_refl. auto.
Qed.


(** ** Columns and relations *)

Lemma size_list_to_set_le (l : list string) :
  (size (list_to_set l : gset string) <= length l)%nat.
Proof.
  induction l as [| x l IH].
  - rewrite list_to_set_nil, size_empty. simpl. lia.
  - rewrite list_to_set_cons, size_union_alt, size_singleton. simpl.
    pose proof (subseteq_size (list_to_set l ∖ {[x]} : gset string) (list_to_set l)) as Hsub.
    assert ((list_to_set l ∖ {[x]} : gset string) ⊆ list_to_set l)
      by (apply subseteq_difference_l; reflexivity).
    specialize (Hsub H). lia.
Qed.

(** The test [len(names) != len(set(names))] finds exactly the lists with a
    repeated name. *)
Lemma length_size_NoDup (l : list string) :
  length l = size (list_to_set l : gset string) <-> NoDup l.
Proof.
  split; [| intros H; symmetry; now apply size_list_to_set].
  induction l as [| x l IH]; intros Hlen; [constructor |].
  rewrite list_to_set_cons, size_union_alt, size_singleton in Hlen. simpl in Hlen.
  destruct (decide (x ∈ l)) as [Hin | Hout].
  - exfalso.
    assert (Hsub : (list_to_set l ∖ {[x]} : gset string) ⊂ list_to_set l).
    { apply strict_spec_alt. split; [apply subseteq_difference_l; reflexivity |].
      intros Heq.
      assert (x ∈ (list_to_set l : gset string)) as Hx
        by (apply elem_of_list_to_set; exact Hin).
      rewrite <- Heq in Hx. apply elem_of_difference in Hx as [_ Hx].
      apply Hx, elem_of_singleton. reflexivity. }
    apply subset_size in Hsub. pose proof (size_list_to_set_le l). lia.
  - assert (Hdiff : (list_to_set l ∖ {[x]} : gset string) = list_to_set l).
    { apply difference_disjoint_L, disjoint_singleton_r.
      rewrite elem_of_list_to_set. exact Hout. }
    rewrite Hdiff in Hlen. constructor; [exact Hout |]. apply IH. lia.
Qed.

Lemma columns_relations_passed vf (s s' : SemanticLayerSchema) :
  validate_schema vf s = inr s' -> _validate_columns_relations s = inr tt.
Proof.
  unfold validate_schema, and_then.
  destruct (_validate_name vf s); [discriminate |].
  destruct (_validate_group_by_columns s); [discriminate |].
  destruct (_validate_columns_relations s) as [e | []]; [discriminate | reflexivity].
Qed.

(** X6: a schema that passes validation has pairwise distinct column
    names. *)
Theorem validated_columns_are_distinct
    (validate_underscore_name_format : string -> bool) (s s' : SemanticLayerSchema) :
  validate_schema validate_underscore_name_format s = inr s' ->
  List.NoDup (map column_name (or_empty (columns s))).
Proof.
  intros Hvalid. apply columns_relations_passed in Hvalid.
  revert Hvalid. unfold _validate_columns_relations.
  destruct (Nat.eqb_spec (length (map column_name (or_empty (columns s))))
              (size (list_to_set (map column_name (or_empty (columns s))) : gset string)))
    as [Hlen | Hlen]; simpl; [| discriminate].
  intros _. apply NoDup_ListNoDup, length_size_NoDup. exact Hlen.
Qed.

(** The endpoints of the relations of a schema. *)
Lemma endpoints_elements (rels : list Relation) (n : string) :
  n ∈ elements (list_to_set (flat_map (fun r => [from_ r; to r]) rels) : gset string)
  <-> exists r, In r rels /\ (n = from_ r \/ n = to r).
Proof.
  rewrite elem_of_elements, elem_of_list_to_set, list_elem_of_In, in_flat_map.
  split.
  - intros (r & Hr & [<- | [<- | []]]); eauto.
  - intros (r & Hr & [-> | ->]); exists r; simpl; auto.
Qed.

(** X7: a validated view has at least one column; each of its column names
    and each [from] and [to] of its relations matches the pattern
    [table.column]; and unless all its columns belong to one table, the
    table of every column is the table of some relation endpoint. *)
Theorem validated_view_shape
    (validate_underscore_name_format : string -> bool) (s s' : SemanticLayerSchema) :
  validate_schema validate_underscore_name_format s = inr s' ->
  view s = Some true ->
  let names := map column_name (or_empty (columns s)) in
  names <> []
  /\ (forall n, In n names -> is_view_column_name n = true)
  /\ (forall r, In r (or_empty (relations s)) ->
        is_view_column_name (from_ r) = true /\ is_view_column_name (to r) = true)
  /\ ((forall n1 n2, In n1 names -> In n2 names -> table_of n1 = table_of n2)
      \/ (forall n, In n names ->
            exists r, In r (or_empty (relations s))
                      /\ (table_of n = table_of (from_ r) \/ table_of n = table_of (to r)))).
Proof.
  intros Hvalid Hview names. apply columns_relations_passed in Hvalid.
  revert Hvalid. unfold _validate_columns_relations. fold names.
  destruct (negb (length names =? size _)%nat); [discriminate |].
  rewrite Hview. simpl truthy_bool.
  destruct (truthy_model (source s)); simpl; [discriminate |].
  destruct (truthy_list (columns s)) eqn:Hcols; simpl; [| discriminate].
  destruct (forallb is_view_column_name names) eqn:Hnames; simpl; [| discriminate].
  destruct (forallb is_view_column_name (elements _)) eqn:Hrels; simpl; [| discriminate].
  rewrite forallb_forall in Hnames. rewrite forallb_forall in Hrels.
  intros Hcover. split; [| split; [| split]].
  - subst names. destruct (columns s) as [[| c cs] |]; simpl in *; discriminate.
  - exact Hnames.
  - intros r Hr. split; apply Hrels, list_elem_of_In, endpoints_elements; eauto.
  - destruct (bool_decide_reflect
                ((list_to_set (map table_of names) : gset string)
                   ∖ list_to_set (map table_of
                       (elements (list_to_set
                          (flat_map (fun r => [from_ r; to r]) (or_empty (relations s)))
                          : gset string))) = ∅)) as [Hempty | Hleft];
      simpl in Hcover.
    + right. intros n Hn.
      assert (Hin : table_of n ∈ (list_to_set (map table_of names) : gset string)).
      { apply elem_of_list_to_set, list_elem_of_In, in_map. exact Hn. }
      assert (Hrel : table_of n ∈ (list_to_set (map table_of
                       (elements (list_to_set
                          (flat_map (fun r => [from_ r; to r]) (or_empty (relations s)))
                          : gset string))) : gset string)).
      { destruct (decide (table_of n ∈ (list_to_set (map table_of
                       (elements (list_to_set
                          (flat_map (fun r => [from_ r; to r]) (or_empty (relations s)))
                          : gset string))) : gset string))) as [H | H]; [exact H |].
        exfalso. assert (table_of n ∈ (∅ : gset string)) as Hbad
          by (rewrite <- Hempty; apply elem_of_difference; split; [exact Hin | exact H]).
        exact (not_elem_of_empty _ Hbad). }
      apply elem_of_list_to_set, list_elem_of_In, in_map_iff in Hrel
        as (endpoint & Heq & Hend).
      apply list_elem_of_In, endpoints_elements in Hend as (r & Hr & [-> | ->]);
        exists r; split; auto.
    + left. intros n1 n2 H1 H2.
      destruct (Nat.ltb_spec 1 (size (list_to_set (map table_of names) : gset string)))
        as [Hmany | Hfew]; [discriminate |].
      assert (Hmem : forall n, In n names ->
                 table_of n ∈ (list_to_set (map table_of names) : gset string)).
      { intros n Hn. apply elem_of_list_to_set, list_elem_of_In, in_map. exact Hn. }
      assert (Hone : size (list_to_set (map table_of names) : gset string) = 1%nat).
      { pose proof (Hmem n1 H1) as Hx.
        destruct (size (list_to_set (map table_of names) : gset string)) as [| k] eqn:Hk;
          [| lia].
        apply size_empty_inv, leibniz_equiv in Hk. rewrite Hk in Hx.
        destruct (not_elem_of_empty _ Hx). }
      exact (size_singleton_inv _ _ _ Hone (Hmem n1 H1) (Hmem n2 H2)).
Qed.

(** X8: a validated schema that is not a view names none of its columns in
    the [table.column] format of views. *)
Theorem validated_table_has_plain_columns
    (validate_underscore_name_format : string -> bool) (s s' : SemanticLayerSchema) :
  validate_schema validate_underscore_name_format s = inr s' ->
  view s <> Some true ->
  source s <> None
  /\ forall n, In n (map column_name (or_empty (columns s))) ->
               is_view_column_name n = false.
Proof.
  intros Hvalid Hview. apply columns_relations_passed in Hvalid.
  revert Hvalid. unfold _validate_columns_relations.
  destruct (negb (length _ =? size _)%nat); [discriminate |].
  assert (Hv : truthy_bool (view s) = false)
    by (destruct (view s) as [[|] |]; [congruence | reflexivity | reflexivity]).
  rewrite Hv. destruct (source s); simpl; [| discriminate].
  destruct (existsb is_view_column_name _) eqn:Hany; [discriminate |].
  intros _. split; [discriminate |].
  intros n Hn. destruct (is_view_column_name n) eqn:Hname; [| reflexivity].
  assert (existsb is_view_column_name (map column_name (or_empty (columns s))) = true)
    by (apply existsb_exists; eauto).
  congruence.
Qed.


(** ** Transformations *)

Lemma validate_required_params_stamped (d : gmap string value) (type : string) :
  validate_required_params (<["_transform_type" := VStr type]> d)
  = if String.eqb type "rename" && negb (truthy (dict_get d "new_name"))
    then raise_ ValueError "rename transformation requires 'new_name' parameter"
    else inr (<["_transform_type" := VStr type]> d).
Proof.
  unfold validate_required_params, dict_get.
  rewrite lookup_insert_eq, lookup_insert_ne by discriminate.
  destruct (String.eqb_spec type "rename") as [-> | Hne].
  - rewrite bool_decide_eq_true_2 by reflexivity. reflexivity.
  - rewrite bool_decide_eq_false_2 by congruence. reflexivity.
Qed.

(** X9: for a supported, non-empty transformation type, the validators
    written in [Transformation] and [TransformationParams] (the type checks
    of pydantic apart) reject the raw input in one case only: the type is
    ["rename"], [params] is a non-empty dictionary, and its [new_name] is
    missing or falsy.  A ["_transform_type"] entry written by the user in
    [params] has no effect, and a rename with [params] absent or empty is
    accepted. *)
Theorem rename_requires_new_name
    (VALID_TRANSFORMATION_TYPES : list string) (values : raw_transformation) (type : string) :
  raw_type values = Some type ->
  type <> EmptyString ->
  py_in type VALID_TRANSFORMATION_TYPES = true ->
  (exists e, validate_transformation VALID_TRANSFORMATION_TYPES values = inl e)
  <-> (type = "rename"
       /\ exists d, raw_params_of values = ParamsDict d
                    /\ d <> ∅
                    /\ truthy (dict_get d "new_name") = false).
Proof.
  intros Htype Hne Hvalid.
  assert (Htruthy : truthy_str (Some type) = true).
  { simpl. apply negb_true_iff, String.eqb_neq. exact Hne. }
  unfold validate_transformation, set_transform_type. rewrite Htype, Htruthy, andb_true_r.
  destruct (raw_params_of values) as [| d |] eqn:Hparams; simpl.
  - rewrite Htype. unfold is_transformation_type_supported. rewrite Hvalid. simpl.
    rewrite Hparams. split; [intros [e [=]] | intros (_ & d & [=] & _)].
  - destruct (bool_decide_reflect (d = ∅)) as [-> | Hd]; simpl.
    + rewrite Htype. unfold is_transformation_type_supported. rewrite Hvalid. simpl.
      rewrite Hparams. unfold validate_required_params, dict_get.
      rewrite !lookup_empty. simpl.
      split; [intros [e [=]] | intros (_ & d & [= <-] & Hd & _); congruence].
    + unfold is_transformation_type_supported. rewrite Hvalid. simpl.
      rewrite validate_required_params_stamped.
      destruct (String.eqb_spec type "rename") as [-> | Hrename]; simpl.
      * destruct (truthy (dict_get d "new_name")) eqn:Hnew; simpl.
        -- split; [intros [e [=]] | intros (_ & d' & [= <-] & _ & H); congruence].
        -- split; [| eauto]. intros _. split; [reflexivity |]. exists d. auto.
      * split; [intros [e [=]] | intros [H _]; congruence].
  - rewrite Htype. unfold is_transformation_type_supported. rewrite Hvalid. simpl.
    rewrite Hparams. split; [intros [e [=]] | intros (_ & d & [=] & _)].
Qed.

End SchemaFacts.

(* ================================================================== *)
(** * Invariants of a turn and of a session *)
(* ================================================================== *)

Module AgentFacts.
Import Exceptions Schema Agent Invariants AgentProofs.

(** ** Rules *)

Section Rules.

Context {A B : Type}.

Lemma transforms_ret (I : World -> Prop) (a : A) : transforms I I (ret a).
Proof. intros w Hw. exact Hw. Qed.

Lemma transforms_raise (I : World -> Prop) (e : exn) : transforms I I (raise (A := A) e).
Proof. intros w Hw. exact Hw. Qed.

Lemma transforms_lift (I : World -> Prop) (r : result A) : transforms I I (lift r).
Proof. intros w Hw. unfold lift. destruct r; exact Hw. Qed.

Lemma transforms_bind (I J K : World -> Prop) (m : M A) (k : A -> M B) :
  transforms I J m ->
  (forall a, transforms J K (k a)) ->
  (forall w, J w -> K w) ->
  transforms I K (bind m k).
Proof.
  intros Hm Hk HJK w Hw. unfold bind.
  specialize (Hm w Hw). destruct (m w) as [[a | e |] w1]; simpl in *.
  - apply Hk, Hm.
  - apply HJK, Hm.
  - apply HJK, Hm.
Qed.

Lemma preserves_bind (I : World -> Prop) (m : M A) (k : A -> M B) :
  preserves I m -> (forall a, preserves I (k a)) -> preserves I (bind m k).
Proof. intros Hm Hk. apply transforms_bind with (J := I); auto. Qed.

Lemma transforms_try_except (I J : World -> Prop)
      (body : M A) (catches : exn -> bool) (handler : exn -> M A) :
  (forall e w, J w -> J (set_exc_info e w)) ->
  transforms I J body ->
  (forall e, transforms J J (handler e)) ->
  transforms I J (try_except body catches handler).
Proof.
  intros Hexc Hbody Hhandler w Hw. unfold try_except.
  specialize (Hbody w Hw). destruct (body w) as [[a | e |] w1]; simpl in *; auto.
  destruct (catches e); simpl; auto.
  specialize (Hhandler e (set_exc_info (Some e) w1) (Hexc _ _ Hbody)).
  destruct (handler e (set_exc_info (Some e) w1)) as [r w2]. simpl in *.
  apply Hexc, Hhandler.
Qed.

End Rules.

(** ** What a turn does not touch *)

Section Stable.

Variable env : Collaborators.
Variable I : World -> Prop.
Hypothesis HI : stable I.

Lemma preserves_log msg : preserves I (log msg).
Proof. intros w Hw. apply (stable_log I HI), Hw. Qed.

Lemma preserves_get_state : preserves I get_state.
Proof. intros w Hw. exact Hw. Qed.

Lemma preserves_format_exc : preserves I (format_exc env).
Proof. intros w Hw. unfold format_exc. destruct (exc_info w); exact Hw. Qed.

Lemma preserves_reraise {A} : preserves I (reraise (A := A)).
Proof. intros w Hw. unfold reraise. destruct (exc_info w); exact Hw. Qed.

Lemma preserves_code_generator prompt : preserves I (code_generator env prompt).
Proof.
  intros w Hw. unfold code_generator.
  assert (H1 : I (emit (GenerateCode prompt) w)) by apply (stable_generate I HI), Hw.
  destruct (gen_last_code _) as [c |], (gen_result _); simpl; auto;
    apply (stable_last_code I HI (Some c) (emit (GenerateCode prompt) w)), H1.
Qed.

Lemma preserves_regenerate code error :
  preserves I (_regenerate_code_after_error env code error).
Proof.
  unfold _regenerate_code_after_error.
  apply preserves_bind; [apply preserves_format_exc |]. intros error_trace.
  apply preserves_bind; [apply preserves_log |]. intros _.
  apply preserves_bind; [apply preserves_get_state |]. intros s.
  apply preserves_code_generator.
Qed.

Lemma preserves_generate_retry_step N attempts exception :
  preserves I (generate_retry_step env N attempts exception).
Proof.
  unfold generate_retry_step.
  apply transforms_try_except; [apply (stable_exc_info I HI) | |].
  - apply preserves_bind; [apply preserves_get_state |]. intros s.
    apply preserves_bind; [apply preserves_regenerate |]. intros code.
    apply transforms_ret.
  - intros e. destruct (N <? S attempts)%nat.
    + apply preserves_bind; [apply preserves_log |]. intros _. apply preserves_reraise.
    + apply preserves_bind; [apply preserves_log |]. intros _. apply transforms_ret.
Qed.

Lemma preserves_generate_retry_loop fuel :
  forall N attempts exception,
    preserves I (generate_retry_loop env fuel N attempts exception).
Proof.
  induction fuel as [| fuel IH]; intros N attempts exception; simpl.
  - intros w Hw. exact Hw.
  - destruct (attempts <=? N)%nat; [| apply transforms_ret].
    apply preserves_bind; [apply preserves_generate_retry_step |].
    intros [code | [attempts' exception']]; [apply transforms_ret | apply IH].
Qed.

Lemma preserves_execute_code code : preserves I (execute_code env code).
Proof.
  unfold execute_code.
  apply preserves_bind; [apply preserves_log |]. intros _ w Hw.
  pose proof (stable_execute I HI code w Hw) as H1.
  destruct (_sandbox w); apply transforms_lift, H1.
Qed.

Lemma preserves_parse result code : preserves I (parse env result code).
Proof.
  unfold parse.
  apply preserves_bind; [intros w Hw; apply (stable_parse I HI), Hw |]. intros _.
  apply preserves_bind; [apply transforms_lift |]. intros value.
  apply transforms_ret.
Qed.

Lemma preserves_execute_and_parse code : preserves I (execute_and_parse env code).
Proof.
  unfold execute_and_parse.
  apply preserves_bind; [apply preserves_execute_code |]. intros result.
  apply preserves_parse.
Qed.

Lemma preserves_execute_retry_step N attempts code :
  preserves I (execute_retry_step env N attempts code).
Proof.
  unfold execute_retry_step.
  apply transforms_try_except; [apply (stable_exc_info I HI) | |].
  - apply preserves_bind; [apply preserves_execute_and_parse |]. intros response.
    apply transforms_ret.
  - intros e. destruct (N <? S attempts)%nat.
    + apply preserves_bind; [apply preserves_log |]. intros _. apply preserves_reraise.
    + apply preserves_bind; [apply preserves_log |]. intros _.
      apply preserves_bind; [apply preserves_regenerate |]. intros code'.
      apply transforms_ret.
Qed.

Lemma preserves_execute_retry_loop fuel :
  forall N attempts code,
    preserves I (execute_retry_loop env fuel N attempts code).
Proof.
  induction fuel as [| fuel IH]; intros N attempts code; simpl.
  - intros w Hw. exact Hw.
  - destruct (attempts <=? N)%nat; [| apply transforms_ret].
    apply preserves_bind; [apply preserves_execute_retry_step |].
    intros [response | [attempts' code']]; [apply transforms_ret | apply IH].
Qed.

Lemma preserves_execute_with_retries code :
  preserves I (execute_with_retries env code).
Proof.
  unfold execute_with_retries.
  apply preserves_bind; [apply preserves_get_state |]. intros s.
  apply preserves_execute_retry_loop.
Qed.

Lemma preserves_assign_prompt_id : preserves I assign_prompt_id.
Proof.
  intros w Hw. unfold assign_prompt_id. simpl.
  apply (stable_log I HI), (stable_next_prompt_id I HI), (stable_prompt_id I HI), Hw.
Qed.

Lemma preserves_handle_exception code : preserves I (_handle_exception env code).
Proof.
  unfold _handle_exception.
  apply preserves_bind; [apply preserves_format_exc |]. intros error_message.
  apply preserves_bind; [apply preserves_log |]. intros _.
  apply transforms_ret.
Qed.

Lemma preserves_prelude query expected :
  preserves I (process_query_prelude query expected).
Proof.
  unfold process_query_prelude.
  apply preserves_bind; [apply preserves_log |]. intros _.
  apply preserves_bind; [apply preserves_get_state |]. intros s.
  apply preserves_bind.
  - destruct (llm (config s)); [apply preserves_log | apply transforms_raise].
  - intros _ w Hw. apply (stable_output_type I HI), Hw.
Qed.

(** The response phase of a turn: running the code, the final log line. *)
Lemma preserves_response_phase code :
  preserves I (result <- execute_with_retries env code;;
               log "Response generated successfully.";;
               ret result).
Proof.
  apply preserves_bind; [apply preserves_execute_with_retries |]. intros result.
  apply preserves_bind; [apply preserves_log |]. intros _.
  apply transforms_ret.
Qed.

End Stable.

(** ** From the first request of a turn to the whole turn *)

Section Turn.

Variable env : Collaborators.
Variables I J : World -> Prop.
Hypothesis HI : stable I.
Hypothesis HJ : stable J.
Variable query : string.
Hypothesis first_request : transforms I J (generate_code env query).

Lemma transforms_generate_code_with_retries :
  transforms I J (generate_code_with_retries env query).
Proof.
  unfold generate_code_with_retries. intros w Hw.
  change (bind get_state ?k w) with (k (_state w) w). cbv beta.
  refine (transforms_try_except I J _ _ _ (stable_exc_info J HJ) first_request _ w Hw).
  intros e. apply (preserves_generate_retry_loop env J HJ).
Qed.

Lemma transforms_guarded : transforms I J (process_query_guarded env query).
Proof.
  intros w Hw. unfold process_query_guarded, process_query_try.
  pose proof (preserves_assign_prompt_id I HI w Hw) as H0.
  change ((assign_prompt_id;; generate_code_with_retries env query) w)
    with (generate_code_with_retries env query (snd (assign_prompt_id w))).
  pose proof (transforms_generate_code_with_retries _ H0) as H1.
  destruct (generate_code_with_retries env query (snd (assign_prompt_id w)))
    as [[code | e |] w1]; simpl in H1.
  - pose proof (preserves_response_phase env J HJ code w1 H1) as H2.
    unfold try_except.
    destruct ((result <- execute_with_retries env code;;
               log "Response generated successfully.";; ret result) w1)
      as [[r | e |] w2]; cbn [snd] in H2 |- *; auto.
    destruct (is_CodeExecutionError e); [| exact H2].
    pose proof (preserves_handle_exception env J HJ code (set_exc_info (Some e) w2)
                  (stable_exc_info J HJ _ _ H2)) as H3.
    destruct (_handle_exception env code (set_exc_info (Some e) w2)) as [r w3].
    cbn [snd] in H3 |- *. apply (stable_exc_info J HJ), H3.
  - unfold try_except. destruct (is_CodeExecutionError e); [| exact H1].
    unfold raise. cbn [snd].
    apply (stable_exc_info J HJ), (stable_exc_info J HJ), H1.
  - exact H1.
Qed.

(** With a language model configured, a turn goes from [I] to [J]. *)
Lemma transforms_process_query expected w l :
  llm (config (_state w)) = Some l ->
  I w ->
  J (snd (_process_query env query expected w)).
Proof.
  intros Hl Hw.
  assert (E : _process_query env query expected w
              = process_query_guarded env query
                  (snd (process_query_prelude query expected w))).
  { unfold _process_query, bind at 1, process_query_prelude, bind, log, tell,
      get_state, modify_state. simpl. rewrite Hl. reflexivity. }
  rewrite E. apply transforms_guarded.
  apply (preserves_prelude I HI), Hw.
Qed.

End Turn.

Lemma preserves_process_query env I (HI : stable I) query expected :
  preserves I (generate_code env query) ->
  preserves I (_process_query env query expected).
Proof.
  intros Hgen. unfold _process_query.
  apply preserves_bind; [apply (preserves_prelude I HI) |]. intros _.
  apply (transforms_guarded env I I HI HI query Hgen).
Qed.

(** ** The first request of a turn *)

Section FirstRequest.

Variable env : Collaborators.
Variables I J : World -> Prop.
Hypothesis HJ : stable J.
Variable query : string.
Hypothesis J_question : forall w, I w -> J (snd (memory_add query true w)).
Hypothesis J_chat_prompt : forall s w,
    J w -> J (set_state (with_last_prompt_used (Some (get_chat_prompt_for_sql s)) (_state w)) w).

Lemma transforms_generate_code : transforms I J (generate_code env query).
Proof.
  unfold generate_code.
  apply transforms_bind with (J := J); [exact J_question | | auto]. intros _.
  apply preserves_bind; [apply (preserves_log J HJ) |]. intros _.
  apply preserves_bind; [apply preserves_get_state |]. intros s.
  apply preserves_bind; [apply (preserves_code_generator env J HJ) |]. intros code.
  apply preserves_bind; [| intros _; apply transforms_ret].
  intros w Hw. apply J_chat_prompt, Hw.
Qed.

End FirstRequest.

(** ** Sessions *)

Section Session.

Variable env : Collaborators.
Variable I : World -> Prop.
Hypothesis HI : stable I.
Hypothesis I_memory : forall m w, I w -> I (set_state (with_memory m (_state w)) w).
Hypothesis I_chat_prompt : forall s w,
    I w -> I (set_state (with_last_prompt_used (Some (get_chat_prompt_for_sql s)) (_state w)) w).
Hypothesis I_duckdb : forall d w, I w -> I (set_duckdb d w).
Hypothesis I_register : forall table w, I w -> I (emit (DuckDbRegister table) w).
Hypothesis I_duckdb_sql : forall q w, I w -> I (emit (DuckDbSql q) w).
Hypothesis I_delegate : forall df q w, I w -> I (emit (DelegateSql df q) w).

Lemma preserves_turn query expected :
  preserves I (_process_query env query expected).
Proof.
  apply (preserves_process_query env I HI).
  apply (transforms_generate_code env I I HI query); auto.
  intros w Hw. apply I_memory, Hw.
Qed.

Lemma preserves_register_loop l :
  forall m ex, preserves I (register_loop l m ex).
Proof.
  induction l as [| df l IH]; intros m ex; simpl.
  - apply transforms_ret.
  - destruct (query_builder df); [apply IH |].
    apply preserves_bind; [| intros _; apply IH].
    intros w Hw. apply I_register, I_duckdb, Hw.
Qed.

Lemma preserves_execute_sql_query query :
  preserves I (_execute_sql_query env query).
Proof.
  unfold _execute_sql_query.
  apply preserves_bind; [apply preserves_get_state |]. intros s.
  destruct (dfs s) as [| df0 l]; [apply transforms_raise |].
  apply preserves_bind; [apply preserves_register_loop |]. intros [table_mapping df_executor].
  apply preserves_bind; [apply transforms_lift |]. intros final_query.
  destruct df_executor as [df |]; intros w Hw.
  - unfold df_executor_call. apply (transforms_lift I), I_delegate, Hw.
  - unfold db_sql. apply (transforms_lift I), I_duckdb_sql, Hw.
Qed.

Lemma session_step_preserves w w' : session_step env w w' -> I w -> I w'.
Proof.
  intros [query expected | query expected | query | msg user |] Hw.
  - unfold chat. change (bind get_state ?k w) with (k (_state w) w). cbv beta.
    destruct (llm (config (_state w))); [| exact Hw].
    apply preserves_bind; [| intros _; apply preserves_turn | exact Hw].
    intros w0 Hw0. apply I_memory, Hw0.
  - apply preserves_turn, Hw.
  - apply preserves_execute_sql_query, Hw.
  - apply I_memory, Hw.
  - apply I_memory, Hw.
Qed.

Lemma reachable_preserves w w' : reachable env w w' -> I w -> I w'.
Proof.
  induction 1 as [| w1 w2 w3 Hstep _ IH]; [auto |].
  intros Hw. apply IH, (session_step_preserves w1 w2 Hstep Hw).
Qed.

End Session.

Lemma misrouted_cons b ev t :
  count_events (is_misrouted b) (ev :: t)
  = (cost (is_misrouted b) ev + count_events (is_misrouted b) t)%nat.
Proof. unfold count_events, cost. simpl. destruct (is_misrouted b ev); reflexivity. Qed.

Lemma stable_same_routing w0 : stable (same_routing w0).
Proof.
  split; try (intros ? w H; exact H); try (intros ? ? w H; exact H).
  intros c w (Hs & Hc). split; [exact Hs |].
  destruct Hs as (_ & _ & Hb).
  change (trace (emit (ExecuteCode (_sandbox w) c) w))
    with (ExecuteCode (_sandbox w) c :: trace w).
  rewrite misrouted_cons, Hc, Hb. unfold cost. simpl.
  now rewrite Bool.eqb_reflx.
Qed.

Lemma reachable_same_routing env w w' : reachable env w w' -> same_routing w w'.
Proof.
  intros Hr.
  refine (reachable_preserves env (same_routing w) (stable_same_routing w)
            (fun _ _ H => H) (fun _ _ H => H) (fun _ _ H => H) (fun _ _ H => H)
            (fun _ _ H => H) (fun _ _ _ H => H) w w' Hr _).
  repeat split.
Qed.

Lemma reachable_extends env w w' :
  reachable env w w' -> exists new, trace w' = new ++ trace w.
Proof.
  induction 1 as [w | w1 w2 w3 Hstep _ (new & IH)]; [exists []; reflexivity |].
  assert (Hstep' : exists evs, trace w2 = evs ++ trace w1).
  { assert (Hturn : forall query expected w0,
               exists evs, trace (snd (_process_query env query expected w0)) = evs ++ trace w0).
    { intros query expected w0.
      destruct (AgentProofs.silent_process_query env no_event (fun _ => eq_refl)
                  (fun _ _ => eq_refl) (fun _ => eq_refl) (fun _ _ => eq_refl)
                  query expected w0) as (evs & Ht & _).
      now exists evs. }
    destruct Hstep as [query expected | query expected | query | msg user |].
    - unfold chat. change (bind get_state ?k w1) with (k (_state w1) w1). cbv beta.
      destruct (llm (config (_state w1))); [| exists []; reflexivity].
      unfold start_new_conversation, clear_memory, bind at 1, modify_state.
      exact (Hturn query expected (set_state (with_memory [] (_state w1)) w1)).
    - apply Hturn.
    - destruct (AgentProofs.execute_sql_query_trace env query w1) as (evs & Ht & _).
      now exists evs.
    - exists []. reflexivity.
    - exists []. reflexivity. }
  destruct Hstep' as (evs & Hevs).
  exists (new ++ evs). now rewrite IH, Hevs, app_assoc.
Qed.

(** X10: whatever a session does (chat, follow_up, _execute_sql_query,
    add_message, clear_memory, in any order and number), the agent keeps
    the datasets, the configuration and the sandbox setting it started
    with. *)
Theorem session_keeps_its_setup (env : Collaborators) (w w' : World) :
  reachable env w w' ->
  dfs (_state w') = dfs (_state w)
  /\ config (_state w') = config (_state w)
  /\ _sandbox w' = _sandbox w.
Proof. intros Hr. exact (proj1 (reachable_same_routing env w w' Hr)). Qed.

(** X11: generated code runs where the sandbox setting says, during the
    whole session: every run that a session adds to the trace is a sandbox
    run when the agent was given a sandbox, and a local run when it was
    not. *)
Theorem runs_follow_the_sandbox_setting (env : Collaborators) (w w' : World) :
  reachable env w w' ->
  exists new,
    trace w' = new ++ trace w
    /\ forall sandboxed code, In (ExecuteCode sandboxed code) new -> sandboxed = _sandbox w.
Proof.
  intros Hr.
  destruct (reachable_extends env w w' Hr) as (new & Hnew).
  destruct (reachable_same_routing env w w' Hr) as (_ & Hcount).
  exists new. split; [exact Hnew |].
  rewrite Hnew, AgentProofs.count_events_app in Hcount.
  assert (H0 : count_events (is_misrouted (_sandbox w)) new = 0%nat) by lia.
  clear - H0. induction new as [| ev new IH]; intros sandboxed code; [intros [] |].
  rewrite misrouted_cons in H0.
  intros [-> | Hin].
  - unfold cost in H0. simpl in H0.
    destruct sandboxed, (_sandbox w); simpl in H0; try reflexivity; lia.
  - apply (IH ltac:(lia) sandboxed code Hin).
Qed.

(** ** Memory and the recorded prompt *)

Lemma stable_memory m : stable (fun w => memory (_state w) = m).
Proof. split; try (intros ? w H; exact H); try (intros ? ? w H; exact H). Qed.

(** X12: with a language model configured, a turn adds to the memory the
    question of the user and nothing else, whatever the outcome of the turn
    and however many corrections it took: after [follow_up] the memory is
    the previous one followed by the question, after [chat] it is the
    question alone.  The answer of the agent is not recorded. *)
Theorem turn_records_the_question_only
    (env : Collaborators) (query : string) (expected : option string) (w : World) (l : LLM) :
  llm (config (_state w)) = Some l ->
  memory (_state (snd (follow_up env query expected w)))
  = memory (_state w) ++ [user_message query]
  /\ memory (_state (snd (chat env query expected w))) = [user_message query].
Proof.
  intros Hl.
  assert (Hturn : forall w0 l0,
             llm (config (_state w0)) = Some l0 ->
             memory (_state (snd (_process_query env query expected w0)))
             = memory (_state w0) ++ [user_message query]).
  { intros w0 l0 Hl0.
    apply (transforms_process_query env
             (fun w' => memory (_state w') = memory (_state w0))
             (fun w' => memory (_state w') = memory (_state w0) ++ [user_message query])
             (stable_memory _) (stable_memory _) query) with (l := l0);
      [| exact Hl0 | reflexivity].
    apply transforms_generate_code; [apply stable_memory | |].
    - intros w1 H1. simpl. now rewrite H1.
    - intros s w1 H1. exact H1. }
  split.
  - apply (Hturn w l Hl).
  - unfold chat. change (bind get_state ?k w) with (k (_state w) w). cbv beta.
    rewrite Hl.
    unfold start_new_conversation, clear_memory, bind at 1, modify_state.
    apply (Hturn (set_state (with_memory [] (_state w)) w) l Hl).
Qed.

Lemma stable_last_prompt_used p : stable (fun w => last_prompt_used (_state w) = p).
Proof. split; try (intros ? w H; exact H); try (intros ? ? w H; exact H). Qed.

Lemma generate_code_outcome (env : Collaborators) query w :
  let asked := snd (memory_add query true w) in
  let prompt := get_chat_prompt_for_sql (_state asked) in
  match generate_code env query w with
  | (Ok _, w1) => last_prompt_used (_state w1) = Some prompt
  | (_, w1) => last_prompt_used (_state w1) = last_prompt_used (_state w)
  end.
Proof.
  unfold generate_code, bind, memory_add, modify_state, log, tell, get_state,
    code_generator, ret. simpl.
  destruct (gen_last_code _), (gen_result _); reflexivity.
Qed.

(** X13: [last_prompt_used] records the first request of the generation
    phase, if it succeeded, and nothing otherwise: when the first request
    fails, [generate_code_with_retries] leaves [last_prompt_used] as it
    found it, also when a correction request then produces the code that is
    returned; when it succeeds, [last_prompt_used] is the chat prompt built
    on the memory extended with the question. *)
Theorem last_prompt_used_is_the_first_request
    (env : Collaborators) (query : string) (w : World) :
  let after := snd (generate_code_with_retries env query w) in
  (forall e w1,
      generate_code env query w = (Raise e, w1) ->
      last_prompt_used (_state after) = last_prompt_used (_state w))
  /\ (forall code w1,
        generate_code env query w = (Ok code, w1) ->
        last_prompt_used (_state after)
        = Some (ChatPromptForSql
                  {| ctx_memory := memory (_state w) ++ [user_message query];
                     ctx_output_type := output_type (_state w) |})).
Proof.
  cbv zeta. pose proof (generate_code_outcome env query w) as Hout. cbv zeta in Hout.
  unfold generate_code_with_retries.
  change (bind get_state ?k w) with (k (_state w) w). cbv beta.
  unfold try_except.
  split.
  - intros e w1 Hgen. rewrite Hgen in Hout |- *.
    destruct (is_Exception e); [| exact Hout].
    pose proof (preserves_generate_retry_loop env _
                  (stable_last_prompt_used (last_prompt_used (_state w)))
                  (S (max_retries (config (_state w)))) (max_retries (config (_state w)))
                  0%nat e (set_exc_info (Some e) w1) Hout) as Hloop.
    destruct (generate_retry_loop _ _ _ _ _ _) as [r w2]. exact Hloop.
  - intros code w1 Hgen. rewrite Hgen in Hout |- *. exact Hout.
Qed.

Lemma stable_records_chat_prompt : stable records_chat_prompt.
Proof. split; try (intros ? w H; exact H); try (intros ? ? w H; exact H). Qed.

(** X14: in a session, [last_prompt_used] is never a correction request: if
    it is unset or a chat prompt at some point (as it is after
    construction), it is unset or a chat prompt in every state the session
    reaches. *)
Theorem last_prompt_used_is_never_a_correction (env : Collaborators) (w w' : World) :
  reachable env w w' ->
  records_chat_prompt w ->
  records_chat_prompt w'.
Proof.
  intros Hr Hw.
  refine (reachable_preserves env records_chat_prompt stable_records_chat_prompt
            (fun _ _ H => H) _ (fun _ _ H => H) (fun _ _ H => H)
            (fun _ _ H => H) (fun _ _ _ H => H) w w' Hr Hw).
  intros s w0 _. reflexivity.
Qed.

(** ** The cost of a turn *)

Lemma effect_at_bind_at {A B} p (n k : nat) (Q : A -> Prop) (R : B -> Prop)
      (m : M A) (f : A -> M B) w :
  effect_at p n Q m w ->
  (forall a, fst (m w) = Ok a -> Q a -> effect_at p k R (f a) (snd (m w))) ->
  effect_at p (n + k) R (bind m f) w.
Proof.
  intros (evs & Ht & Hc & Hr) Hf. unfold effect_at, bind in *.
  destruct (m w) as [[a | e |] w1]; simpl in *.
  - destruct (Hf a eq_refl Hr) as (evs' & Ht' & Hc' & Hr').
    exists (evs' ++ evs).
    rewrite Ht', Ht, app_assoc, AgentProofs.count_events_app.
    repeat split; [lia | exact Hr'].
  - exists evs. repeat split; [exact Ht | lia].
  - contradiction.
Qed.

Lemma stable_config c : stable (fun w => config (_state w) = c).
Proof. split; try (intros ? w H; exact H); try (intros ? ? w H; exact H). Qed.

Lemma generate_code_keeps_config env query c :
  preserves (fun w => config (_state w) = c) (generate_code env query).
Proof.
  apply transforms_generate_code; [apply stable_config | |].
  - intros w H. exact H.
  - intros s w H. exact H.
Qed.

Section TurnCost.

Variable env : Collaborators.
Variable p : Event -> bool.
Variables cg ce : nat.
Hypothesis p_log : forall msg, p (Log msg) = false.
Hypothesis p_parse : forall r c, p (ParseResult r c) = false.
Hypothesis p_generate : forall prompt, (cost p (GenerateCode prompt) <= cg)%nat.
Hypothesis p_execute : forall b c, (cost p (ExecuteCode b c) <= ce)%nat.

Lemma response_phase_cost code w :
  let N := max_retries (config (_state w)) in
  effect_at p (S N * ce + N * cg) (fun _ => True)
    (result <- execute_with_retries env code;;
     log "Response generated successfully.";;
     ret result) w.
Proof.
  cbv zeta.
  eapply effect_at_weaken with (Q := fun _ => True)
    (n := ((S (max_retries (config (_state w))) * ce
            + max_retries (config (_state w)) * cg) + (0 + 0))%nat); [| lia | auto].
  eapply effect_at_bind with (Q := fun _ => True).
  - apply (AgentProofs.effect_execute_with_retries env p cg ce
             p_log p_parse p_generate p_execute).
  - intros result w1 _.
    eapply effect_at_bind; [apply (AgentProofs.effect_log p p_log) |]. intros _ w2 _.
    apply effect_at_ret. exact Logic.I.
Qed.

Lemma guarded_cost query w :
  effect_at p (turn_cost cg ce (max_retries (config (_state w)))) (fun _ => True)
    (process_query_guarded env query) w.
Proof.
  set (N := max_retries (config (_state w))).
  set (w0 := snd (assign_prompt_id w)).
  assert (Ht0 : trace w0 = [Log ("Prompt ID: " +:+ str_nat (next_prompt_id w))] ++ trace w)
    by reflexivity.
  destruct (AgentProofs.effect_generate_code_with_retries env p cg p_log p_generate query w0)
    as (evs & Ht & Hc & Hr).
  change (max_retries (config (_state w0))) with N in Hc.
  pose proof (transforms_generate_code_with_retries env _ _
                (stable_config (config (_state w)))
                query (generate_code_keeps_config env query _) w0 eq_refl) as Hcfg.
  assert (Hlog : count_events p [Log ("Prompt ID: " +:+ str_nat (next_prompt_id w))] = 0%nat).
  { rewrite AgentProofs.count_events_cons, AgentProofs.count_events_nil.
    unfold cost. now rewrite p_log. }
  assert (E : process_query_guarded env query w
              = let (code, out) :=
                  match generate_code_with_retries env query w0 with
                  | (Ok code, w1) =>
                      (Some code,
                       (result <- execute_with_retries env code;;
                        log "Response generated successfully.";;
                        ret result) w1)
                  | (Raise e, w1) => (None, (Raise e, w1))
                  | (OutOfFuel, w1) => (None, (OutOfFuel, w1))
                  end in
                try_except (fun _ => out) is_CodeExecutionError
                  (fun _ =>
                     match code with
                     | Some code => _handle_exception env code
                     | None =>
                         raise (mk_exn UnboundLocalError
                                  "cannot access local variable 'code' where it is not associated with a value")
                     end) w) by reflexivity.
  destruct (generate_code_with_retries env query w0) as [[code | e |] w1];
    cbn [fst snd] in Ht, Hr, Hcfg; [| | contradiction].
  - destruct (response_phase_cost code w1) as (evs' & Ht' & Hc' & Hr').
    rewrite Hcfg in Hc'. fold N in Hc'.
    eapply (AgentProofs.effect_at_eq p); [exact E |]. cbv zeta beta iota.
    eapply effect_at_weaken with (Q := fun _ => True)
      (n := (turn_cost cg ce N + 0)%nat); [| lia | auto].
    apply effect_at_try_except.
    + exists (evs' ++ evs ++ [Log ("Prompt ID: " +:+ str_nat (next_prompt_id w))]).
      cbv beta. rewrite Ht', Ht, Ht0, <- !app_assoc.
      rewrite !AgentProofs.count_events_app, Hlog.
      repeat split; [unfold turn_cost; lia | exact Hr'].
    + intros e w2 _. apply (AgentProofs.silent_handle_exception env p p_log).
  - eapply (AgentProofs.effect_at_eq p); [exact E |]. cbv zeta beta iota.
    eapply effect_at_weaken with (Q := fun _ => True)
      (n := (turn_cost cg ce N + 0)%nat); [| lia | auto].
    apply effect_at_try_except.
    + exists (evs ++ [Log ("Prompt ID: " +:+ str_nat (next_prompt_id w))]).
      cbv beta. simpl fst. simpl snd. rewrite Ht, Ht0, <- !app_assoc.
      rewrite !AgentProofs.count_events_app, Hlog.
      repeat split. unfold turn_cost. lia.
    + intros e' w2 _. apply effect_at_raise.
Qed.

Lemma process_query_cost query expected w :
  effect_at p (turn_cost cg ce (max_retries (config (_state w)))) (fun _ => True)
    (_process_query env query expected) w.
Proof.
  unfold _process_query.
  eapply effect_at_weaken with (Q := fun _ => True)
    (n := (0 + turn_cost cg ce (max_retries (config (_state w))))%nat); [| lia | auto].
  apply effect_at_bind_at with (Q := fun _ => True).
  - apply (AgentProofs.silent_prelude p p_log).
  - intros _ _ _.
    pose proof (preserves_prelude _ (stable_config (config (_state w))) query expected
                  w eq_refl) as Hcfg.
    cbv beta in Hcfg. rewrite <- Hcfg. apply guarded_cost.
Qed.

Lemma chat_cost query expected w :
  effect_at p (turn_cost cg ce (max_retries (config (_state w)))) (fun _ => True)
    (chat env query expected) w.
Proof.
  unfold chat. unfold effect_at.
  change (bind get_state ?k w) with (k (_state w) w). cbv beta.
  destruct (llm (config (_state w))).
  - unfold start_new_conversation, clear_memory, bind at 1 2, modify_state.
    apply (process_query_cost query expected (set_state (with_memory [] (_state w)) w)).
  - exists []. repeat split. apply Nat.le_0_l.
Qed.

End TurnCost.

Lemma within_budget_of_effects w (out : Res Response * World) :
  let N := max_retries (config (_state w)) in
  (exists evs, trace (snd out) = evs ++ trace w
               /\ (count_events is_generate evs <= 2 * N + 2)%nat
               /\ match fst out with OutOfFuel => False | _ => True end) ->
  (exists evs, trace (snd out) = evs ++ trace w
               /\ (count_events is_execute evs <= N + 1)%nat
               /\ match fst out with OutOfFuel => False | _ => True end) ->
  within_budget w out.
Proof.
  intros N (evs & Ht & Hc & Hr) (evs' & Ht' & Hc' & _).
  unfold within_budget, count_generate, count_execute. fold N.
  split; [intros E; rewrite E in Hr; exact Hr |].
  split.
  - rewrite Ht, AgentProofs.count_events_app. lia.
  - rewrite Ht', AgentProofs.count_events_app. lia.
Qed.

(** X15: a turn always comes to an end, and its cost is bounded by the
    retry budget N = [config.max_retries] read when the turn starts: whatever
    the language model, the executor and the parser do, [follow_up] and
    [chat] return or raise after at most 2N + 2 calls of the code generator
    (N + 2 in the generation phase, N in the execution phase) and at most
    N + 1 runs of generated code. *)
Theorem turn_stays_within_budget
    (env : Collaborators) (query : string) (expected : option string) (w : World) :
  within_budget w (follow_up env query expected w)
  /\ within_budget w (chat env query expected w).
Proof.
  assert (Hg : forall prompt, (cost is_generate (GenerateCode prompt) <= 1)%nat)
    by (intros; apply AgentProofs.cost_le_1).
  assert (Hg0 : forall b c, (cost is_generate (ExecuteCode b c) <= 0)%nat)
    by (intros; reflexivity).
  assert (He : forall b c, (cost is_execute (ExecuteCode b c) <= 1)%nat)
    by (intros; apply AgentProofs.cost_le_1).
  assert (He0 : forall prompt, (cost is_execute (GenerateCode prompt) <= 0)%nat)
    by (intros; reflexivity).
  split; apply within_budget_of_effects.
  - destruct (process_query_cost env is_generate 1 0 (fun _ => eq_refl) (fun _ _ => eq_refl)
                Hg Hg0 query expected w) as (evs & Ht & Hc & Hr).
    exists evs. unfold turn_cost in Hc. repeat split; [exact Ht | lia |].
    unfold follow_up. destruct (fst _); auto.
  - destruct (process_query_cost env is_execute 0 1 (fun _ => eq_refl) (fun _ _ => eq_refl)
                He0 He query expected w) as (evs & Ht & Hc & Hr).
    exists evs. unfold turn_cost in Hc. repeat split; [exact Ht | lia |].
    unfold follow_up. destruct (fst _); auto.
  - destruct (chat_cost env is_generate 1 0 (fun _ => eq_refl) (fun _ _ => eq_refl)
                Hg Hg0 query expected w) as (evs & Ht & Hc & Hr).
    exists evs. unfold turn_cost in Hc. repeat split; [exact Ht | lia |].
    destruct (fst _); auto.
  - destruct (chat_cost env is_execute 0 1 (fun _ => eq_refl) (fun _ _ => eq_refl)
                He0 He query expected w) as (evs & Ht & Hc & Hr).
    exists evs. unfold turn_cost in Hc. repeat split; [exact Ht | lia |].
    destruct (fst _); auto.
Qed.

(** ** Corrections *)

Lemma regenerate_keeps_exc_info (env : Collaborators) code error w :
  exc_info (snd (_regenerate_code_after_error env code error w)) = exc_info w.
Proof.
  unfold _regenerate_code_after_error, bind, format_exc, log, tell, get_state,
    code_generator.
  destruct (exc_info w) eqn:Hexc; simpl;
    destruct (gen_last_code _), (gen_result _); simpl; now rewrite ?Hexc.
Qed.

Lemma regenerate_carries_traceback (env : Collaborators) code error handled w :
  exc_info w = Some handled ->
  exists prompt,
    prompts_of (trace (snd (_regenerate_code_after_error env code error w)))
    = prompt :: prompts_of (trace w)
    /\ carries_traceback (format_traceback env handled) prompt.
Proof.
  intros Hexc. rewrite (regenerate_request env code error handled w Hexc).
  destruct (isinstance error InvalidLLMOutputType);
    eexists; (split; [reflexivity | exists code; reflexivity]).
Qed.

Lemma generate_retry_step_carries_traceback
      (env : Collaborators) N attempts exception handled w :
  exc_info w = Some handled ->
  let out := generate_retry_step env N attempts exception w in
  exc_info (snd out) = Some handled
  /\ exists prompt,
       prompts_of (trace (snd out)) = prompt :: prompts_of (trace w)
       /\ carries_traceback (format_traceback env handled) prompt.
Proof.
  intros Hexc. cbv zeta.
  destruct (regenerate_carries_traceback env (last_code_generated (_state w)) exception
              handled w Hexc) as (prompt & Hp & Hcarry).
  pose proof (regenerate_keeps_exc_info env (last_code_generated (_state w)) exception w)
    as Hkeep.
  rewrite generate_retry_step_unfold.
  destruct (_regenerate_code_after_error env (last_code_generated (_state w)) exception w)
    as [[code | e |] w1]; cbn [fst snd] in Hp, Hkeep |- *.
  - split; [congruence | exists prompt; auto].
  - destruct (is_Exception e); [destruct (N <? S attempts)%nat |]; cbn [fst snd];
      (split; [simpl; congruence | exists prompt; auto]).
  - split; [congruence | exists prompt; auto].
Qed.

Lemma generate_retry_loop_carries_traceback (env : Collaborators) handled fuel :
  forall N attempts exception w,
    exc_info w = Some handled ->
    exists corrections,
      prompts_of (trace (snd (generate_retry_loop env fuel N attempts exception w)))
      = corrections ++ prompts_of (trace w)
      /\ Forall (carries_traceback (format_traceback env handled)) corrections.
Proof.
  induction fuel as [| fuel IH]; intros N attempts exception w Hexc; simpl.
  - exists []. split; [reflexivity | constructor].
  - destruct (attempts <=? N)%nat; [| exists []; split; [reflexivity | constructor]].
    destruct (generate_retry_step_carries_traceback env N attempts exception handled w Hexc)
      as (Hexc1 & prompt & Hp & Hcarry).
    unfold bind.
    destruct (generate_retry_step env N attempts exception w)
      as [[[code | [attempts' exception']] | e |] w1]; cbn [fst snd] in Hexc1, Hp |- *.
    + exists [prompt]. split; [exact Hp | repeat constructor; exact Hcarry].
    + destruct (IH N attempts' exception' w1 Hexc1) as (more & Hmore & Hall).
      exists (more ++ [prompt]). rewrite Hmore, Hp, <- app_assoc.
      split; [reflexivity |].
      apply Forall_app. split; [exact Hall | repeat constructor; exact Hcarry].
    + exists [prompt]. split; [exact Hp | repeat constructor; exact Hcarry].
    + exists [prompt]. split; [exact Hp | repeat constructor; exact Hcarry].
Qed.

(** X16: in the generation phase every correction request reports the
    failure of the first request.  When [generate_code] raises [e0], the
    retry loop runs inside the handler of [e0]: whatever later corrections
    raise, the traceback attached to each correction request sent by
    [generate_code_with_retries] is the one of [e0], and at least one such
    request is sent. *)
Theorem generation_corrections_report_the_first_failure
    (env : Collaborators) (query : string) (w : World) (e0 : exn) (w1 : World) :
  generate_code env query w = (Raise e0, w1) ->
  is_Exception e0 = true ->
  exists corrections,
    prompts_of (trace (snd (generate_code_with_retries env query w)))
    = corrections ++ prompts_of (trace w1)
    /\ corrections <> []
    /\ Forall (carries_traceback (format_traceback env e0)) corrections.
Proof.
  intros Hgen Hexn.
  unfold generate_code_with_retries.
  change (bind get_state ?k w) with (k (_state w) w). cbv beta.
  unfold try_except. rewrite Hgen, Hexn.
  set (N := max_retries (config (_state w))).
  set (w2 := set_exc_info (Some e0) w1).
  assert (Hexc : exc_info w2 = Some e0) by reflexivity.
  change (generate_retry_loop env (S N) N 0 e0 w2)
    with ((step <- generate_retry_step env N 0 e0;;
           match step with
           | Return code => ret code
           | Continue (attempts, exception) =>
               generate_retry_loop env N N attempts exception
           end) w2).
  destruct (generate_retry_step_carries_traceback env N 0 e0 e0 w2 Hexc)
    as (Hexc1 & prompt & Hp & Hcarry).
  unfold bind.
  destruct (generate_retry_step env N 0 e0 w2)
    as [[[code | [attempts' exception']] | e |] w3]; cbn [fst snd] in Hexc1, Hp |- *;
    try (exists [prompt]; split; [exact Hp |];
         split; [discriminate | repeat constructor; exact Hcarry]).
  destruct (generate_retry_loop_carries_traceback env e0 N N attempts' exception' w3 Hexc1)
    as (more & Hmore & Hall).
  exists (more ++ [prompt]).
  destruct (generate_retry_loop env N N attempts' exception' w3) as [r w4].
  cbn [fst snd] in Hmore |- *.
  change (trace (set_exc_info (exc_info w1) w4)) with (trace w4).
  rewrite Hmore, Hp, <- app_assoc.
  split; [reflexivity |].
  split; [destruct more; discriminate |].
  apply Forall_app. split; [exact Hall | repeat constructor; exact Hcarry].
Qed.

Lemma regenerate_when_down (env : Collaborators) code error down w :
  generator_fails_with env down ->
  exists w',
    _regenerate_code_after_error env code error w = (Raise down, w')
    /\ count_execute (trace w') = count_execute (trace w)
    /\ count_generate (trace w') = S (count_generate (trace w)).
Proof.
  intros Hdown.
  unfold _regenerate_code_after_error, bind, format_exc, log, tell, get_state,
    code_generator.
  destruct (exc_info w); cbv beta iota; rewrite Hdown;
    destruct (gen_last_code _); eexists; (split; [reflexivity | split; reflexivity]).
Qed.

(** X17: in the execution phase a correction request that fails ends the
    phase at once.  If running or parsing the code fails with retries left
    and the code generator is down, [execute_with_retries] raises the error of
    the generator after one run and one request, whatever retry budget
    remains: the regeneration is called from the handler, outside the [try]
    of the loop. *)
Theorem failed_correction_ends_the_execution_phase
    (env : Collaborators) (code : Code) (w : World) (e : exn) (w1 : World) (down : exn) :
  (1 <= max_retries (config (_state w)))%nat ->
  is_Exception e = true ->
  execute_and_parse env code w = (Raise e, w1) ->
  generator_fails_with env down ->
  let out := execute_with_retries env code w in
  fst out = Raise down
  /\ count_execute (trace (snd out)) = S (count_execute (trace w))
  /\ count_generate (trace (snd out)) = S (count_generate (trace w)).
Proof.
  intros HN Hexn Hrun Hdown. cbv zeta.
  destruct (execute_and_parse_failure env code w e w1 Hrun) as [Hce Hcg].
  unfold execute_with_retries.
  change (bind get_state ?k w) with (k (_state w) w). cbv beta.
  destruct (max_retries (config (_state w))) as [| n]; [lia |].
  cbn [execute_retry_loop Nat.leb].
  unfold bind. rewrite execute_retry_step_unfold, Hrun, Hexn.
  change (S n <? 1)%nat with false. cbv iota.
  destruct (regenerate_when_down env code e down
              (emit (Log ("Retrying execution (" +:+ str_nat 1 +:+ "/"
                          +:+ str_nat (S n) +:+ ")..."))
                 (set_exc_info (Some e) w1)) Hdown) as (w2 & -> & Hce2 & Hcg2).
  cbn [fst snd]. split; [reflexivity |].
  change (trace (set_exc_info (exc_info w1) w2)) with (trace w2).
  rewrite Hce2, Hcg2.
  unfold count_execute, count_generate, count_events in *. simpl.
  rewrite Hce, Hcg. auto.
Qed.

(** X18: without a language model a turn ends before anything is asked:
    [follow_up] fails with the AttributeError of reading [llm.type], after
    logging the question and with the state of the agent unchanged, and
    [chat] fails with ValueError without any effect. *)
Theorem turn_without_language_model
    (env : Collaborators) (query : string) (expected : option string) (w : World) :
  llm (config (_state w)) = None ->
  (exists msg,
      follow_up env query expected w
      = (Raise (mk_exn AttributeError msg), emit (Log ("Question: " +:+ query)) w))
  /\ (exists msg, chat env query expected w = (Raise (mk_exn ValueError msg), w)).
Proof.
  intros Hl. split.
  - unfold follow_up, _process_query, process_query_prelude, bind, log, tell,
      get_state, raise. simpl. rewrite Hl. eexists. reflexivity.
  - unfold chat, bind, get_state, raise. rewrite Hl. eexists. reflexivity.
Qed.

(** ** The router *)

Lemma table_mapping_is_Some l :
  forall (m : gmap string string) name,
    is_Some (fold_left add_table_expression l m !! name)
    <-> is_Some (m !! name)
        \/ exists df, In df l /\ schema_name df = name /\ ~ is_local df.
Proof.
  unfold is_local.
  induction l as [| df l IH]; intros m name; simpl.
  - split; [auto | intros [H | (df & [] & _)]; exact H].
  - rewrite IH. unfold add_table_expression.
    destruct (query_builder df) as [expr |] eqn:Hq.
    + rewrite lookup_insert_is_Some. split.
      * intros [[Heq | [_ Hm]] | (df' & Hin & Hn & Hb)].
        -- right. exists df. rewrite Hq. auto.
        -- left. exact Hm.
        -- right. exists df'. auto.
      * intros [Hm | (df' & [<- | Hin] & Hn & Hb)].
        -- destruct (decide (schema_name df = name)) as [Heq | Hne]; [left; left; exact Heq |].
           left. right. auto.
        -- left. left. exact Hn.
        -- right. exists df'. auto.
    + split.
      * intros [Hm | (df' & Hin & Hn & Hb)]; [left; exact Hm | right; exists df'; auto].
      * intros [Hm | (df' & [<- | Hin] & Hn & Hb)];
          [left; exact Hm | congruence | right; exists df'; auto].
Qed.

Lemma registered_is_Some l :
  forall (d : gmap string DataFrame) name,
    is_Some (registered_by l d !! name)
    <-> is_Some (d !! name)
        \/ exists df, In df l /\ schema_name df = name /\ is_local df.
Proof.
  unfold is_local, registered_by.
  induction l as [| df l IH]; intros d name; simpl.
  - split; [auto | intros [H | (df & [] & _)]; exact H].
  - rewrite IH. unfold register_local.
    destruct (query_builder df) as [expr |] eqn:Hq.
    + split.
      * intros [Hm | (df' & Hin & Hn & Hb)]; [left; exact Hm | right; exists df'; auto].
      * intros [Hm | (df' & [<- | Hin] & Hn & Hb)];
          [left; exact Hm | congruence | right; exists df'; auto].
    + rewrite lookup_insert_is_Some. split.
      * intros [[Heq | [_ Hm]] | (df' & Hin & Hn & Hb)].
        -- right. exists df. auto.
        -- left. exact Hm.
        -- right. exists df'. auto.
      * intros [Hm | (df' & [<- | Hin] & Hn & Hb)].
        -- destruct (decide (schema_name df = name)) as [Heq | Hne]; [left; left; exact Heq |].
           left. right. auto.
        -- left. left. exact Hn.
        -- right. exists df'. auto.
Qed.

Lemma last_delegate_position l :
  match last_delegate l with
  | Some d => exists l1 l2, l = l1 ++ d :: l2 /\ ~ is_local d /\ Forall is_local l2
  | None => Forall is_local l
  end.
Proof.
  unfold is_local.
  induction l as [| df l IH]; simpl; [constructor |].
  destruct (last_delegate l) as [d |].
  - destruct IH as (l1 & l2 & -> & Hd & Hl2). exists (df :: l1), l2. auto.
  - destruct (query_builder df) as [expr |] eqn:Hq.
    + exists [], l. rewrite Hq. repeat split; [discriminate | exact IH].
    + constructor; [exact Hq | exact IH].
Qed.

(** X19: what the loop over the datasets of [_execute_sql_query] leaves
    behind.  It never fails; the table mapping it builds has an entry for
    exactly the names of the datasets that have a query builder, the
    in-process engine gains a table for exactly the names of those that have
    none, and the executor it selects is the last dataset of the list with a
    query builder (none when every dataset is local). *)
Theorem register_loop_outcome (l : list DataFrame) (w : World) :
  exists table_mapping df_executor w',
    register_loop l ∅ None w = (Ok (table_mapping, df_executor), w')
    /\ (forall name,
          is_Some (table_mapping !! name)
          <-> exists df, In df l /\ schema_name df = name /\ ~ is_local df)
    /\ (forall name,
          is_Some (duckdb w' !! name)
          <-> is_Some (duckdb w !! name)
              \/ exists df, In df l /\ schema_name df = name /\ is_local df)
    /\ match df_executor with
       | Some d => exists l1 l2, l = l1 ++ d :: l2 /\ ~ is_local d /\ Forall is_local l2
       | None => Forall is_local l
       end.
Proof.
  destruct (register_loop_spec l ∅ None w) as (regs & w' & Hrun & _ & _ & _ & Hdb & _).
  eexists _, _, w'. split; [exact Hrun |].
  split; [| split].
  - intros name. rewrite table_mapping_is_Some, lookup_empty. split.
    + intros [[x Hx] | H]; [discriminate | exact H].
    + auto.
  - intros name. rewrite Hdb. apply registered_is_Some.
  - pose proof (last_delegate_position l) as Hpos.
    destruct (last_delegate l); exact Hpos.
Qed.

(** X20: the two ways [_execute_sql_query] fails before any query runs.
    Without datasets it raises ValueError and leaves the agent untouched;
    when the rewriting of the table names raises (a query that names a table
    outside the mapping, say), that error reaches the caller and no engine
    runs anything, although the local datasets have been registered in the
    in-process engine by then. *)
Theorem execute_sql_query_failures (env : Collaborators) (query : string) (w : World) :
  (dfs (_state w) = [] ->
   exists msg, _execute_sql_query env query w = (Raise (mk_exn ValueError msg), w))
  /\ (forall e,
        dfs (_state w) <> [] ->
        replace_table_and_column_names env query (table_mapping_of (dfs (_state w))) = inl e ->
        let out := _execute_sql_query env query w in
        fst out = Raise e
        /\ count_events is_sql_run (trace (snd out)) = count_events is_sql_run (trace w)
        /\ duckdb (snd out) = registered_by (dfs (_state w)) (duckdb w)).
Proof.
  unfold _execute_sql_query.
  change (bind get_state ?k w) with (k (_state w) w). cbv beta.
  split.
  - intros ->. eexists. reflexivity.
  - intros e Hne Hreplace. cbv zeta.
    destruct (dfs (_state w)) as [| df0 l] eqn:Hdfs; [contradiction |].
    destruct (register_loop_spec (df0 :: l) ∅ None w)
      as (regs & w1 & Hrun & Ht & Hregs & _ & Hdb & _).
    destruct (registrations_run_nothing regs Hregs) as [Hnone _].
    unfold bind. rewrite Hrun.
    change (fold_left add_table_expression (df0 :: l) ∅) with (table_mapping_of (df0 :: l)).
    unfold lift. rewrite Hreplace. cbn [fst snd].
    split; [reflexivity |]. split; [| exact Hdb].
    rewrite Ht, count_events_app. unfold count_events at 1. now rewrite Hnone.
Qed.

End AgentFacts.

(* ================================================================== *)
(** * Training *)
(* ================================================================== *)

Module TrainingFacts.
Import Exceptions Schema Agent Training.

(** X21: [train] checks before it stores.  Without a vector store it raises
    MissingVectorStoreError; when exactly one of [queries] and [codes] is
    given (not None and not empty) it raises ValueError, and in both cases
    nothing is stored, the documents of the same call included.  Otherwise
    it succeeds, and the vector store receives the documents iff [docs] is
    not None (an empty list is still handed over) and then the
    question-answer pairs iff both lists are non-empty. *)
Theorem train_outcome
    (queries codes docs : option (list string)) (a : TrainingAgent) :
  let out := train queries codes docs a in
  (vectorstore a = None ->
   exists msg, out = (Raise (mk_exn MissingVectorStoreError msg), a))
  /\ (forall store,
        vectorstore a = Some store ->
        truthy_list queries <> truthy_list codes ->
        exists msg, out = (Raise (mk_exn ValueError msg), a))
  /\ (forall store,
        vectorstore a = Some store ->
        truthy_list queries = truthy_list codes ->
        fst out = Ok tt
        /\ vectorstore (snd out)
           = Some ((if truthy_list queries
                    then [AddQuestionAnswer (or_empty queries) (or_empty codes)]
                    else [])
                   ++ match docs with Some d => [AddDocs d] | None => [] end
                   ++ store)
        /\ trace (agent (snd out))
           = Log "Agent successfully trained on the data" :: trace (agent a)).
Proof.
  cbv zeta. unfold train. split; [| split].
  - intros ->. eexists. reflexivity.
  - intros store -> Hne.
    destruct (truthy_list queries), (truthy_list codes); try congruence;
      eexists; reflexivity.
  - intros store -> Heq. rewrite <- Heq.
    destruct (truthy_list queries), docs; simpl; auto.
Qed.

End TrainingFacts.

(* ================================================================== *)
(** * The HTTP session and the serializer *)
(* ================================================================== *)

Module RequestFacts.
Import Exceptions Request.

(** X22: how [Session] finds its key and its endpoint.  The construction
    fails, with PandasAIApiKeyError, exactly when no key is passed and the
    environment variable PANDASAI_API_KEY is unset or empty.  A key passed by
    the caller is taken as it is, also when it is the empty text; otherwise
    the key is the one of the environment.  The endpoint is the one passed,
    else the value of PANDASAI_API_URL (also when empty), else the default;
    the version path is [/api]. *)
Theorem session_init_outcome
    (endpoint_url api_key : option string) (environ : gmap string string) :
  let out := __init__ endpoint_url api_key environ in
  let unset k := environ !! k = None \/ environ !! k = Some EmptyString in
  (out = inl (Pandas (mk_exn PandasAIApiKeyError EmptyString))
   <-> api_key = None /\ unset "PANDASAI_API_KEY")
  /\ (forall raised, out = inl raised ->
        raised = Pandas (mk_exn PandasAIApiKeyError EmptyString))
  /\ (forall self, out = inr self ->
        match api_key with
        | Some key => _api_key self = key
        | None => environ !! "PANDASAI_API_KEY" = Some (_api_key self)
                  /\ _api_key self <> EmptyString
        end
        /\ _endpoint_url self
           = match endpoint_url, environ !! "PANDASAI_API_URL" with
             | Some url, _ => url
             | None, Some url => url
             | None, None => "https://api.domer.ai"
             end
        /\ _version_path self = "/api").
Proof.
  cbv zeta. unfold __init__, environ_api_key.
  destruct api_key as [key |].
  - split; [split; [discriminate | intros [? _]; discriminate] |].
    split; [discriminate |].
    intros self [= <-]. simpl.
    destruct endpoint_url, (environ !! "PANDASAI_API_URL"); auto.
  - destruct (environ !! "PANDASAI_API_KEY") as [key |] eqn:Hkey.
    + destruct (String.eqb key EmptyString) eqn:Hempty.
      * apply String.eqb_eq in Hempty. subst key.
        split; [split; auto |]. split; [intros raised [= <-]; reflexivity | discriminate].
      * apply String.eqb_neq in Hempty.
        split; [split; [discriminate | intros [_ [? | ?]]; congruence] |].
        split; [discriminate |].
        intros self [= <-]. simpl.
        destruct endpoint_url, (environ !! "PANDASAI_API_URL"); auto.
    + split; [split; auto |]. split; [intros raised [= <-]; reflexivity | discriminate].
Qed.

Section MakeRequest.

Variable Args : Type.
Variable urljoin : string -> string -> string.
Variable requests_request :
  string -> string -> list (string * string) -> Args -> outcome Response.
Variable format_exc : string -> string.

(** X23: what [make_request] lets through.  No exception of [requests]
    reaches the caller: each is logged and turned into PandasAIApiCallError
    with the text [Request failed: ...].  When the server answers with
    status 200 or 201 the decoded payload is returned without being
    inspected; with any other status the call raises PandasAIApiCallError
    carrying the [message] member, or else the [detail] member, and when
    the payload has neither it is returned to the caller like that of a
    success. *)
Theorem make_request_error_surface
    (self : Session) (method path : string) (headers : option (list (string * string)))
    (args : Args) :
  let request := make_request Args urljoin requests_request format_exc
                   self method (Some path) headers args in
  let url := urljoin (_endpoint_url self) ("/api" +:+ path) in
  let sent_headers := match headers with Some h => h | None => default_headers self end in
  _version_path self = "/api" ->
  (forall text, fst request <> inl (RequestException text))
  /\ (forall text,
        requests_request method url sent_headers args = inl (RequestException text) ->
        request = (inl (Pandas (mk_exn PandasAIApiCallError ("Request failed: " +:+ text))),
                   ["Request failed: " +:+ format_exc text]))
  /\ (forall response data,
        requests_request method url sent_headers args = inr response ->
        json response = inr data ->
        (status_code response = 200%nat \/ status_code response = 201%nat ->
         request = (inr data, []))
        /\ (status_code response <> 200%nat -> status_code response <> 201%nat ->
            (fst request = inr data
             <-> data !! "message" = None /\ data !! "detail" = None)
            /\ (forall message, data !! "message" = Some message ->
                  fst request = inl (Pandas (mk_exn PandasAIApiCallError message)))
            /\ (forall detail, data !! "message" = None -> data !! "detail" = Some detail ->
                  fst request = inl (Pandas (mk_exn PandasAIApiCallError detail))))).
Proof.
  cbv zeta. intros Hversion.
  unfold make_request, make_request_try. rewrite Hversion.
  set (url := urljoin (_endpoint_url self) ("/api" +:+ path)).
  set (sent := match headers with Some h => h | None => default_headers self end).
  split; [| split].
  - intros text.
    destruct (requests_request method url sent args) as [[] | response]; try discriminate.
    destruct (json response) as [[] | data]; try discriminate.
    destruct (negb _); [| discriminate].
    destruct (data !! "message"); [discriminate |].
    destruct (data !! "detail"); discriminate.
  - intros text ->. reflexivity.
  - intros response data -> ->.
    split.
    + intros [-> | ->]; reflexivity.
    + intros H200 H201.
      assert (Hcode : negb (existsb (Nat.eqb (status_code response)) [200; 201]%nat) = true).
      { simpl. apply Nat.eqb_neq in H200, H201. now rewrite H200, H201. }
      rewrite Hcode.
      destruct (data !! "message") as [m |], (data !! "detail") as [d |]; simpl;
        repeat split; try discriminate; try congruence;
        try (intros [? ?]; discriminate); intros; congruence.
Qed.

End MakeRequest.

End RequestFacts.

Module SerializerFacts.
Import Serializer.

Section Serialize.

Variable json_dumps : Json -> string.
Variable yaml_dump : Json -> string.

(** X24: what [serialize] needs of its arguments.  In the YML (default),
    JSON and SQL formats it always returns a text and does not read
    [extras]; in the CSV format it returns a text exactly when [extras] is a
    dictionary with an [index] member, and raises otherwise (TypeError on
    None, KeyError on a dictionary without it).  The YML and JSON texts do
    not depend on the description of the dataframe. *)
Theorem serialize_outcome
    (df : Frame) (extras : option (gmap string string)) (type_ : DataframeSerializerType) :
  (type_ <> CSV ->
   exists text, forall extras', serialize json_dumps yaml_dump df extras' type_ = inr text)
  /\ ((exists text, serialize json_dumps yaml_dump df extras CSV = inr text)
      <-> exists given index, extras = Some given /\ given !! "index" = Some index)
  /\ (extras = None ->
      exists msg, serialize json_dumps yaml_dump df extras CSV = inl (TypeError msg))
  /\ (forall given, extras = Some given -> given !! "index" = None ->
        serialize json_dumps yaml_dump df extras CSV = inl (KeyError "index"))
  /\ (forall d, type_ = YML \/ type_ = JSON ->
        serialize json_dumps yaml_dump (described d df) extras type_
        = serialize json_dumps yaml_dump df extras type_).
Proof.
  split; [| split; [| split; [| split]]].
  - intros Hne. destruct type_; try congruence.
    + exists (convert_df_to_json_str json_dumps df None). reflexivity.
    + exists (convert_df_to_yml yaml_dump df None). reflexivity.
    + exists (convert_df_sql_connector_to_str df None). reflexivity.
  - unfold serialize, convert_df_to_csv. split.
    + intros [text H]. destruct extras as [given |]; [| discriminate].
      destruct (given !! "index") as [index |] eqn:Hi; [| discriminate].
      exists given, index. auto.
    + intros (given & index & -> & ->). eexists. reflexivity.
  - intros ->. eexists. reflexivity.
  - intros given -> Hi. unfold serialize, convert_df_to_csv. now rewrite Hi.
  - intros d [-> | ->]; reflexivity.
Qed.

End Serialize.

End SerializerFacts.

(* ================================================================== *)
(** * Sources of schemas, destinations, construction *)
(* ================================================================== *)

Module SourceFacts.
Import Exceptions Schema Destinations Agent.

Section Constants.

Variables LOCAL_SOURCE_TYPES REMOTE_SOURCE_TYPES : list string.

(** X25: [is_schema_source_same] looks at the type and the path of the two
    sources and at nothing else.  On two schemas with a source it answers
    True exactly when types and paths agree, so two remote sources of the
    same type, whose paths are both unset, count as the same source also
    when their connections differ, a case in which [is_compatible_source]
    answers False.  On a schema without source (a view) it raises
    AttributeError. *)
Theorem schema_source_same_ignores_connection
    (schema1 schema2 : SemanticLayerSchema) :
  (forall s1 s2,
      source schema1 = Some s1 -> source schema2 = Some s2 ->
      (is_schema_source_same schema1 schema2 = inr true
       <-> source_type s1 = source_type s2 /\ source_path s1 = source_path s2)
      /\ exists b, is_schema_source_same schema1 schema2 = inr b)
  /\ (forall s1 s2 c1 c2,
        source schema1 = Some s1 -> source schema2 = Some s2 ->
        source_type s1 = source_type s2 -> source_path s1 = source_path s2 ->
        py_in (source_type s1) LOCAL_SOURCE_TYPES = false ->
        py_in (source_type s1) REMOTE_SOURCE_TYPES = true ->
        source_connection s1 = Some c1 -> source_connection s2 = Some c2 -> c1 <> c2 ->
        is_schema_source_same schema1 schema2 = inr true
        /\ is_compatible_source LOCAL_SOURCE_TYPES REMOTE_SOURCE_TYPES s1 s2 = inr false)
  /\ (source schema1 = None \/ source schema2 = None ->
      exists msg, is_schema_source_same schema1 schema2 = inl (mk_exn AttributeError msg)).
Proof.
  unfold is_schema_source_same.
  split; [| split].
  - intros s1 s2 -> ->. split; [| eexists; reflexivity].
    split.
    + intros [= H]. apply andb_true_iff in H as [Ht Hp].
      apply String.eqb_eq in Ht. apply bool_decide_eq_true in Hp. auto.
    + intros [Ht Hp]. rewrite Ht, Hp, String.eqb_refl.
      rewrite bool_decide_eq_true_2 by reflexivity. reflexivity.
  - intros s1 s2 c1 c2 -> -> Ht Hp Hlocal Hremote Hc1 Hc2 Hne.
    split.
    + rewrite Ht, Hp, String.eqb_refl.
      rewrite bool_decide_eq_true_2 by reflexivity. reflexivity.
    + unfold is_compatible_source.
      rewrite <- Ht, Hlocal, Hremote, Hc1, Hc2. simpl.
      destruct (SQLConnectionConfig_eq c1 c2) eqn:Heq; [| reflexivity].
      apply SchemaFacts.config_eq_true in Heq. contradiction.
  - intros [-> | H2].
    + eexists. reflexivity.
    + rewrite H2. destruct (source schema1); eexists; reflexivity.
Qed.

(** X26: what a destination writes can be read back: a format accepted by
    [Destination.is_format_supported] is returned unchanged, and a source of
    that type with a non-empty path passes [Source.validate_type_and_fields];
    a format that is rejected, always with ValueError, is the type of no
    valid local source. *)
Theorem destination_format_is_a_local_source (format path : string) :
  (forall accepted,
      is_format_supported LOCAL_SOURCE_TYPES format = inr accepted ->
      path <> EmptyString ->
      accepted = format
      /\ validate_type_and_fields LOCAL_SOURCE_TYPES REMOTE_SOURCE_TYPES
           (source_of_destination format path)
         = inr (source_of_destination format path))
  /\ (forall e,
        is_format_supported LOCAL_SOURCE_TYPES format = inl e ->
        exn_type e = ValueError
        /\ py_in format LOCAL_SOURCE_TYPES = false).
Proof.
  unfold is_format_supported.
  destruct (py_in format LOCAL_SOURCE_TYPES) eqn:Hin; simpl.
  - split; [| discriminate].
    intros accepted [= <-] Hpath. split; [reflexivity |].
    unfold validate_type_and_fields, source_of_destination. simpl. rewrite Hin.
    apply String.eqb_neq in Hpath. now rewrite Hpath.
  - split; [discriminate |].
    intros e [= <-]. split; reflexivity.
Qed.

(** X27: an agent over a single dataset is constructed without looking at
    its source: [Agent(df)] performs no compatibility check and cannot fail,
    also for a dataset that has neither a schema source nor a loader, while
    [Agent([df])] for such a dataset raises AttributeError. *)
Theorem single_dataset_skips_the_source_check
    (df : DataFrame) (config : option Config) (global_config : Config) (sandbox : bool) :
  (exists w,
      __init__ LOCAL_SOURCE_TYPES REMOTE_SOURCE_TYPES (inl df) config global_config sandbox
      = inr w
      /\ count_events is_check (trace w) = 0%nat
      /\ _sandbox w = sandbox
      /\ (trace w <> [] <-> config <> None))
  /\ (schema_source df = None -> loader_source df = None ->
      exists msg,
        __init__ LOCAL_SOURCE_TYPES REMOTE_SOURCE_TYPES (inr [df]) config global_config sandbox
        = inl (mk_exn AttributeError msg)).
Proof.
  split.
  - eexists. split; [reflexivity |]. simpl.
    destruct config; repeat split; try reflexivity; try discriminate; congruence.
  - intros Hs Hl. unfold __init__, sources_of, source_of. rewrite Hs, Hl.
    eexists. reflexivity.
Qed.

End Constants.

End SourceFacts.

Module GetFacts.
Import Exceptions Request.

Section Get.

Variable Args : Type.
Variable urljoin : string -> string -> string.
Variable requests_request :
  string -> string -> list (string * string) -> Args -> outcome Response.
Variable format_exc : string -> string.

(** X28: [get] unwraps the [data] member of whatever [make_request]
    returns.  An answer with an error status whose payload has neither
    [message] nor [detail] is not reported as PandasAIApiCallError: [get]
    returns its [data] member when there is one and raises a bare KeyError
    when there is none.  No exception of [requests] reaches the caller of
    [get] either. *)
Theorem get_unwraps_error_payloads
    (self : Session) (path : string) (headers : option (list (string * string)))
    (args : Args) :
  let url := urljoin (_endpoint_url self) ("/api" +:+ path) in
  let sent_headers := match headers with Some h => h | None => default_headers self end in
  let answer := fst (get Args urljoin requests_request format_exc
                       self (Some path) headers args) in
  _version_path self = "/api" ->
  (forall text, answer <> inl (RequestException text))
  /\ (forall response data,
        requests_request "GET" url sent_headers args = inr response ->
        json response = inr data ->
        data !! "message" = None -> data !! "detail" = None ->
        answer = match data !! "data" with
                 | Some value => inr value
                 | None => inl (KeyError "data")
                 end).
Proof.
  cbv zeta. intros Hversion.
  unfold get, make_request, make_request_try. rewrite Hversion.
  set (url := urljoin (_endpoint_url self) ("/api" +:+ path)).
  set (sent := match headers with Some h => h | None => default_headers self end).
  split.
  - intros text.
    destruct (requests_request "GET" url sent args) as [[] | response];
      try discriminate.
    destruct (json response) as [[] | data]; try discriminate.
    destruct (negb _).
    + destruct (data !! "message"); [discriminate |].
      destruct (data !! "detail"); [discriminate |].
      simpl. destruct (data !! "data"); discriminate.
    + simpl. destruct (data !! "data"); discriminate.
  - intros response data -> -> Hm Hd. rewrite Hm, Hd.
    destruct (negb _); reflexivity.
Qed.

End Get.

End GetFacts.

(* ================================================================== *)
(** * Instances *)
(* ================================================================== *)

Module Checks.
Import Exceptions Schema Agent Scenarios Invariants Examples.

Lemma validate_type_and_fields_accepts_witness :
  exists e,
    validate_type_and_fields LOCAL_SOURCE_TYPES REMOTE_SOURCE_TYPES remote_without_connection
    = inl e
    /\ exn_type e = ValueError.
Proof.
  destruct (validate_type_and_fields LOCAL_SOURCE_TYPES REMOTE_SOURCE_TYPES
              remote_without_connection) as [e | s'] eqn:H;
    [| vm_compute in H; discriminate].
  exists e. split; [reflexivity |].
  exact (proj2 (proj2 (SchemaFacts.validate_type_and_fields_accepts
                         LOCAL_SOURCE_TYPES REMOTE_SOURCE_TYPES remote_without_connection))
           e H).
Defined.

Lemma compatibility_is_an_equivalence_witness :
  (forall t, py_in t LOCAL_SOURCE_TYPES = true -> py_in t REMOTE_SOURCE_TYPES = false)
  /\ validate_type_and_fields LOCAL_SOURCE_TYPES REMOTE_SOURCE_TYPES csv_source
     = inr csv_source
  /\ is_compatible_source LOCAL_SOURCE_TYPES REMOTE_SOURCE_TYPES csv_source csv_source
     = inr true.
Proof.
  assert (H1 : forall t, py_in t LOCAL_SOURCE_TYPES = true ->
                         py_in t REMOTE_SOURCE_TYPES = false).
  { intros t. unfold py_in, LOCAL_SOURCE_TYPES, REMOTE_SOURCE_TYPES. simpl.
    destruct (String.eqb_spec t "csv") as [-> |]; [reflexivity |].
    destruct (String.eqb_spec t "parquet") as [-> |]; [reflexivity | discriminate]. }
  assert (H2 : validate_type_and_fields LOCAL_SOURCE_TYPES REMOTE_SOURCE_TYPES csv_source
               = inr csv_source) by reflexivity.
  split; [exact H1 |]. split; [exact H2 |].
  exact (proj1 (proj2 (SchemaFacts.compatibility_is_an_equivalence
                         LOCAL_SOURCE_TYPES REMOTE_SOURCE_TYPES csv_source csv_source
                         H1 H2 H2))).
Defined.

Lemma validate_group_by_columns_accepts_witness :
  exists e,
    _validate_group_by_columns aggregated_group = inl e /\ exn_type e = ValueError.
Proof.
  destruct (_validate_group_by_columns aggregated_group) as [e | u] eqn:H;
    [| vm_compute in H; discriminate].
  exists e. split; [reflexivity |].
  exact (proj2 (SchemaFacts.validate_group_by_columns_accepts aggregated_group) e H).
Defined.

Lemma validated_columns_are_distinct_witness :
  validate_schema any_name sales_by_region = inr sales_by_region
  /\ List.NoDup ["region"; "total"].
Proof.
  assert (H : validate_schema any_name sales_by_region = inr sales_by_region)
    by (vm_compute; reflexivity).
  split; [exact H |].
  exact (SchemaFacts.validated_columns_are_distinct any_name sales_by_region
           sales_by_region H).
Defined.

Lemma validated_view_shape_witness :
  validate_schema any_name orders_view = inr orders_view
  /\ view orders_view = Some true
  /\ forall n, In n ["orders.id"; "customers.name"] -> is_view_column_name n = true.
Proof.
  assert (H1 : validate_schema any_name orders_view = inr orders_view)
    by (vm_compute; reflexivity).
  assert (H2 : view orders_view = Some true) by reflexivity.
  split; [exact H1 |]. split; [exact H2 |].
  exact (proj1 (proj2 (SchemaFacts.validated_view_shape any_name orders_view orders_view
                         H1 H2))).
Defined.

Lemma validated_table_has_plain_columns_witness :
  validate_schema any_name sales_by_region = inr sales_by_region
  /\ view sales_by_region <> Some true
  /\ source sales_by_region <> None.
Proof.
  assert (H1 : validate_schema any_name sales_by_region = inr sales_by_region)
    by (vm_compute; reflexivity).
  assert (H2 : view sales_by_region <> Some true) by discriminate.
  split; [exact H1 |]. split; [exact H2 |].
  exact (proj1 (SchemaFacts.validated_table_has_plain_columns any_name sales_by_region
                  sales_by_region H1 H2)).
Defined.

Lemma rename_requires_new_name_witness :
  Transformations.raw_type rename_without_new_name = Some "rename"
  /\ "rename" <> EmptyString
  /\ py_in "rename" VALID_TRANSFORMATION_TYPES = true
  /\ exists e,
       Transformations.validate_transformation VALID_TRANSFORMATION_TYPES
         rename_without_new_name = inl e.
Proof.
  assert (H1 : Transformations.raw_type rename_without_new_name = Some "rename")
    by reflexivity.
  assert (H2 : "rename" <> EmptyString) by discriminate.
  assert (H3 : py_in "rename" VALID_TRANSFORMATION_TYPES = true) by reflexivity.
  split; [exact H1 |]. split; [exact H2 |]. split; [exact H3 |].
  apply (proj2 (SchemaFacts.rename_requires_new_name VALID_TRANSFORMATION_TYPES
                  rename_without_new_name "rename" H1 H2 H3)).
  split; [reflexivity |].
  exists {[ "column" := Transformations.VStr "amount" ]}.
  split; [reflexivity |]. split; [| reflexivity].
  intros H. apply (f_equal (fun m : gmap string Transformations.value => m !! "column")) in H.
  vm_compute in H. discriminate.
Defined.

Lemma train_outcome_witness :
  Training.vectorstore trainable = Some []
  /\ truthy_list (Some ["How many sales?"]) <> truthy_list (None : option (list string))
  /\ exists msg,
       Training.train (Some ["How many sales?"]) None (Some ["The year starts in April."])
         trainable
       = (Raise (mk_exn ValueError msg), trainable).
Proof.
  assert (H1 : Training.vectorstore trainable = Some []) by reflexivity.
  assert (H2 : truthy_list (Some ["How many sales?"])
               <> truthy_list (None : option (list string))) by discriminate.
  split; [exact H1 |]. split; [exact H2 |].
  exact (proj1 (proj2 (TrainingFacts.train_outcome (Some ["How many sales?"]) None
                         (Some ["The year starts in April."]) trainable)) [] H1 H2).
Defined.

Lemma session_keeps_its_setup_witness :
  let w' := snd (chat llm_down "q" None constructed) in
  reachable llm_down constructed w'
  /\ dfs (_state w') = [sales; customers]
  /\ config (_state w') = config_with 1
  /\ _sandbox w' = false.
Proof.
  intros w'.
  assert (H : reachable llm_down constructed w')
    by exact (rtc_once _ _ (step_chat llm_down constructed "q" None)).
  split; [exact H |].
  exact (AgentFacts.session_keeps_its_setup llm_down constructed w' H).
Defined.

Lemma turn_stays_within_budget_witness :
  within_budget (session [sales] 2) (follow_up always_crashing "q" None (session [sales] 2)).
Proof.
  exact (proj1 (AgentFacts.turn_stays_within_budget always_crashing "q" None
                  (session [sales] 2))).
Defined.

Lemma turn_records_the_question_only_witness :
  let w := mid_conversation 0 in
  llm (config (_state w)) = Some {| llm_type := "fake" |}
  /\ memory (_state (snd (chat llm_down "q" None w))) = [user_message "q"].
Proof.
  intros w.
  assert (H : llm (config (_state w)) = Some {| llm_type := "fake" |}) by reflexivity.
  split; [exact H |].
  exact (proj2 (AgentFacts.turn_records_the_question_only llm_down "q" None w _ H)).
Defined.

Lemma runs_follow_the_sandbox_setting_witness :
  let w' := snd (follow_up always_crashing "q" None constructed) in
  reachable always_crashing constructed w'
  /\ exists new,
       trace w' = new ++ trace constructed
       /\ forall sandboxed code, In (ExecuteCode sandboxed code) new -> sandboxed = false.
Proof.
  intros w'.
  assert (H : reachable always_crashing constructed w')
    by exact (rtc_once _ _ (step_follow_up always_crashing constructed "q" None)).
  split; [exact H |].
  exact (AgentFacts.runs_follow_the_sandbox_setting always_crashing constructed w' H).
Defined.

Lemma last_prompt_used_is_the_first_request_witness :
  let w := session [sales] 1 in
  let w1 := snd (generate_code llm_flaky "q" w) in
  generate_code llm_flaky "q" w = (Raise timeout_error, w1)
  /\ last_prompt_used (_state (snd (generate_code_with_retries llm_flaky "q" w))) = None.
Proof.
  intros w w1.
  assert (H : generate_code llm_flaky "q" w = (Raise timeout_error, w1))
    by (vm_compute; reflexivity).
  split; [exact H |].
  exact (proj1 (AgentFacts.last_prompt_used_is_the_first_request llm_flaky "q" w)
           timeout_error w1 H).
Defined.

Lemma last_prompt_used_is_never_a_correction_witness :
  let w' := snd (follow_up llm_flaky "q" None constructed) in
  reachable llm_flaky constructed w'
  /\ records_chat_prompt constructed
  /\ records_chat_prompt w'.
Proof.
  intros w'.
  assert (H1 : reachable llm_flaky constructed w')
    by exact (rtc_once _ _ (step_follow_up llm_flaky constructed "q" None)).
  assert (H2 : records_chat_prompt constructed) by exact I.
  split; [exact H1 |]. split; [exact H2 |].
  exact (AgentFacts.last_prompt_used_is_never_a_correction llm_flaky constructed w' H1 H2).
Defined.

Lemma execute_sql_query_failures_witness :
  let w := session [sales; orders] 0 in
  let out := _execute_sql_query refusing_rewriter "SELECT * FROM payroll" w in
  dfs (_state w) <> []
  /\ replace_table_and_column_names refusing_rewriter "SELECT * FROM payroll"
       (table_mapping_of (dfs (_state w))) = inl refused
  /\ fst out = Raise refused
  /\ count_events is_sql_run (trace (snd out)) = count_events is_sql_run (trace w)
  /\ duckdb (snd out) = registered_by (dfs (_state w)) (duckdb w).
Proof.
  intros w out.
  assert (H1 : dfs (_state w) <> []) by discriminate.
  assert (H2 : replace_table_and_column_names refusing_rewriter "SELECT * FROM payroll"
                 (table_mapping_of (dfs (_state w))) = inl refused) by reflexivity.
  split; [exact H1 |]. split; [exact H2 |].
  exact (proj2 (AgentFacts.execute_sql_query_failures refusing_rewriter
                  "SELECT * FROM payroll" w) refused H1 H2).
Defined.

Lemma turn_without_language_model_witness :
  llm (config (_state offline)) = None
  /\ exists msg, chat llm_down "q" None offline = (Raise (mk_exn ValueError msg), offline).
Proof.
  assert (H : llm (config (_state offline)) = None) by reflexivity.
  split; [exact H |].
  exact (proj2 (AgentFacts.turn_without_language_model llm_down "q" None offline H)).
Defined.

Lemma failed_correction_ends_the_execution_phase_witness :
  let w := session [sales] 3 in
  let code := Some "result = 1 / 0" in
  let w1 := snd (execute_and_parse all_down code w) in
  let out := execute_with_retries all_down code w in
  (1 <= max_retries (config (_state w)))%nat
  /\ is_Exception division_by_zero = true
  /\ execute_and_parse all_down code w = (Raise division_by_zero, w1)
  /\ generator_fails_with all_down timeout_error
  /\ fst out = Raise timeout_error
  /\ count_execute (trace (snd out)) = 1%nat
  /\ count_generate (trace (snd out)) = 1%nat.
Proof.
  intros w code w1 out.
  assert (H1 : (1 <= max_retries (config (_state w)))%nat) by (simpl; lia).
  assert (H2 : is_Exception division_by_zero = true) by reflexivity.
  assert (H3 : execute_and_parse all_down code w = (Raise division_by_zero, w1))
    by (vm_compute; reflexivity).
  assert (H4 : generator_fails_with all_down timeout_error)
    by (intros t prompt; reflexivity).
  split; [exact H1 |]. split; [exact H2 |]. split; [exact H3 |]. split; [exact H4 |].
  exact (AgentFacts.failed_correction_ends_the_execution_phase all_down code w
           division_by_zero w1 timeout_error H1 H2 H3 H4).
Defined.

Lemma generation_corrections_report_the_first_failure_witness :
  let w := session [sales] 2 in
  let w1 := snd (generate_code llm_down "q" w) in
  generate_code llm_down "q" w = (Raise timeout_error, w1)
  /\ is_Exception timeout_error = true
  /\ exists corrections,
       prompts_of (trace (snd (generate_code_with_retries llm_down "q" w)))
       = corrections ++ prompts_of (trace w1)
       /\ corrections <> []
       /\ Forall (carries_traceback (format_traceback llm_down timeout_error)) corrections.
Proof.
  intros w w1.
  assert (H1 : generate_code llm_down "q" w = (Raise timeout_error, w1))
    by (vm_compute; reflexivity).
  assert (H2 : is_Exception timeout_error = true) by reflexivity.
  split; [exact H1 |]. split; [exact H2 |].
  exact (AgentFacts.generation_corrections_report_the_first_failure llm_down "q" w
           timeout_error w1 H1 H2).
Defined.

Lemma session_init_outcome_witness :
  let self := {| Request._api_key := EmptyString;
                 Request._endpoint_url := "https://api.domer.ai";
                 Request._version_path := "/api" |} in
  Request.__init__ None (Some EmptyString) ∅ = inr self
  /\ Request._api_key self = EmptyString.
Proof.
  intros self.
  assert (H : Request.__init__ None (Some EmptyString) ∅ = inr self) by reflexivity.
  split; [exact H |].
  exact (proj1 (proj2 (proj2 (RequestFacts.session_init_outcome None (Some EmptyString) ∅))
                  self H)).
Defined.

Lemma make_request_error_surface_witness :
  let request := Request.make_request unit String.append failing_server (fun text => text)
                   api_session "GET" (Some "/datasets") None tt in
  Request._version_path api_session = "/api"
  /\ fst request = inr ∅.
Proof.
  intros request.
  assert (H : Request._version_path api_session = "/api") by reflexivity.
  split; [exact H |].
  destruct (RequestFacts.make_request_error_surface unit String.append failing_server
              (fun text => text) api_session "GET" "/datasets" None tt H)
    as (_ & _ & Hanswer).
  destruct (Hanswer {| Request.status_code := 500; Request.json := inr ∅ |} ∅
              eq_refl eq_refl) as (_ & Herror).
  destruct (Herror ltac:(discriminate) ltac:(discriminate)) as (Hpass & _).
  apply Hpass. split; reflexivity.
Defined.

Lemma serialize_outcome_witness :
  Serializer.serialize kind_of kind_of frame (Some ∅) Serializer.CSV
  = inl (Serializer.KeyError "index").
Proof.
  exact (proj1 (proj2 (proj2 (proj2
           (SerializerFacts.serialize_outcome kind_of kind_of frame (Some ∅)
              Serializer.CSV)))) ∅ eq_refl eq_refl).
Defined.

Lemma schema_source_same_ignores_connection_witness :
  let s1 := pg_source "db1" "orders" in
  let s2 := pg_source "db2" "orders" in
  is_schema_source_same (schema_with (Some s1) None ["id"]) (schema_with (Some s2) None ["id"])
  = inr true
  /\ is_compatible_source LOCAL_SOURCE_TYPES REMOTE_SOURCE_TYPES s1 s2 = inr false.
Proof.
  intros s1 s2.
  apply (proj1 (proj2 (SourceFacts.schema_source_same_ignores_connection
                         LOCAL_SOURCE_TYPES REMOTE_SOURCE_TYPES
                         (schema_with (Some s1) None ["id"])
                         (schema_with (Some s2) None ["id"])))
           s1 s2 (pg "db1") (pg "db2"));
    try reflexivity.
  intros H. apply (f_equal host) in H. simpl in H. discriminate H.
Defined.

Lemma destination_format_is_a_local_source_witness :
  Destinations.is_format_supported LOCAL_SOURCE_TYPES "parquet" = inr "parquet"
  /\ "out.parquet" <> EmptyString
  /\ validate_type_and_fields LOCAL_SOURCE_TYPES REMOTE_SOURCE_TYPES
       (Destinations.source_of_destination "parquet" "out.parquet")
     = inr (Destinations.source_of_destination "parquet" "out.parquet").
Proof.
  assert (H1 : Destinations.is_format_supported LOCAL_SOURCE_TYPES "parquet" = inr "parquet")
    by reflexivity.
  assert (H2 : "out.parquet" <> EmptyString) by discriminate.
  split; [exact H1 |]. split; [exact H2 |].
  exact (proj2 (proj1 (SourceFacts.destination_format_is_a_local_source
                         LOCAL_SOURCE_TYPES REMOTE_SOURCE_TYPES "parquet" "out.parquet")
                  "parquet" H1 H2)).
Defined.

Lemma single_dataset_skips_the_source_check_witness :
  schema_source sourceless = None
  /\ loader_source sourceless = None
  /\ exists msg,
       __init__ LOCAL_SOURCE_TYPES REMOTE_SOURCE_TYPES (inr [sourceless]) None
         (config_with 1) false
       = inl (mk_exn AttributeError msg).
Proof.
  assert (H1 : schema_source sourceless = None) by reflexivity.
  assert (H2 : loader_source sourceless = None) by reflexivity.
  split; [exact H1 |]. split; [exact H2 |].
  exact (proj2 (SourceFacts.single_dataset_skips_the_source_check
                  LOCAL_SOURCE_TYPES REMOTE_SOURCE_TYPES sourceless None (config_with 1)
                  false) H1 H2).
Defined.

Lemma get_unwraps_error_payloads_witness :
  Request._version_path api_session = "/api"
  /\ fst (Request.get unit String.append failing_server (fun text => text)
            api_session (Some "/datasets") None tt)
     = inl (Request.KeyError "data").
Proof.
  assert (H : Request._version_path api_session = "/api") by reflexivity.
  split; [exact H |].
  exact (proj2 (GetFacts.get_unwraps_error_payloads unit String.append failing_server
                  (fun text => text) api_session "/datasets" None tt H)
           {| Request.status_code := 500; Request.json := inr ∅ |} ∅
           eq_refl eq_refl eq_refl eq_refl).
Defined.

End Checks.
